(** * ArthaFlow: the CSV bank-statement import pipeline of the Upload page

    A shallow embedding of the import pipeline of the [Upload] React
    component (tokenizer, header matcher, row mapper, date parser,
    validator, import session and commit), together with the part of the
    JavaScript runtime the pipeline calls (string methods, [parseInt],
    [parseFloat], [Date]).

    Conventions of the embedding.
    - A JavaScript string is a [string]; a character is read as the UTF-16
      code unit of the same number, so the model covers text in the range
      U+0000..U+00FF.
    - [undefined] is [None]: an array read [row[i]] is the list lookup
      [row !! i], a property read [t.date] is the map lookup [t !! "date"].
    - An expression that can throw returns a [result]; [try]/[catch] is a
      match on it. *)

From Stdlib Require Import ZArith QArith Lia Ascii String.
From stdpp Require Import gmap strings list fin_maps pretty.

Local Open Scope Z_scope.

(** ** Exceptions *)

Inductive result (A : Type) : Type :=
| Ok (a : A)
| Throw (message : string).
Arguments Ok {A} a.
Arguments Throw {A} message.

Definition bind {A B} (r : result A) (k : A → result B) : result B :=
  match r with
  | Ok a => k a
  | Throw m => Throw m
  end.

Notation "'try!' x ← r ; k" := (bind r (λ x, k))
  (at level 10, x name, r at level 100, k at level 200,
   format "'try!'  x  ←  r ;  '/' k").

(** ** Strings of the JavaScript runtime *)

Module JsString.

Definition code (c : ascii) : Z := Z.of_nat (nat_of_ascii c).

Definition quote : ascii := "034"%char.
Definition comma : ascii := ","%char.
Definition newline : ascii := "010"%char.

(** [\d] of a regular expression: the ten ASCII digits. *)
Definition is_digit (c : ascii) : bool := (48 <=? code c) && (code c <=? 57).

(** [\s] of a regular expression, and what [trim] removes: the white space
    and line terminator code units (TAB, LF, VT, FF, CR, SP, NBSP below
    U+0100). *)
Definition is_space (c : ascii) : bool :=
  ((9 <=? code c) && (code c <=? 13)) || (code c =? 32) || (code c =? 160).

(** [String.prototype.toLowerCase] on one code unit: A-Z and the Latin-1
    capitals U+00C0..U+00DE (the sign U+00D7 apart) move up by 32. *)
Definition lower_char (c : ascii) : ascii :=
  let n := code c in
  if ((65 <=? n) && (n <=? 90))
     || ((192 <=? n) && (n <=? 222) && negb (n =? 215))
  then ascii_of_nat (Z.to_nat (n + 32))
  else c.

Fixpoint toLowerCase (s : string) : string :=
  match s with
  | EmptyString => EmptyString
  | String c r => String (lower_char c) (toLowerCase r)
  end.

(** [s.replace(/[^...]/g, '')]: keep the code units that satisfy [keep]. *)
Fixpoint keep_chars (keep : ascii → bool) (s : string) : string :=
  match s with
  | EmptyString => EmptyString
  | String c r =>
      if keep c then String c (keep_chars keep r) else keep_chars keep r
  end.

(** [s.split(sep)] for a separator that matches exactly one code unit
    (a one-character string or a character class): one more part than
    there are separators, and [""] splits into [[""]]. *)
Fixpoint split (sep : ascii → bool) (s : string) : list string :=
  match s with
  | EmptyString => [EmptyString]
  | String c r =>
      if sep c then EmptyString :: split sep r
      else match split sep r with
           | p :: ps => String c p :: ps
           | [] => [String c EmptyString]
           end
  end.

Fixpoint trimStart (s : string) : string :=
  match s with
  | EmptyString => EmptyString
  | String c r => if is_space c then trimStart r else s
  end.

Fixpoint trimEnd (s : string) : string :=
  match s with
  | EmptyString => EmptyString
  | String c r =>
      match trimEnd r with
      | EmptyString => if is_space c then EmptyString else String c EmptyString
      | r' => String c r'
      end
  end.

Definition trim (s : string) : string := trimEnd (trimStart s).

(** [s.startsWith(p)], and the rest of [s] after the prefix [p]. *)
Fixpoint strip_prefix (p s : string) : option string :=
  match p, s with
  | EmptyString, _ => Some s
  | String a p', String b s' =>
      if Ascii.eqb a b then strip_prefix p' s' else None
  | String _ _, EmptyString => None
  end.

Definition startsWith (s p : string) : bool :=
  match strip_prefix p s with Some _ => true | None => false end.

(** [s.endsWith(suffix)]. *)
Fixpoint endsWith (s suffix : string) : bool :=
  String.eqb s suffix ||
  match s with
  | EmptyString => false
  | String _ r => endsWith r suffix
  end.

(** [s.includes(sub)]. *)
Fixpoint includes (s sub : string) : bool :=
  startsWith s sub ||
  match s with
  | EmptyString => false
  | String _ r => includes r sub
  end.

(** [s.replace(/^"|"$/g, '')]: one leading and one trailing double quote
    are removed, the leading one first. *)
Fixpoint drop_last_quote (s : string) : string :=
  match s with
  | EmptyString => EmptyString
  | String c EmptyString => if Ascii.eqb c quote then EmptyString else s
  | String c r => String c (drop_last_quote r)
  end.

Definition strip_outer_quotes (s : string) : string :=
  drop_last_quote
    (match s with
     | String c r => if Ascii.eqb c quote then r else s
     | EmptyString => s
     end).

(** [parts.join(sep)]. *)
Fixpoint join (sep : string) (parts : list string) : string :=
  match parts with
  | [] => EmptyString
  | [p] => p
  | p :: ps => p +:+ sep +:+ join sep ps
  end.

End JsString.

(** ** Numbers of the JavaScript runtime *)

Module JsNumber.

(** The value of a string of digits in base [radix], most significant
    digit first; [digit] gives the value of one digit. *)
Definition digits_value (radix : Z) (digit : ascii → Z) (s : string) : Z :=
  foldl (λ acc c, acc * radix + digit c) 0 (list_ascii_of_string s).

Definition decimal_digit (c : ascii) : Z := JsString.code c - 48.

Definition is_hex_digit (c : ascii) : bool :=
  let n := JsString.code c in
  JsString.is_digit c || ((65 <=? n) && (n <=? 70)) || ((97 <=? n) && (n <=? 102)).

Definition hex_digit (c : ascii) : Z :=
  let n := JsString.code c in
  if JsString.is_digit c then n - 48
  else if n <=? 70 then n - 55 else n - 87.

(** The longest prefix of [s] made of characters that satisfy [p], and
    the rest of [s]. *)
Fixpoint span (p : ascii → bool) (s : string) : string * string :=
  match s with
  | EmptyString => (EmptyString, EmptyString)
  | String c r =>
      if p c then let '(a, b) := span p r in (String c a, b)
      else (EmptyString, s)
  end.

(** An optional sign at the head of a numeral: whether it is a minus,
    and the rest. *)
Definition sign_prefix (s : string) : bool * string :=
  match s with
  | String c r =>
      if Ascii.eqb c "-" then (true, r)
      else if Ascii.eqb c "+" then (false, r)
      else (false, s)
  | EmptyString => (false, s)
  end.

(** [parseInt(s)] with no radix argument. The result is an integral
    Number or [NaN]; [NaN] is [None]. The integer is kept exact: the
    engine rounds it to a double once it passes 2^53, far beyond every
    year, month or day that a [Date] accepts. *)
Definition parseInt (s : string) : option Z :=
  let '(negative, s) := sign_prefix (JsString.trimStart s) in
  let sign := if negative then -1 else 1 in
  let '(radix, s) :=
    match JsString.strip_prefix "0x" s, JsString.strip_prefix "0X" s with
    | Some r, _ => (16, r)
    | None, Some r => (16, r)
    | None, None => (10, s)
    end in
  let '(z, _) := span (if radix =? 16 then is_hex_digit else JsString.is_digit) s in
  match z with
  | EmptyString => None
  | _ => Some (sign * digits_value radix
                         (if radix =? 16 then hex_digit else decimal_digit) z)
  end.

(** A Number as [parseFloat] and the arithmetic of the commit step see
    it: [NaN], an infinity, or a sign and a magnitude (so that [-0] is
    kept apart from [+0]). The magnitude is the exact decimal value that
    the literal denotes; the double stored by the engine is its rounding,
    and neither [Math.abs] nor unary minus looks at more than the sign. *)
Inductive number : Type :=
| NaN
| Infinity (negative : bool)
| Finite (negative : bool) (magnitude : Q).

Definition isNaN (x : number) : bool :=
  match x with NaN => true | _ => false end.

Definition abs (x : number) : number :=
  match x with
  | NaN => NaN
  | Infinity _ => Infinity false
  | Finite _ m => Finite false m
  end.

Definition neg (x : number) : number :=
  match x with
  | NaN => NaN
  | Infinity s => Infinity (negb s)
  | Finite s m => Finite (negb s) m
  end.

(** The sign bit of a number that is not [NaN]. *)
Definition is_negative (x : number) : bool :=
  match x with
  | NaN => false
  | Infinity s => s
  | Finite s _ => s
  end.

Definition pow10 (e : Z) : Q :=
  if 0 <=? e then inject_Z (10 ^ e) else / inject_Z (10 ^ (- e)).

(** The exponent part of a decimal literal: [e] or [E], an optional sign
    and at least one digit; anything else is no exponent part. *)
Definition exponent_part (s : string) : Z :=
  match s with
  | String c r =>
      if Ascii.eqb c "e" || Ascii.eqb c "E" then
        let '(negative, r) := sign_prefix r in
        let '(ds, _) := span JsString.is_digit r in
        (if negative then -1 else 1) * digits_value 10 decimal_digit ds
      else 0
  | EmptyString => 0
  end.

(** [parseFloat(s)]: the longest prefix of the trimmed string that is a
    decimal literal ([Infinity], or digits with an optional fraction and
    exponent), with an optional sign. *)
Definition parseFloat (s : string) : number :=
  let '(negative, s) := sign_prefix (JsString.trimStart s) in
  if JsString.startsWith s "Infinity" then Infinity negative
  else
    let '(int_part, s) := span JsString.is_digit s in
    let '(frac_part, s) :=
      match JsString.strip_prefix "." s with
      | Some r => span JsString.is_digit r
      | None => (EmptyString, s)
      end in
    match int_part, frac_part with
    | EmptyString, EmptyString => NaN
    | _, _ =>
        let mantissa := digits_value 10 decimal_digit (int_part +:+ frac_part) in
        let e := exponent_part s - Z.of_nat (String.length frac_part) in
        Finite negative (Qred (inject_Z mantissa * pow10 e))
    end.

(** Strict equality of two integral Numbers: [NaN] equals nothing. *)
Definition strict_eq (a b : option Z) : bool :=
  match a, b with
  | Some x, Some y => x =? y
  | _, _ => false
  end.

End JsNumber.

(** ** Dates of the JavaScript runtime *)

Module JsDate.

(** A time value is a number of milliseconds since the epoch, or [NaN]
    ([None]). *)

Definition msPerDay : Z := 86400000.
Definition maxTime : Z := 8640000000000000.

Definition Day (t : Z) : Z := t / msPerDay.
Definition TimeWithinDay (t : Z) : Z := t mod msPerDay.

Definition InLeapYear (y : Z) : bool :=
  (y mod 4 =? 0) && (negb (y mod 100 =? 0) || (y mod 400 =? 0)).

Definition DaysInYear (y : Z) : Z := if InLeapYear y then 366 else 365.

(** The day number of the first day of year [y]. *)
Definition DayFromYear (y : Z) : Z :=
  365 * (y - 1970) + (y - 1969) / 4 - (y - 1901) / 100 + (y - 1601) / 400.

(** The year that contains day [d]: the largest [y] with
    [DayFromYear y <= d]. The mean length of a year puts it within one
    year of the estimate [c]. *)
Definition YearFromDay (d : Z) : Z :=
  let c := 1970 + (400 * d) / 146097 in
  if DayFromYear (c + 1) <=? d then c + 1
  else if DayFromYear c <=? d then c
  else c - 1.

(** The day within the year on which month [m] (0..11) starts; 12 gives
    the length of the year. *)
Definition monthStart (leap : bool) (m : Z) : Z :=
  let l := if leap then 1 else 0 in
  match m with
  | 0 => 0
  | 1 => 31
  | 2 => 59 + l
  | 3 => 90 + l
  | 4 => 120 + l
  | 5 => 151 + l
  | 6 => 181 + l
  | 7 => 212 + l
  | 8 => 243 + l
  | 9 => 273 + l
  | 10 => 304 + l
  | 11 => 334 + l
  | _ => 365 + l
  end.

Definition MonthFromDay (d : Z) : Z :=
  let y := YearFromDay d in
  let leap := InLeapYear y in
  let w := d - DayFromYear y in
  if w <? monthStart leap 1 then 0
  else if w <? monthStart leap 2 then 1
  else if w <? monthStart leap 3 then 2
  else if w <? monthStart leap 4 then 3
  else if w <? monthStart leap 5 then 4
  else if w <? monthStart leap 6 then 5
  else if w <? monthStart leap 7 then 6
  else if w <? monthStart leap 8 then 7
  else if w <? monthStart leap 9 then 8
  else if w <? monthStart leap 10 then 9
  else if w <? monthStart leap 11 then 10
  else 11.

Definition DateFromDay (d : Z) : Z :=
  let y := YearFromDay d in
  d - DayFromYear y - monthStart (InLeapYear y) (MonthFromDay d) + 1.

Definition YearFromTime (t : Z) : Z := YearFromDay (Day t).
Definition MonthFromTime (t : Z) : Z := MonthFromDay (Day t).
Definition DateFromTime (t : Z) : Z := DateFromDay (Day t).
Definition HourFromTime (t : Z) : Z := (TimeWithinDay t / 3600000) mod 24.
Definition MinFromTime (t : Z) : Z := (TimeWithinDay t / 60000) mod 60.
Definition SecFromTime (t : Z) : Z := (TimeWithinDay t / 1000) mod 60.
Definition msFromTime (t : Z) : Z := TimeWithinDay t mod 1000.

Definition MakeTime (hour min sec ms : Z) : Z :=
  hour * 3600000 + min * 60000 + sec * 1000 + ms.

(** [MakeDay(year, month, date)] on finite arguments: months beyond
    0..11 carry into the year, and the day of the month is added as it
    is, so that day 30 of February rolls over into March. *)
Definition MakeDay (year month date : Z) : Z :=
  let ym := year + month / 12 in
  let mn := month mod 12 in
  DayFromYear ym + monthStart (InLeapYear ym) mn + date - 1.

Definition MakeDate (day time : Z) : Z := day * msPerDay + time.

Definition TimeClip (t : option Z) : option Z :=
  match t with
  | Some t => if Z.abs t <=? maxTime then Some t else None
  | None => None
  end.

(** The host's local time zone is given by its rules, the
    implementation-defined [LocalTZA(t, isUTC)]: the offset of local time
    from UTC, in milliseconds, that is in force at the instant [t] when
    [isUTC] is true, and the offset with which the local time [t] is to be
    read when [isUTC] is false. The rules of a zone change the offset over
    time (daylight saving, a new standard offset); a local time that a
    change skips or repeats is read with the offset before the change. *)
Definition TimeZone : Type := Z → bool → Z.

Definition LocalTime (tza : TimeZone) (t : Z) : Z := t + tza t true.
Definition UTC (tza : TimeZone) (t : Z) : Z := t - tza t false.

(** A zone that keeps one offset for ever. *)
Definition fixed_zone (offset : Z) : TimeZone := λ _ _, offset.

(** A zone whose offset is [before] up to the instant [change] and
    [after] from then on. Local times run up to [change + before] under
    the old offset and from [change + after] under the new one; those in
    between are skipped or repeated. *)
Definition one_transition (before after change : Z) : TimeZone :=
  λ t isUTC,
    if isUTC then (if t <? change then before else after)
    else (if t <? change + Z.max before after then before else after).

(** [new Date(year, month, date)]: local midnight of that day. A year
    from 0 to 99 stands for 1900 + year. *)
Definition construct (tza : TimeZone) (year month date : option Z) : option Z :=
  match year, month, date with
  | Some y, Some m, Some dt =>
      let yr := if (0 <=? y) && (y <=? 99) then 1900 + y else y in
      TimeClip (Some (UTC tza (MakeDate (MakeDay yr m dt) (MakeTime 0 0 0 0))))
  | _, _, _ => None
  end.

Definition getFullYear (tza : TimeZone) (date : option Z) : option Z :=
  (λ t, YearFromTime (LocalTime tza t)) <$> date.
Definition getMonth (tza : TimeZone) (date : option Z) : option Z :=
  (λ t, MonthFromTime (LocalTime tza t)) <$> date.
Definition getDate (tza : TimeZone) (date : option Z) : option Z :=
  (λ t, DateFromTime (LocalTime tza t)) <$> date.

(** *** The date-time string format, [YYYY-MM-DDTHH:mm:ss.sssZ] *)

(** Exactly [n] decimal digits at the head of [s]: their value and the
    rest of [s]. *)
Fixpoint fixed_digits (n : nat) (acc : Z) (s : string) : option (Z * string) :=
  match n with
  | O => Some (acc, s)
  | S n' =>
      match s with
      | String c r =>
          if JsString.is_digit c
          then fixed_digits n' (acc * 10 + JsNumber.decimal_digit c) r
          else None
      | EmptyString => None
      end
  end.

Record IsoFields := {
  iso_year : Z; iso_month : Z; iso_day : Z;
  iso_hour : Z; iso_min : Z; iso_sec : Z; iso_ms : Z;
  iso_offset : option (Z * Z * Z)  (* sign, hours, minutes; [None]: no offset *);
  iso_has_time : bool;
  iso_minus_zero_year : bool
}.

(** The time zone designator that ends a date-time: nothing, [Z], or
    [+HH:mm] / [-HH:mm]. The outer [None] is a string outside the format. *)
Definition iso_zone (s : string) : option (option (Z * Z * Z)) :=
  match s with
  | EmptyString => Some None
  | String "Z" EmptyString => Some (Some (1, 0, 0))
  | String c r =>
      if Ascii.eqb c "+" || Ascii.eqb c "-" then
        match fixed_digits 2 0 r with
        | Some (h, String ":" r1) =>
            match fixed_digits 2 0 r1 with
            | Some (m, EmptyString) =>
                Some (Some (if Ascii.eqb c "-" then -1 else 1, h, m))
            | _ => None
            end
        | _ => None
        end
      else None
  end.

(** The time of day after the [T]: [HH:mm], [HH:mm:ss] or [HH:mm:ss.sss],
    and what follows it. *)
Definition iso_time (s : string) : option (Z * Z * Z * Z * string) :=
  match fixed_digits 2 0 s with
  | Some (h, String ":" r1) =>
      match fixed_digits 2 0 r1 with
      | Some (m, String ":" r2) =>
          match fixed_digits 2 0 r2 with
          | Some (sec, String "." r3) =>
              match fixed_digits 3 0 r3 with
              | Some (ms, r4) => Some (h, m, sec, ms, r4)
              | None => None
              end
          | Some (sec, r3) => Some (h, m, sec, 0, r3)
          | None => None
          end
      | Some (m, r2) => Some (h, m, 0, 0, r2)
      | None => None
      end
  | _ => None
  end.

(** The date at the head of the string: [YYYY], [YYYY-MM] or
    [YYYY-MM-DD], the year either four digits or a sign and six digits. *)
Definition iso_date (s : string) : option (bool * Z * Z * Z * string) :=
  let year :=
    match s with
    | String "+" r => (λ '(y, r'), (false, y, r')) <$> fixed_digits 6 0 r
    | String "-" r => (λ '(y, r'), (y =? 0, - y, r')) <$> fixed_digits 6 0 r
    | _ => (λ '(y, r'), (false, y, r')) <$> fixed_digits 4 0 s
    end in
  match year with
  | Some (mz, y, String "-" r) =>
      match fixed_digits 2 0 r with
      | Some (mo, String "-" r1) =>
          match fixed_digits 2 0 r1 with
          | Some (d, r2) => Some (mz, y, mo, d, r2)
          | None => None
          end
      | Some (mo, r1) => Some (mz, y, mo, 1, r1)
      | None => None
      end
  | Some (mz, y, r) => Some (mz, y, 1, 1, r)
  | None => None
  end.

(** Reading a string in the format; [None] when the string is not in the
    format at all. *)
Definition iso_fields (s : string) : option IsoFields :=
  match iso_date s with
  | Some (mz, y, mo, d, EmptyString) =>
      Some {| iso_year := y; iso_month := mo; iso_day := d;
              iso_hour := 0; iso_min := 0; iso_sec := 0; iso_ms := 0;
              iso_offset := None; iso_has_time := false;
              iso_minus_zero_year := mz |}
  | Some (mz, y, mo, d, String "T" r) =>
      match iso_time r with
      | Some (h, m, sec, ms, r1) =>
          match iso_zone r1 with
          | Some z =>
              Some {| iso_year := y; iso_month := mo; iso_day := d;
                      iso_hour := h; iso_min := m; iso_sec := sec; iso_ms := ms;
                      iso_offset := z;
                      iso_has_time := true;
                      iso_minus_zero_year := mz |}
          | None => None
          end
      | None => None
      end
  | _ => None
  end.

(** Every field within the bounds the format gives it; hour 24 only as
    [24:00:00.000]. *)
Definition iso_legal (f : IsoFields) : bool :=
  negb (iso_minus_zero_year f)
  && (1 <=? iso_month f) && (iso_month f <=? 12)
  && (1 <=? iso_day f) && (iso_day f <=? 31)
  && (iso_hour f <=? 24) && (iso_min f <=? 59) && (iso_sec f <=? 59)
  && ((iso_hour f <? 24)
      || ((iso_min f =? 0) && (iso_sec f =? 0) && (iso_ms f =? 0)))
  && match iso_offset f with
     | Some (_, zh, zm) => (zh <=? 23) && (zm <=? 59)
     | None => true
     end.

(** The time value of a legal reading. Without an offset a date alone is
    UTC and a date with a time is local time. *)
Definition iso_time_value (tza : TimeZone) (f : IsoFields) : option Z :=
  let date :=
    MakeDate (MakeDay (iso_year f) (iso_month f - 1) (iso_day f))
             (MakeTime (iso_hour f) (iso_min f) (iso_sec f) (iso_ms f)) in
  TimeClip
    (Some (match iso_offset f with
           | Some (sign, zh, zm) => date - sign * (zh * 60 + zm) * 60000
           | None => if iso_has_time f then UTC tza date else date
           end)).

(** [Date.parse(s)]: the format above decides the strings that are in it
    (an illegal element value gives [NaN]); every other string is left
    to the host's own [fallback]. *)
Definition parse (tza : TimeZone) (fallback : string → option Z) (s : string) : option Z :=
  match iso_fields s with
  | Some f => if iso_legal f then iso_time_value tza f else None
  | None => TimeClip (fallback s)
  end.

(** A decimal numeral padded with zeros on the left to [width] digits. *)
Definition pad (width : nat) (n : Z) : string :=
  let digits := pretty (Z.to_N n) in
  string_of_list_ascii (replicate (width - String.length digits) "0"%char) +:+ digits.

Definition year_string (y : Z) : string :=
  if (0 <=? y) && (y <=? 9999) then pad 4 y
  else (if y <? 0 then "-" else "+") +:+ pad 6 (Z.abs y).

(** The UTC fields of a time value, as [YYYY-MM-DDTHH:mm:ss.sssZ]. *)
Definition iso_string (t : Z) : string :=
  year_string (YearFromTime t) +:+ "-" +:+ pad 2 (MonthFromTime t + 1)
  +:+ "-" +:+ pad 2 (DateFromTime t)
  +:+ "T" +:+ pad 2 (HourFromTime t) +:+ ":" +:+ pad 2 (MinFromTime t)
  +:+ ":" +:+ pad 2 (SecFromTime t) +:+ "." +:+ pad 3 (msFromTime t)
  +:+ "Z".

(** [date.toISOString()]: a [RangeError] on an invalid date. *)
Definition toISOString (date : option Z) : result string :=
  match date with
  | None => Throw "Invalid time value"
  | Some t => Ok (iso_string t)
  end.

End JsDate.

(** ** Tokenizer: [parseCsvLine] and [parseRawCSV] *)

(** The [for] loop of [parseCsvLine]: [result], [current] and [inQuotes] are
    the loop's variables, [line] is what is left to scan. After the loop the
    last field is pushed. *)
Fixpoint parseCsvLine_loop (line : string) (result : list string)
    (current : string) (inQuotes : bool) : list string :=
  match line with
  | EmptyString => result ++ [JsString.trim current]
  | String char rest =>
      if Ascii.eqb char JsString.quote then
        parseCsvLine_loop rest result current (negb inQuotes)
      else if Ascii.eqb char JsString.comma && negb inQuotes then
        parseCsvLine_loop rest (result ++ [JsString.trim current]) EmptyString inQuotes
      else
        parseCsvLine_loop rest result (current +:+ String char EmptyString) inQuotes
  end.

Definition parseCsvLine (line : string) : list string :=
  (λ val, JsString.trim (JsString.strip_outer_quotes val))
    <$> parseCsvLine_loop line [] EmptyString false.

Definition is_blank (line : string) : bool :=
  String.eqb (JsString.trim line) EmptyString.

(** [text.split('\n').filter(line => line.trim() !== '')] *)
Definition nonblank_lines (text : string) : list string :=
  List.filter (λ line, negb (is_blank line))
    (JsString.split (Ascii.eqb JsString.newline) text).

Definition same_width (headers row : list string) : bool :=
  Nat.eqb (length row) (length headers).

Definition parseRawCSV (text : string) : result (list string * list (list string)) :=
  match nonblank_lines text with
  | headerLine :: ((_ :: _) as dataLines) =>
      let headers := parseCsvLine headerLine in
      Ok (headers, List.filter (same_width headers) (parseCsvLine <$> dataLines))
  | _ => Throw "CSV file must contain at least a header row and one data row"
  end.

(** ** Header matcher: [findBestMatchingHeader] *)

(** [h.toLowerCase().replace(/[_\s]/g, '')] *)
Definition normalize (h : string) : string :=
  JsString.keep_chars
    (λ c, negb (Ascii.eqb c "_"%char || JsString.is_space c))
    (JsString.toLowerCase h).

(** Truthiness of a value that is a string or [undefined]: only the empty
    string and [undefined] are falsy. *)
Definition truthy (v : option string) : bool :=
  match v with
  | Some s => negb (String.eqb s EmptyString)
  | None => false
  end.

Definition is_exact (normalizedTarget h : string) : bool :=
  String.eqb (normalize h) normalizedTarget.

Definition is_partial (normalizedTarget h : string) : bool :=
  JsString.includes (normalize h) normalizedTarget
  || JsString.includes normalizedTarget (normalize h).

Definition findBestMatchingHeader (headers : list string) (targetHeader : string)
    : string :=
  let normalizedTarget := normalize targetHeader in
  (* First try exact match *)
  let exactMatch := List.find (is_exact normalizedTarget) headers in
  if truthy exactMatch then default EmptyString exactMatch
  else
    (* Then try partial match *)
    let partialMatch := List.find (is_partial normalizedTarget) headers in
    if truthy partialMatch then default EmptyString partialMatch
    else EmptyString.

(** ** Bank templates *)

Record TemplateHeaders := {
  th_date : string;
  th_description : string;
  th_amount : string;
  th_category : option string;
  th_type : option string
}.

Record BankTemplate := {
  bt_id : string;
  bt_name : string;
  bt_headers : TemplateHeaders;
  bt_dateFormat : string
}.

Definition genericTemplate : BankTemplate :=
  {| bt_id := "generic"; bt_name := "Generic Format";
     bt_headers := {| th_date := "date"; th_description := "description";
                      th_amount := "amount"; th_category := Some "category";
                      th_type := Some "type" |};
     bt_dateFormat := "YYYY-MM-DD" |}.

Definition chaseTemplate : BankTemplate :=
  {| bt_id := "chase"; bt_name := "Chase Bank";
     bt_headers := {| th_date := "transaction_date"; th_description := "description";
                      th_amount := "amount"; th_category := None;
                      th_type := Some "transaction_type" |};
     bt_dateFormat := "MM/DD/YYYY" |}.

Definition bankofamericaTemplate : BankTemplate :=
  {| bt_id := "bankofamerica"; bt_name := "Bank of America";
     bt_headers := {| th_date := "date"; th_description := "description";
                      th_amount := "amount"; th_category := None; th_type := None |};
     bt_dateFormat := "MM/DD/YYYY" |}.

Definition wellsFargoTemplate : BankTemplate :=
  {| bt_id := "wells_fargo"; bt_name := "Wells Fargo";
     bt_headers := {| th_date := "date"; th_description := "description";
                      th_amount := "amount"; th_category := None; th_type := None |};
     bt_dateFormat := "MM/DD/YYYY" |}.

Definition hsbcTemplate : BankTemplate :=
  {| bt_id := "hsbc"; bt_name := "HSBC";
     bt_headers := {| th_date := "date"; th_description := "description";
                      th_amount := "amount"; th_category := None; th_type := None |};
     bt_dateFormat := "DD/MM/YYYY" |}.

(** Predefined bank templates *)
Definition bankTemplates : list BankTemplate :=
  [genericTemplate; chaseTemplate; bankofamericaTemplate; wellsFargoTemplate;
   hsbcTemplate].

(** [bankTemplates.find(t => t.id === selectedTemplate)] *)
Definition findTemplate (selectedTemplate : string) : option BankTemplate :=
  List.find (λ t, String.eqb (bt_id t) selectedTemplate) bankTemplates.

(** ** Row mapper: [mapCsvToTransactions] *)

(** The values of the column mapping form, [z.infer<typeof columnMappingSchema>]. *)
Record ColumnMapping := {
  dateColumn : string;
  amountColumn : string;
  descriptionColumn : string;
  categoryColumn : option string;
  typeColumn : option string;
  dateFormat : string;
  defaultCategory : option string;
  defaultType : option string
}.

(** A [CsvTransaction] is a plain object with string values: the five named
    fields and any further key. A key that is absent reads as [undefined]. *)
Abbreviation CsvTransaction := (gmap string string).

(** [headers.indexOf(x)]: the first position of [x], or -1. *)
Fixpoint indexOf (headers : list string) (x : string) : Z :=
  match headers with
  | [] => -1
  | h :: rest =>
      if String.eqb h x then 0
      else let i := indexOf rest x in if i <? 0 then -1 else i + 1
  end.

(** [row[idx]] for an index that came out of [indexOf]. *)
Definition cell (row : list string) (idx : Z) : option string :=
  if idx <? 0 then None else row !! Z.to_nat idx.

(** [v || fallback] *)
Definition or_else (v : option string) (fallback : string) : option string :=
  if truthy v then v else Some fallback.

(** [transaction[key] = value]. Writing a string or [undefined] under the
    key [__proto__] goes to the setter inherited from [Object.prototype],
    which ignores it; any other key becomes (or overwrites) an own
    property. A property holding [undefined] reads like an absent one. *)
Definition set_property (key : string) (value : option string)
    (transaction : CsvTransaction) : CsvTransaction :=
  if String.eqb key "__proto__" then transaction
  else match value with
       | Some v => <[key := v]> transaction
       | None => delete key transaction
       end.

(** The object literal of [mapCsvToTransactions]: own properties are
    defined in the order written. *)
Definition object_literal (fields : list (string * option string)) : CsvTransaction :=
  foldl (λ t kv, match kv.2 with
                 | Some v => <[kv.1 := v]> t
                 | None => delete kv.1 t
                 end) ∅ fields.

Record ColumnIndices := {
  dateIdx : Z;
  amountIdx : Z;
  descriptionIdx : Z;
  categoryIdx : Z;
  typeIdx : Z
}.

Definition resolve_indices (headers : list string) (mapping : ColumnMapping)
    : ColumnIndices :=
  {| dateIdx := indexOf headers (dateColumn mapping);
     amountIdx := indexOf headers (amountColumn mapping);
     descriptionIdx := indexOf headers (descriptionColumn mapping);
     categoryIdx := if truthy (categoryColumn mapping)
                    then indexOf headers (default EmptyString (categoryColumn mapping))
                    else -1;
     typeIdx := if truthy (typeColumn mapping)
                then indexOf headers (default EmptyString (typeColumn mapping))
                else -1 |}.

Definition consumed (ix : ColumnIndices) (idx : Z) : bool :=
  (idx =? dateIdx ix) || (idx =? amountIdx ix) || (idx =? descriptionIdx ix)
  || (idx =? categoryIdx ix) || (idx =? typeIdx ix).

(** [headers.forEach((header, idx) => ...)] of the row mapper; [idx] is the
    position of the first header of [headers] in the whole header row. *)
Fixpoint add_extra_columns (ix : ColumnIndices) (row : list string)
    (headers : list string) (idx : Z) (transaction : CsvTransaction)
    : CsvTransaction :=
  match headers with
  | [] => transaction
  | header :: rest =>
      add_extra_columns ix row rest (idx + 1)
        (if consumed ix idx then transaction
         else set_property header (cell row idx) transaction)
  end.

Definition map_row (headers : list string) (mapping : ColumnMapping)
    (row : list string) : CsvTransaction :=
  let ix := resolve_indices headers mapping in
  let transaction := object_literal [
    ("date", if 0 <=? dateIdx ix then cell row (dateIdx ix) else Some EmptyString);
    ("amount", if 0 <=? amountIdx ix then cell row (amountIdx ix) else Some EmptyString);
    ("description",
      if 0 <=? descriptionIdx ix then cell row (descriptionIdx ix) else Some EmptyString);
    ("category",
      if 0 <=? categoryIdx ix then cell row (categoryIdx ix)
      else or_else (defaultCategory mapping) "Uncategorized");
    ("type",
      if 0 <=? typeIdx ix then cell row (typeIdx ix)
      else or_else (defaultType mapping) "expense")
  ] in
  (* Add all columns as additional data *)
  add_extra_columns ix row headers 0 transaction.

Definition mapCsvToTransactions (headers : list string) (data : list (list string))
    (mapping : ColumnMapping) : list CsvTransaction :=
  map_row headers mapping <$> data.

(** ** The host of the component *)

(** The database transaction structure. *)
Record DbTransaction := {
  id : string;
  transaction_date : string;
  description : option string;
  amount : JsNumber.number;
  category : option string;
  type : option string;
  user_id : string;
  created_at : string
}.

(** What the component takes from its surroundings: the engine's time zone
    and its reading of date strings outside the standard format; the
    signed-in user, if any; the [k]-th identifier from [uuidv4()] and the
    [k]-th reading of the clock by [new Date()]; and the answer of the
    [transactions] table to an insert ([Some] error, or [None]). *)
Record Host := {
  LocalTZA : JsDate.TimeZone;
  dateFallback : string → option Z;
  authUser : option string;
  uuidv4 : nat → string;
  clock : nat → Z;
  insertTransactions : list DbTransaction → option string
}.

(** ** Date parser: [parseDate] *)


Definition is_date_separator (c : ascii) : bool :=
  Ascii.eqb c "-" || Ascii.eqb c "/" || Ascii.eqb c ".".

(** What [/[^\d/.-]/g] leaves in place. *)
Definition is_date_char (c : ascii) : bool :=
  JsString.is_digit c || is_date_separator c.

(** What [/[^\d.-]/g] leaves in place. *)
Definition is_amount_char (c : ascii) : bool :=
  JsString.is_digit c || Ascii.eqb c "." || Ascii.eqb c "-".

Definition minus_one (n : option Z) : option Z := (λ x, x - 1) <$> n.

(** The [switch] of [parseDate]: [year], [month] (0-indexed) and [day]
    picked from the three parts, or [None] for the [default] branch. *)
Definition date_fields (format : string) (p0 p1 p2 : string)
    : option (option Z * option Z * option Z) :=
  if String.eqb format "YYYY-MM-DD" then
    Some (JsNumber.parseInt p0, minus_one (JsNumber.parseInt p1), JsNumber.parseInt p2)
  else if String.eqb format "MM/DD/YYYY" then
    Some (JsNumber.parseInt p2, minus_one (JsNumber.parseInt p0), JsNumber.parseInt p1)
  else if String.eqb format "DD/MM/YYYY" then
    Some (JsNumber.parseInt p2, minus_one (JsNumber.parseInt p1), JsNumber.parseInt p0)
  else None.

(** [parseDate(dateStr, format)]: [Some t] is a [Date] of time value [t],
    [None] is [null]. *)
Definition parseDate (tza : JsDate.TimeZone) (dateStr format : string) : option Z :=
  (* Remove any non-numeric characters except for separators *)
  let cleanDateStr := JsString.keep_chars is_date_char dateStr in
  let parts := JsString.split is_date_separator cleanDateStr in
  match parts with
  | [p0; p1; p2] =>
      match date_fields format p0 p1 p2 with
      | Some (year, month, day) =>
          let date := JsDate.construct tza year month day in
          if JsNumber.strict_eq (JsDate.getFullYear tza date) year
             && JsNumber.strict_eq (JsDate.getMonth tza date) month
             && JsNumber.strict_eq (JsDate.getDate tza date) day
          then date else None
      | None => None
      end
  | _ => None
  end.

(** ** Validator: [validateTransactions] *)

Definition type_error (method : string) : string :=
  "Cannot read properties of undefined (reading '" +:+ method +:+ "')".

(** A method call on a property: a [TypeError] when the property is
    [undefined]. *)
Definition receiver (v : option string) (method : string) : result string :=
  match v with
  | Some s => Ok s
  | None => Throw (type_error method)
  end.

Definition quoted (s : string) : string :=
  String JsString.quote (s +:+ String JsString.quote EmptyString).

Definition row_label (index : nat) : string :=
  "Row " +:+ pretty (index + 1)%nat +:+ ": ".

Definition parse_amount (amount : string) : JsNumber.number :=
  JsNumber.parseFloat (JsString.keep_chars is_amount_char amount).

(** The body of the [forEach] of [validateTransactions]; [errors] is the
    array the issues are pushed on. *)
Definition validate_row (tza : JsDate.TimeZone) (dateFormat : string) (errors : list string)
    (index : nat) (transaction : CsvTransaction) : result (list string) :=
  (* Validate date format *)
  try! dateStr ← receiver (transaction !! "date") "replace";
  let errors :=
    match parseDate tza dateStr dateFormat with
    | Some _ => errors
    | None => errors ++ [row_label index +:+ "Invalid date format " +:+ quoted dateStr]
    end in
  (* Validate amount is a number *)
  try! amountStr ← receiver (transaction !! "amount") "replace";
  let errors :=
    if JsNumber.isNaN (parse_amount amountStr)
    then errors ++ [row_label index +:+ "Invalid amount " +:+ quoted amountStr]
    else errors in
  (* Check for missing description *)
  try! description ← receiver (transaction !! "description") "trim";
  Ok (if String.eqb (JsString.trim description) EmptyString
      then errors ++ [row_label index +:+ "Missing description"]
      else errors).

Fixpoint validate_loop (tza : JsDate.TimeZone) (dateFormat : string)
    (transactions : list CsvTransaction) (index : nat) (errors : list string)
    : result (list string) :=
  match transactions with
  | [] => Ok errors
  | transaction :: rest =>
      try! errors ← validate_row tza dateFormat errors index transaction;
      validate_loop tza dateFormat rest (S index) errors
  end.

Definition validateTransactions (tza : JsDate.TimeZone) (transactions : list CsvTransaction)
    (dateFormat : string) : result (list string) :=
  validate_loop tza dateFormat transactions 0%nat [].

(** ** Import session *)

Inductive UploadMode := standard | advanced.

Inductive UploadStatus :=
| idle | uploading | parsing | mapping | preview | inserting | success | error.

Record File := {
  file_name : string;
  file_type : string;
  file_text : string
}.

(** The state of the [Upload] component. *)
Record Session := {
  uploadMode : UploadMode;
  file : option File;
  uploadStatus : UploadStatus;
  progress : Z;
  errorMessage : string;
  csvHeaders : list string;
  csvData : list (list string);
  parsedData : list CsvTransaction;
  selectedTemplate : string;
  validationErrors : list string;
  selectedTransactions : gmap nat bool
}.

Definition initial : Session :=
  {| uploadMode := standard; file := None; uploadStatus := idle; progress := 0;
     errorMessage := EmptyString; csvHeaders := []; csvData := []; parsedData := [];
     selectedTemplate := "generic"; validationErrors := [];
     selectedTransactions := ∅ |}.

Definition setUploadMode (v : UploadMode) (s : Session) : Session :=
  {| uploadMode := v; file := file s; uploadStatus := uploadStatus s;
     progress := progress s; errorMessage := errorMessage s;
     csvHeaders := csvHeaders s; csvData := csvData s; parsedData := parsedData s;
     selectedTemplate := selectedTemplate s; validationErrors := validationErrors s;
     selectedTransactions := selectedTransactions s |}.

Definition setFile (v : option File) (s : Session) : Session :=
  {| uploadMode := uploadMode s; file := v; uploadStatus := uploadStatus s;
     progress := progress s; errorMessage := errorMessage s;
     csvHeaders := csvHeaders s; csvData := csvData s; parsedData := parsedData s;
     selectedTemplate := selectedTemplate s; validationErrors := validationErrors s;
     selectedTransactions := selectedTransactions s |}.

Definition setUploadStatus (v : UploadStatus) (s : Session) : Session :=
  {| uploadMode := uploadMode s; file := file s; uploadStatus := v;
     progress := progress s; errorMessage := errorMessage s;
     csvHeaders := csvHeaders s; csvData := csvData s; parsedData := parsedData s;
     selectedTemplate := selectedTemplate s; validationErrors := validationErrors s;
     selectedTransactions := selectedTransactions s |}.

Definition setProgress (v : Z) (s : Session) : Session :=
  {| uploadMode := uploadMode s; file := file s; uploadStatus := uploadStatus s;
     progress := v; errorMessage := errorMessage s;
     csvHeaders := csvHeaders s; csvData := csvData s; parsedData := parsedData s;
     selectedTemplate := selectedTemplate s; validationErrors := validationErrors s;
     selectedTransactions := selectedTransactions s |}.

Definition setErrorMessage (v : string) (s : Session) : Session :=
  {| uploadMode := uploadMode s; file := file s; uploadStatus := uploadStatus s;
     progress := progress s; errorMessage := v;
     csvHeaders := csvHeaders s; csvData := csvData s; parsedData := parsedData s;
     selectedTemplate := selectedTemplate s; validationErrors := validationErrors s;
     selectedTransactions := selectedTransactions s |}.

Definition setCsvHeaders (v : list string) (s : Session) : Session :=
  {| uploadMode := uploadMode s; file := file s; uploadStatus := uploadStatus s;
     progress := progress s; errorMessage := errorMessage s;
     csvHeaders := v; csvData := csvData s; parsedData := parsedData s;
     selectedTemplate := selectedTemplate s; validationErrors := validationErrors s;
     selectedTransactions := selectedTransactions s |}.

Definition setCsvData (v : list (list string)) (s : Session) : Session :=
  {| uploadMode := uploadMode s; file := file s; uploadStatus := uploadStatus s;
     progress := progress s; errorMessage := errorMessage s;
     csvHeaders := csvHeaders s; csvData := v; parsedData := parsedData s;
     selectedTemplate := selectedTemplate s; validationErrors := validationErrors s;
     selectedTransactions := selectedTransactions s |}.

Definition setParsedData (v : list CsvTransaction) (s : Session) : Session :=
  {| uploadMode := uploadMode s; file := file s; uploadStatus := uploadStatus s;
     progress := progress s; errorMessage := errorMessage s;
     csvHeaders := csvHeaders s; csvData := csvData s; parsedData := v;
     selectedTemplate := selectedTemplate s; validationErrors := validationErrors s;
     selectedTransactions := selectedTransactions s |}.

Definition setSelectedTemplate (v : string) (s : Session) : Session :=
  {| uploadMode := uploadMode s; file := file s; uploadStatus := uploadStatus s;
     progress := progress s; errorMessage := errorMessage s;
     csvHeaders := csvHeaders s; csvData := csvData s; parsedData := parsedData s;
     selectedTemplate := v; validationErrors := validationErrors s;
     selectedTransactions := selectedTransactions s |}.

Definition setValidationErrors (v : list string) (s : Session) : Session :=
  {| uploadMode := uploadMode s; file := file s; uploadStatus := uploadStatus s;
     progress := progress s; errorMessage := errorMessage s;
     csvHeaders := csvHeaders s; csvData := csvData s; parsedData := parsedData s;
     selectedTemplate := selectedTemplate s; validationErrors := v;
     selectedTransactions := selectedTransactions s |}.

Definition setSelectedTransactions (v : gmap nat bool) (s : Session) : Session :=
  {| uploadMode := uploadMode s; file := file s; uploadStatus := uploadStatus s;
     progress := progress s; errorMessage := errorMessage s;
     csvHeaders := csvHeaders s; csvData := csvData s; parsedData := parsedData s;
     selectedTemplate := selectedTemplate s; validationErrors := validationErrors s;
     selectedTransactions := v |}.

(** [handleFile]: a file that is not CSV is refused (a toast, no change of
    state); a CSV file is staged and the session is reset. *)
Definition handleFile (f : File) (s : Session) : Session :=
  if negb (String.eqb (file_type f) "text/csv")
     && negb (JsString.endsWith (file_name f) ".csv")
  then s
  else setSelectedTransactions ∅
         (setCsvData []
           (setCsvHeaders []
             (setParsedData []
               (setErrorMessage EmptyString
                 (setUploadStatus idle
                   (setFile (Some f) s)))))).

(** The mapping that standard mode builds from a template. *)
Definition templateMapping (headers : list string) (template : BankTemplate)
    : ColumnMapping :=
  {| dateColumn := findBestMatchingHeader headers (th_date (bt_headers template));
     amountColumn := findBestMatchingHeader headers (th_amount (bt_headers template));
     descriptionColumn :=
       findBestMatchingHeader headers (th_description (bt_headers template));
     categoryColumn :=
       if truthy (th_category (bt_headers template))
       then Some (findBestMatchingHeader headers
                    (default EmptyString (th_category (bt_headers template))))
       else None;
     typeColumn :=
       if truthy (th_type (bt_headers template))
       then Some (findBestMatchingHeader headers
                    (default EmptyString (th_type (bt_headers template))))
       else None;
     dateFormat := bt_dateFormat template;
     defaultCategory := Some "Uncategorized";
     defaultType := Some "expense" |}.

(** The validation gate shared by [processFile] and [onSubmitMapping]:
    the statements from [validateTransactions] to the end of the [if]. *)
Definition validation_gate (tza : JsDate.TimeZone) (transactions : list CsvTransaction)
    (dateFormat : string) (s : Session) : result Session :=
  try! errors ← validateTransactions tza transactions dateFormat;
  let s := setValidationErrors errors s in
  Ok (if Nat.eqb (length errors) 0
      then setUploadStatus preview (setParsedData transactions s)
      else setUploadStatus error s).

(** The [try] block of [processFile], after the file content was read. *)
Definition processFile_try (tza : JsDate.TimeZone) (text : string) (s : Session)
    : Session * result unit :=
  let s := setProgress 30 s in
  (* Parse CSV *)
  match parseRawCSV text with
  | Throw m => (s, Throw m)
  | Ok (headers, data) =>
      let s := setProgress 50 (setCsvData data (setCsvHeaders headers s)) in
      match uploadMode s with
      | standard =>
          (* Use template mapping *)
          match findTemplate (selectedTemplate s) with
          | None => (s, Throw "Selected template not found")
          | Some template =>
              let transactions :=
                mapCsvToTransactions headers data (templateMapping headers template) in
              match validation_gate tza transactions (bt_dateFormat template) s with
              | Throw m => (s, Throw m)
              | Ok s => (setProgress 100 s, Ok ())
              end
          end
      | advanced => (setProgress 100 (setUploadStatus mapping s), Ok ())
      end
  end.

Definition processFile (h : Host) (s : Session) : Session :=
  match file s with
  | None => s
  | Some f =>
      let s := setProgress 10 (setUploadStatus parsing s) in
      match processFile_try (LocalTZA h) (file_text f) s with
      | (s, Ok _) => s
      | (s, Throw m) => setProgress 0 (setUploadStatus error (setErrorMessage m s))
      end
  end.

(** [onSubmitMapping(values)] *)
Definition onSubmitMapping (h : Host) (values : ColumnMapping) (s : Session) : Session :=
  let transactions := mapCsvToTransactions (csvHeaders s) (csvData s) values in
  match validation_gate (LocalTZA h) transactions (dateFormat values) s with
  | Ok s => s
  | Throw m => setUploadStatus error (setErrorMessage m s)
  end.

(** ** Commit: [importTransactions] *)

(** The callback of [parsedData.map]: [null] ([None]) for a row that is not
    selected, otherwise the database record. [k] counts the records built
    so far, that is the calls of [uuidv4()] and [new Date()]. *)
Definition to_db (h : Host) (userId : string) (selected : gmap nat bool)
    (k : nat) (t : CsvTransaction) (idx : nat) : result (option DbTransaction) :=
  if negb (default false (selected !! idx)) && (0 <? size selected)%nat then Ok None
  else
    try! amountStr ← receiver (t !! "amount") "replace";
    let amount := parse_amount amountStr in
    try! date ← JsDate.toISOString
                  (match t !! "date" with
                   | Some raw => JsDate.parse (LocalTZA h) (dateFallback h) raw
                   | None => None
                   end);
    Ok (Some {| id := uuidv4 h k;
                transaction_date := date;
                description := t !! "description";
                amount := if bool_decide (t !! "type" = Some "expense")
                          then JsNumber.neg (JsNumber.abs amount)
                          else JsNumber.abs amount;
                category := t !! "category";
                type := t !! "type";
                user_id := userId;
                created_at := JsDate.iso_string (clock h k) |}).

(** [parsedData.map(callback)], the rows from position [idx] on. *)
Fixpoint map_to_db (h : Host) (userId : string) (selected : gmap nat bool)
    (k : nat) (rows : list CsvTransaction) (idx : nat)
    : result (list (option DbTransaction)) :=
  match rows with
  | [] => Ok []
  | t :: rest =>
      try! r ← to_db h userId selected k t idx;
      try! rs ← map_to_db h userId selected
                  (match r with Some _ => S k | None => k end) rest (S idx);
      Ok (r :: rs)
  end.

(** [parsedData.map(...).filter(Boolean)] *)
Definition build_batch (h : Host) (userId : string) (selected : gmap nat bool)
    (rows : list CsvTransaction) : result (list DbTransaction) :=
  try! mapped ← map_to_db h userId selected 0%nat rows 0%nat;
  Ok (omap (λ r, r) mapped).

(** [importTransactions]: the session it leaves, and the batch it handed
    to the [insert] call of the [transactions] table, if it got that far. *)
Definition importTransactions (h : Host) (s : Session)
    : Session * option (list DbTransaction) :=
  match parsedData s with
  | [] => (s, None)
  | _ :: _ =>
      let s := setProgress 0 (setUploadStatus inserting s) in
      let failed m := setUploadStatus error (setErrorMessage m s) in
      match authUser h with
      | None => (failed "User not authenticated", None)
      | Some userId =>
          match build_batch h userId (selectedTransactions s) (parsedData s) with
          | Throw m => (failed m, None)
          | Ok transactions =>
              match insertTransactions h transactions with
              | Some m => (failed m, Some transactions)
              | None => (setUploadStatus success s, Some transactions)
              end
          end
      end
  end.

(** ** The handlers the page binds to its controls *)

Inductive Event :=
| SelectMode (mode : UploadMode)
| SelectTemplate (template : string)
| ChooseFile (f : File)
| ProcessFile
| SubmitMapping (values : ColumnMapping)
| ClearSelection
| SelectAll
| ToggleAll (checked : bool)
| ToggleRow (index : nat) (checked : bool)
| Cancel
| ImportSelected.

Definition select_all (rows : list CsvTransaction) : gmap nat bool :=
  foldl (λ newSelected idx, <[idx := true]> newSelected) ∅ (seq 0 (length rows)).

Definition handle (h : Host) (e : Event) (s : Session) : Session :=
  match e with
  | SelectMode mode => setUploadMode mode s
  | SelectTemplate template => setSelectedTemplate template s
  | ChooseFile f => handleFile f s
  | ProcessFile => processFile h s
  | SubmitMapping values => onSubmitMapping h values s
  | ClearSelection => setSelectedTransactions ∅ s
  | SelectAll => setSelectedTransactions (select_all (parsedData s)) s
  | ToggleAll checked =>
      setSelectedTransactions (if checked then select_all (parsedData s) else ∅) s
  | ToggleRow index checked =>
      setSelectedTransactions (<[index := checked]> (selectedTransactions s)) s
  | Cancel => setUploadStatus idle s
  | ImportSelected => (importTransactions h s).1
  end.

(** The sessions a user can bring about, starting from the freshly mounted
    page. *)
Inductive reachable (h : Host) : Session → Prop :=
| reachable_initial : reachable h initial
| reachable_handle e s : reachable h s → reachable h (handle h e s).

(** A host whose engine reads [M/D/YYYY] strings the way the browsers do,
    month first, as local midnight, and nothing else outside the standard
    format. *)
Definition month_first_fallback (tza : JsDate.TimeZone) (s : string) : option Z :=
  match JsString.split (Ascii.eqb "/"%char) s with
  | [m; d; y] =>
      match JsNumber.parseInt m, JsNumber.parseInt d, JsNumber.parseInt y with
      | Some m, Some d, Some y =>
          if (1 <=? m) && (m <=? 12) && (1 <=? d) && (d <=? 31)
          then Some (JsDate.UTC tza (JsDate.MakeDate (JsDate.MakeDay y (m - 1) d) 0))
          else None
      | _, _, _ => None
      end
  | _ => None
  end.

(** ** Vocabulary of the specification *)

(** The Gregorian calendar, stated on its own: leap years and the lengths
    of the months (months numbered from 1). *)
Definition leap_year (y : Z) : bool :=
  bool_decide (y mod 4 = 0 ∧ (y mod 100 ≠ 0 ∨ y mod 400 = 0)).

Definition days_in_month (y m : Z) : Z :=
  match m with
  | 1 | 3 | 5 | 7 | 8 | 10 | 12 => 31
  | 4 | 6 | 9 | 11 => 30
  | 2 => if leap_year y then 29 else 28
  | _ => 0
  end.

Definition valid_calendar_date (y m d : Z) : Prop :=
  1 ≤ m ≤ 12 ∧ 1 ≤ d ≤ days_in_month y m.

(** The number of days from 1 January 1970 to the day [d] of month [m] of
    year [y], counted one year and one month at a time. *)
Definition days_before_month (y m : Z) : Z :=
  foldr (λ k acc, days_in_month y k + acc) 0 (Z.of_nat <$> seq 1 (Z.to_nat (m - 1))).

Definition day_number (y m d : Z) : Z :=
  JsDate.DayFromYear y + days_before_month y m + d - 1.

(** The three layouts of the date parser. *)
Inductive Layout := YMD | MDY | DMY.

Definition layout_format (l : Layout) : string :=
  match l with
  | YMD => "YYYY-MM-DD"
  | MDY => "MM/DD/YYYY"
  | DMY => "DD/MM/YYYY"
  end.

(** A part is numeric when it is a non-empty string of digits; its value
    is the decimal numeral it spells. *)
Definition numeric (p : string) : Prop :=
  p ≠ EmptyString ∧ Forall (λ c, JsString.is_digit c = true) (list_ascii_of_string p).

Definition numeral_value (p : string) : Z :=
  JsNumber.digits_value 10 JsNumber.decimal_digit p.

(** The year, month and day that a layout reads off three parts. *)
Definition assign (l : Layout) (p0 p1 p2 : string) : Z * Z * Z :=
  match l with
  | YMD => (numeral_value p0, numeral_value p1, numeral_value p2)
  | MDY => (numeral_value p2, numeral_value p0, numeral_value p1)
  | DMY => (numeral_value p2, numeral_value p1, numeral_value p0)
  end.

(** The offsets of a host's zone are less than a day. *)
Definition zone_offset (tza : JsDate.TimeZone) : Prop :=
  ∀ t isUTC, Z.abs (tza t isUTC) < JsDate.msPerDay.

(** The zone has the day of number [day]: the instant that the engine
    takes for the local midnight that starts the day is, read back in local
    time, a time of that day. A zone lacks the days that its rules skip as
    a whole, as Pacific/Apia lacks 30 December 2011. *)
Definition zone_has_day (tza : JsDate.TimeZone) (day : Z) : Prop :=
  JsDate.Day (JsDate.LocalTime tza (JsDate.UTC tza (day * JsDate.msPerDay))) = day.

(** What a layout reads off a raw string: the string, cleaned of every
    character other than digits and separators, splits into three numeric
    parts, which the layout takes for the year [y], the month [m] and the
    day [d]. *)
Definition reads_as (l : Layout) (raw : string) (y m d : Z) : Prop :=
  ∃ p0 p1 p2,
    JsString.split is_date_separator (JsString.keep_chars is_date_char raw) = [p0; p1; p2]
    ∧ numeric p0 ∧ numeric p1 ∧ numeric p2
    ∧ assign l p0 p1 p2 = (y, m, d).

(** The dates the parser takes: the cleaned string splits into three
    numeric parts, the layout reads a date of the calendar off them, and
    the [Date] built from it shows the same year, month and day again.
    That last point fails for a year below 100, which the [Date]
    constructor reads as 1900 + year, for a day beyond the range of time
    values, and for a day that the host's zone does not have; [t] is the
    instant the engine takes for local midnight of the day. *)
Definition parses_as (tza : JsDate.TimeZone) (l : Layout) (raw : string) (t : Z) : Prop :=
  ∃ p0 p1 p2,
    JsString.split is_date_separator (JsString.keep_chars is_date_char raw) = [p0; p1; p2]
    ∧ numeric p0 ∧ numeric p1 ∧ numeric p2
    ∧ ∃ y m d,
        assign l p0 p1 p2 = (y, m, d)
        ∧ valid_calendar_date y m d
        ∧ 100 ≤ y
        ∧ t = JsDate.UTC tza (day_number y m d * JsDate.msPerDay)
        ∧ Z.abs t ≤ JsDate.maxTime
        ∧ zone_has_day tza (day_number y m d).

(** [h] is the first element of [l], in the order of the list, that
    satisfies [P]. *)
Definition first_such {A} (P : A → Prop) (l : list A) (h : A) : Prop :=
  ∃ i, l !! i = Some h ∧ P h ∧ ∀ j h', (j < i)%nat → l !! j = Some h' → ¬ P h'.

(** [sub] occurs in [s]. *)
Definition occurs_in (sub s : string) : Prop :=
  ∃ before after, s = before +:+ sub +:+ after.

(** The two tiers of the header matcher, for a target already normalized. *)
Definition exact_match (normalizedTarget h : string) : Prop :=
  normalize h = normalizedTarget.

Definition partial_match (normalizedTarget h : string) : Prop :=
  occurs_in normalizedTarget (normalize h) ∨ occurs_in (normalize h) normalizedTarget.

(** A string without a double quote. *)
Definition quote_free (s : string) : Prop :=
  Forall (λ c, Ascii.eqb c JsString.quote = false) (list_ascii_of_string s).

(** A line feed, to write texts of several lines. *)
Definition LF : string := String JsString.newline EmptyString.

(** The headers that no mapped field consumes, each with its position. *)
Definition extra_columns (ix : ColumnIndices) (headers : list string)
    : list (nat * string) :=
  List.filter (λ p, negb (consumed ix (Z.of_nat p.1))) (imap (λ i h, (i, h)) headers).

(** The names under which the row mapper stores the columns it does not
    consume. *)
Definition extra_keys (ix : ColumnIndices) (headers : list string) : list string :=
  snd <$> extra_columns ix headers.

(** The last assignment to [k] among the fields of an object literal. *)
Fixpoint last_assignment (fields : list (string * option string)) (k : string)
    : option (option string) :=
  match fields with
  | [] => None
  | (k', v) :: rest =>
      match last_assignment rest k with
      | Some v' => Some v'
      | None => if String.eqb k' k then Some v else None
      end
  end.

(** The last column, from position [idx] on, that the row mapper stores
    under the key [k]. *)
Fixpoint last_extra (ix : ColumnIndices) (headers : list string) (idx : Z)
    (k : string) : option Z :=
  match headers with
  | [] => None
  | h :: rest =>
      match last_extra ix rest (idx + 1) k with
      | Some j => Some j
      | None => if negb (consumed ix idx) && String.eqb h k then Some idx else None
      end
  end.

(** The default the row mapper falls back on: the one of the mapping, or
    the built-in one when the mapping has none or an empty one. *)
Definition fallback (d : option string) (builtin : string) : string :=
  match d with
  | Some s => if String.eqb s EmptyString then builtin else s
  | None => builtin
  end.

(** The three checks of the validator on one candidate, and the issues
    they give for the row at position [index]. A field of a candidate is
    read as a string. *)
Definition field (t : CsvTransaction) (k : string) : string :=
  default EmptyString (t !! k).

Definition well_typed (t : CsvTransaction) : Prop :=
  is_Some (t !! "date") ∧ is_Some (t !! "amount") ∧ is_Some (t !! "description").

Global Instance well_typed_dec (t : CsvTransaction) : Decision (well_typed t) :=
  decide (is_Some (t !! "date") ∧ is_Some (t !! "amount")
          ∧ is_Some (t !! "description")).

Definition date_ok (tza : JsDate.TimeZone) (format : string) (t : CsvTransaction) : bool :=
  match parseDate tza (field t "date") format with
  | Some _ => true
  | None => false
  end.

Definition amount_ok (t : CsvTransaction) : bool :=
  negb (JsNumber.isNaN (parse_amount (field t "amount"))).

Definition description_ok (t : CsvTransaction) : bool :=
  negb (is_blank (field t "description")).

Definition passes (tza : JsDate.TimeZone) (format : string) (t : CsvTransaction) : Prop :=
  date_ok tza format t = true ∧ amount_ok t = true ∧ description_ok t = true.

(** The invariant of a raw table: every row is as wide as the header row. *)
Definition rectangular (headers : list string) (data : list (list string)) : Prop :=
  Forall (λ row, length row = length headers) data.

(** Candidates that have all passed validation under one format. *)
Definition validated (tza : JsDate.TimeZone) (rows : list CsvTransaction) : Prop :=
  ∃ format, Forall (λ t, well_typed t ∧ passes tza format t) rows.

Definition row_issues (tza : JsDate.TimeZone) (format : string) (index : nat) (t : CsvTransaction)
    : list string :=
  (if date_ok tza format t then []
   else [row_label index +:+ "Invalid date format " +:+ quoted (field t "date")])
  ++ (if amount_ok t then []
      else [row_label index +:+ "Invalid amount " +:+ quoted (field t "amount")])
  ++ (if description_ok t then []
      else [row_label index +:+ "Missing description"]).

Definition violations (tza : JsDate.TimeZone) (format : string) (t : CsvTransaction) : nat :=
  ((if date_ok tza format t then 0 else 1)
   + (if amount_ok t then 0 else 1)
   + (if description_ok t then 0 else 1))%nat.

(** The rows that the commit step takes: all of them when the selection
    map is empty, otherwise the rows whose index the map sends to [true]. *)
Definition chosen (selected : gmap nat bool) (idx : nat) : Prop :=
  selected = ∅ ∨ selected !! idx = Some true.

Global Instance chosen_dec selected idx : Decision (chosen selected idx) :=
  decide (selected = ∅ ∨ selected !! idx = Some true).

(** The same, for the rows from position [idx] on. *)
Definition chosen_from (selected : gmap nat bool) (idx : nat)
    (rows : list CsvTransaction) : list CsvTransaction :=
  snd <$> filter (λ p, chosen selected p.1) (imap (λ i t, ((idx + i)%nat, t)) rows).

Definition chosen_rows (selected : gmap nat bool) (rows : list CsvTransaction)
    : list CsvTransaction :=
  snd <$> filter (λ p, chosen selected p.1) (imap (λ i t, (i, t)) rows).

(** The amount that a candidate is to be committed with: the parsed amount
    made negative for an expense, and made non-negative otherwise. *)
Definition committed_amount (t : CsvTransaction) : JsNumber.number :=
  let parsed := parse_amount (field t "amount") in
  if bool_decide (t !! "type" = Some "expense")
  then JsNumber.neg (JsNumber.abs parsed)
  else JsNumber.abs parsed.

(** [db] is the database record of the candidate [t]. *)
Definition commits (h : Host) (t : CsvTransaction) (db : DbTransaction) : Prop :=
  is_Some (t !! "amount")
  ∧ amount db = committed_amount t
  ∧ description db = t !! "description"
  ∧ category db = t !! "category"
  ∧ type db = t !! "type"
  ∧ JsDate.toISOString (t !! "date" ≫= JsDate.parse (LocalTZA h) (dateFallback h))
    = Ok (transaction_date db).

(** The candidate can be turned into a database record: its amount is a
    string and the engine reads its date string as a valid date. *)
Definition convertible (h : Host) (t : CsvTransaction) : Prop :=
  is_Some (t !! "amount")
  ∧ is_Some (t !! "date" ≫= JsDate.parse (LocalTZA h) (dateFallback h)).

(** A candidate with the five named fields and nothing else. *)
Definition candidate (date description amount category type : string)
    : CsvTransaction :=
  object_literal [("date", Some date); ("amount", Some amount);
                  ("description", Some description); ("category", Some category);
                  ("type", Some type)].

(** ** A sample run *)

(** A host in the UTC zone whose engine reads slashed dates month first,
    with a signed-in user and a table that accepts every batch. *)
Definition sampleHost : Host :=
  {| LocalTZA := JsDate.fixed_zone 0;
     dateFallback := month_first_fallback (JsDate.fixed_zone 0);
     authUser := Some "user-1";
     uuidv4 := λ k, "id-" +:+ pretty k;
     clock := λ _, 1704067200000;
     insertTransactions := λ _, None |}.

Definition sampleFile : File :=
  {| file_name := "statement.csv"; file_type := "text/csv";
     file_text := "date,description,amount,type" +:+ LF
                  +:+ "2024-01-05,Coffee,-50,expense" +:+ LF
                  +:+ "2024-01-06,Salary,20,income" +:+ LF |}.

Definition sampleHeaders : list string := ["date"; "description"; "amount"; "type"].

Definition sampleRows : list (list string) :=
  [["2024-01-05"; "Coffee"; "-50"; "expense"]; ["2024-01-06"; "Salary"; "20"; "income"]].

Definition sampleMapping : ColumnMapping :=
  {| dateColumn := "date"; amountColumn := "amount"; descriptionColumn := "description";
     categoryColumn := Some EmptyString; typeColumn := Some "type";
     dateFormat := "YYYY-MM-DD";
     defaultCategory := Some "Uncategorized"; defaultType := Some "expense" |}.

(** The session in the preview state, holding the given candidates and
    selection. *)
Definition previewSession (rows : list CsvTransaction) (selected : gmap nat bool)
    : Session :=
  {| uploadMode := advanced; file := Some sampleFile; uploadStatus := preview;
     progress := 100; errorMessage := EmptyString;
     csvHeaders := sampleHeaders; csvData := sampleRows;
     parsedData := rows;
     selectedTemplate := "generic"; validationErrors := [];
     selectedTransactions := selected |}.

Definition sampleCandidates : list CsvTransaction :=
  mapCsvToTransactions sampleHeaders sampleRows sampleMapping.

(** * The rest of the page *)

(** ** Lines of CSV, as a writer produces them *)

(** A carriage return, which ends each line of a text with CR LF line
    ends. *)
Definition CR : string := String "013"%char EmptyString.

Definition comma_free (s : string) : Prop :=
  Forall (λ c, Ascii.eqb c JsString.comma = false) (list_ascii_of_string s).

Definition newline_free (s : string) : Prop :=
  Forall (λ c, Ascii.eqb c JsString.newline = false) (list_ascii_of_string s).

(** [cell] writes the field [f] in a line: the field as it stands when it
    has no comma, or the field between double quotes. *)
Inductive encodes (f : string) : string → Prop :=
| encodes_plain : comma_free f → encodes f f
| encodes_quoted : encodes f (quoted f).

(** A field without a double quote and without white space around it. *)
Definition clean (f : string) : Prop := quote_free f ∧ JsString.trim f = f.

(** The number of commas of a line. *)
Definition commas (line : string) : nat :=
  length (List.filter (λ c, Ascii.eqb c JsString.comma) (list_ascii_of_string line)).

(** ** The shape of an amount *)

(** The head of a decimal numeral: a digit, or a dot and a digit. *)
Definition numeral_head (s : string) : bool :=
  match s with
  | String c r =>
      JsString.is_digit c
      || (Ascii.eqb c "."
          && match r with
             | String d _ => JsString.is_digit d
             | EmptyString => false
             end)
  | EmptyString => false
  end.

(** The shape of what is left of an amount once everything but digits,
    dots and minus signs is removed: at most one minus sign, then the head
    of a numeral. What follows that is not looked at. *)
Definition amount_shape (cleaned : string) : bool :=
  match cleaned with
  | String c r => if Ascii.eqb c "-" then numeral_head r else numeral_head cleaned
  | EmptyString => false
  end.

(** The head of the string, when there is one, is a digit, a dot or a
    minus sign. *)
Definition headed (s : string) : Prop :=
  match s with
  | String c _ => is_amount_char c = true
  | EmptyString => True
  end.

Definition starts_with_minus (cleaned : string) : bool :=
  match cleaned with
  | String c _ => Ascii.eqb c "-"
  | EmptyString => false
  end.

(** ** The column mapping form *)

(** The [defaultValues] of the form. *)
Definition formDefaultValues : ColumnMapping :=
  {| dateColumn := EmptyString; amountColumn := EmptyString;
     descriptionColumn := EmptyString;
     categoryColumn := Some EmptyString; typeColumn := Some EmptyString;
     dateFormat := "YYYY-MM-DD";
     defaultCategory := Some "Uncategorized"; defaultType := Some "expense" |}.

(** [v || ""] for a string [v]. *)
Definition or_empty (v : string) : string :=
  default EmptyString (or_else (Some v) EmptyString).

(** The effect on [selectedTemplate] and [csvHeaders]: with headers at
    hand and a known template, the form is reset to the columns that the
    header matcher finds for the template; otherwise it is left alone. *)
Definition resetForm (csvHeaders : list string) (selectedTemplate : string)
    (form : ColumnMapping) : ColumnMapping :=
  if (0 <? length csvHeaders)%nat then
    match findTemplate selectedTemplate with
    | Some template =>
        (* Try to find matching headers in the CSV *)
        let dateCol := findBestMatchingHeader csvHeaders (th_date (bt_headers template)) in
        let amountCol :=
          findBestMatchingHeader csvHeaders (th_amount (bt_headers template)) in
        let descriptionCol :=
          findBestMatchingHeader csvHeaders (th_description (bt_headers template)) in
        let categoryCol :=
          if truthy (th_category (bt_headers template))
          then findBestMatchingHeader csvHeaders
                 (default EmptyString (th_category (bt_headers template)))
          else EmptyString in
        let typeCol :=
          if truthy (th_type (bt_headers template))
          then findBestMatchingHeader csvHeaders
                 (default EmptyString (th_type (bt_headers template)))
          else EmptyString in
        {| dateColumn := or_empty dateCol;
           amountColumn := or_empty amountCol;
           descriptionColumn := or_empty descriptionCol;
           categoryColumn := Some (or_empty categoryCol);
           typeColumn := Some (or_empty typeCol);
           dateFormat := bt_dateFormat template;
           defaultCategory := Some "Uncategorized";
           defaultType := Some "expense" |}
    | None => form
    end
  else form.

(** [columnMappingSchema]: the issues that the schema raises on the values
    of the form, in the order of its keys. A required column must be a
    string of at least one character; the date format and, when it is
    given, the default type must be one of the listed names. *)
Inductive SchemaIssue :=
| too_small (path message : string)
| invalid_enum_value (path : string).

Definition min_1 (path message value : string) : list SchemaIssue :=
  if (1 <=? String.length value)%nat then [] else [too_small path message].

Definition one_of (options : list string) (path value : string) : list SchemaIssue :=
  if existsb (String.eqb value) options then [] else [invalid_enum_value path].

Definition optionally {A} (check : A → list SchemaIssue) (value : option A)
    : list SchemaIssue :=
  match value with
  | Some v => check v
  | None => []
  end.

Definition columnMappingSchema (values : ColumnMapping) : list SchemaIssue :=
  min_1 "dateColumn" "Date column is required" (dateColumn values)
  ++ min_1 "amountColumn" "Amount column is required" (amountColumn values)
  ++ min_1 "descriptionColumn" "Description column is required"
       (descriptionColumn values)
  ++ optionally (λ _, []) (categoryColumn values)
  ++ optionally (λ _, []) (typeColumn values)
  ++ one_of ["YYYY-MM-DD"; "MM/DD/YYYY"; "DD/MM/YYYY"] "dateFormat" (dateFormat values)
  ++ optionally (λ _, []) (defaultCategory values)
  ++ optionally (one_of ["income"; "expense"] "defaultType") (defaultType values).

(** [form.handleSubmit(onSubmitMapping)]: the handler is called with the
    values when the schema raises no issue; otherwise the issues are shown
    on the form and the session stays as it is. *)
Definition handleSubmit (h : Host) (values : ColumnMapping) (s : Session) : Session :=
  match columnMappingSchema values with
  | [] => onSubmitMapping h values s
  | _ :: _ => s
  end.

(** ** Where the candidates come from *)

(** The raw table of the session is the one read from the staged file. *)
Definition table_of_staged_file (s : Session) : Prop :=
  ∃ f, file s = Some f ∧ parseRawCSV (file_text f) = Ok (csvHeaders s, csvData s).

(** The candidates of the session are the rows of its raw table, mapped. *)
Definition candidates_of_table (s : Session) : Prop :=
  ∃ mapping, parsedData s = mapCsvToTransactions (csvHeaders s) (csvData s) mapping.

Definition provenance (s : Session) : Prop :=
  ((csvHeaders s = [] ∧ csvData s = []) ∨ table_of_staged_file s)
  ∧ (parsedData s = [] ∨ (table_of_staged_file s ∧ candidates_of_table s)).

(** A step from [s] to [s'] that keeps the provenance and, when there are
    candidates, their number. *)
Definition follows (s s' : Session) : Prop :=
  provenance s'
  ∧ (parsedData s ≠ [] → length (parsedData s') = length (parsedData s)).

(** The five fields of a candidate that the page shows and commits. *)
Definition named_fields : list string :=
  ["date"; "amount"; "description"; "category"; "type"].

(** ** The controls on display *)

Definition status_eqb (a b : UploadStatus) : bool :=
  match a, b with
  | idle, idle | uploading, uploading | parsing, parsing | mapping, mapping
  | preview, preview | inserting, inserting | success, success | error, error => true
  | _, _ => false
  end.

Definition mode_eqb (a b : UploadMode) : bool :=
  match a, b with
  | standard, standard | advanced, advanced => true
  | _, _ => false
  end.

(** The values that the template select offers. *)
Definition templateIds : list string := bt_id <$> bankTemplates.

(** The preview table and its buttons are rendered when
    [uploadStatus === 'preview' && parsedData.length > 0]. *)
Definition preview_shown (s : Session) : bool :=
  status_eqb (uploadStatus s) preview && (0 <? length (parsedData s))%nat.

(** The control behind an event is on the page, so that the user can
    trigger the event. The tabs are always there; the template select is in
    the standard tab and the mapping form in the advanced tab; the file
    inputs and, once a file is staged, the process button are shown in the
    [idle] state; the form is submitted to its handler when the schema
    accepts its values; a row checkbox exists for each row of the preview
    table. *)
Definition enabled (s : Session) (e : Event) : bool :=
  match e with
  | SelectMode _ => true
  | SelectTemplate template =>
      mode_eqb (uploadMode s) standard && status_eqb (uploadStatus s) idle
      && existsb (String.eqb template) templateIds
  | ChooseFile _ => status_eqb (uploadStatus s) idle
  | ProcessFile =>
      status_eqb (uploadStatus s) idle
      && match file s with Some _ => true | None => false end
  | SubmitMapping values =>
      mode_eqb (uploadMode s) advanced && status_eqb (uploadStatus s) mapping
      && match columnMappingSchema values with [] => true | _ :: _ => false end
  | ClearSelection | SelectAll | ToggleAll _ | Cancel | ImportSelected =>
      preview_shown s
  | ToggleRow index _ => preview_shown s && (index <? length (parsedData s))%nat
  end.

(** The sessions that a user brings about through the controls on
    display. A handler runs to its end before the next event: while it
    waits for the file or for the table, the page shows the progress bar
    and the tabs only, and a change of tab then writes a field that the
    running handler does not read again. *)
Inductive ui_reachable (h : Host) : Session → Prop :=
| ui_reachable_initial : ui_reachable h initial
| ui_reachable_handle e s :
    ui_reachable h s → enabled s e = true → ui_reachable h (handle h e s).

(** A run of events from a session; [None] when one of them has no
    control on display. *)
Fixpoint run (h : Host) (events : list Event) (s : Session) : option Session :=
  match events with
  | [] => Some s
  | e :: rest => if enabled s e then run h rest (handle h e s) else None
  end.

(** Nothing but the tabs is on display. *)
Definition only_tabs (s : Session) : Prop :=
  ∀ e, enabled s e = true → ∃ mode, e = SelectMode mode.

(** The session shows no control that leads on: it ended in an error or a
    success, or it is in the preview state with no candidate to show. *)
Definition stuck (s : Session) : Prop :=
  uploadStatus s = error ∨ uploadStatus s = success
  ∨ (uploadStatus s = preview ∧ parsedData s = []).

(** What holds of a session at rest on the page. *)
Definition ui_invariant (s : Session) : Prop :=
  uploadStatus s ∈ [idle; mapping; preview; success; error]
  ∧ is_Some (findTemplate (selectedTemplate s))
  ∧ (uploadStatus s ≠ idle → is_Some (file s))
  ∧ (uploadStatus s = mapping → csvHeaders s ≠ [])
  ∧ (uploadStatus s ≠ error →
     validationErrors s = [] ∧ errorMessage s = EmptyString).

(** A text with a header line and data lines none of which has as many
    fields as the header line. *)
Definition ragged (text : string) : Prop :=
  ∃ headerLine dataLine dataLines,
    nonblank_lines text = headerLine :: dataLine :: dataLines
    ∧ Forall (λ line, length (parseCsvLine line) ≠ length (parseCsvLine headerLine))
        (dataLine :: dataLines).

(** The page shows neither a preview nor an error, and nothing the user
    does brings one up. *)
Definition blank_page (h : Host) (s : Session) : Prop :=
  uploadStatus s = preview ∧ parsedData s = [] ∧ validationErrors s = []
  ∧ only_tabs s
  ∧ ∀ events s', run h events s = Some s' →
      uploadStatus s' = preview ∧ parsedData s' = [].

(** The header checkbox of the preview table is checked when
    [Object.keys(selectedTransactions).length === parsedData.length]; the
    checkbox of a row shows [selectedTransactions[index]]. *)
Definition headerCheckbox (s : Session) : bool :=
  Nat.eqb (size (selectedTransactions s)) (length (parsedData s)).

Definition rowCheckbox (s : Session) (index : nat) : option bool :=
  selectedTransactions s !! index.

(** ** Dates in the standard format *)

(** The date [YYYY-MM-DD] of a year from 0 to 9999. *)
Definition iso_date_string (y m d : Z) : string :=
  JsDate.pad 4 y +:+ "-" +:+ JsDate.pad 2 m +:+ "-" +:+ JsDate.pad 2 d.

(** ** More sample runs *)

(** Two zones with a change of offset. [dateLineZone] goes from ten hours
    behind UTC to fourteen hours ahead of it at 10:00 UTC on 30 December
    2011, as Pacific/Apia did: its local time passes from the end of
    29 December to the start of 31 December. [summerTimeZone] goes from
    UTC to one hour ahead of it at 01:00 UTC on 31 March 2024, as
    Europe/London did. *)
Definition dateLineZone : JsDate.TimeZone :=
  JsDate.one_transition (-36000000) 50400000 1325239200000.

Definition summerTimeZone : JsDate.TimeZone :=
  JsDate.one_transition 0 3600000 1711846800000.

(** The sample host, moved to [summerTimeZone]. *)
Definition summerHost : Host :=
  {| LocalTZA := summerTimeZone;
     dateFallback := month_first_fallback summerTimeZone;
     authUser := authUser sampleHost;
     uuidv4 := uuidv4 sampleHost;
     clock := clock sampleHost;
     insertTransactions := insertTransactions sampleHost |}.

(** A file with a header line only, and a file whose one data line is
    shorter than its header line. *)
Definition headerOnlyFile : File :=
  {| file_name := "empty.csv"; file_type := "text/csv";
     file_text := "date,description,amount" +:+ LF |}.

Definition raggedFile : File :=
  {| file_name := "ragged.csv"; file_type := "text/csv";
     file_text := "date,description,amount" +:+ LF +:+ "2024-01-05,Coffee" +:+ LF |}.

(** The session after a file was chosen and processed on the fresh page. *)
Definition processed (f : File) : Session :=
  handle sampleHost ProcessFile (handle sampleHost (ChooseFile f) initial).

(** * Properties *)

#[local] Arguments Ascii.eqb : simpl never.
#[local] Arguments String.eqb : simpl never.

(** ** The functions at work *)

Example parseCsvLine_quoted :
  parseCsvLine ("a," +:+ quoted "b, c" +:+ " , d ") = ["a"; "b, c"; "d"].
Proof. reflexivity. Qed.

Example parseCsvLine_empty : parseCsvLine "" = [""].
Proof. reflexivity. Qed.

Example parseRawCSV_drops_ragged_rows :
  parseRawCSV ("date,amount" +:+ LF +:+ "2024-01-05,10" +:+ LF +:+ LF
               +:+ "2024-01-06" +:+ LF +:+ "2024-01-07,5,extra" +:+ LF
               +:+ " 2024-01-08 , 7 " +:+ LF)
  = Ok (["date"; "amount"], [["2024-01-05"; "10"]; ["2024-01-08"; "7"]]).
Proof. reflexivity. Qed.

Example parseRawCSV_header_only :
  parseRawCSV ("date,amount" +:+ LF +:+ "  " +:+ LF)
  = Throw "CSV file must contain at least a header row and one data row".
Proof. reflexivity. Qed.

Example normalize_example : normalize "Transaction_Date " = "transactiondate".
Proof. reflexivity. Qed.

Example findBestMatchingHeader_exact_first :
  findBestMatchingHeader ["Posting Date"; "DATE"; "date"] "date" = "DATE".
Proof. reflexivity. Qed.

Example findBestMatchingHeader_contained :
  findBestMatchingHeader ["Amt"; "Memo"] "amount" = ""
  ∧ findBestMatchingHeader ["Amt"; "Type"] "transaction_type" = "Type".
Proof. split; reflexivity. Qed.

Example parseInt_examples :
  JsNumber.parseInt "0005" = Some 5 ∧ JsNumber.parseInt "" = None
  ∧ JsNumber.parseInt " -12px" = Some (-12) ∧ JsNumber.parseInt "0x1F" = Some 31.
Proof. repeat split. Qed.

Example parseFloat_examples :
  JsNumber.parseFloat "-50" = JsNumber.Finite true 50
  ∧ JsNumber.parseFloat "1.2.3" = JsNumber.Finite false (6 # 5)
  ∧ JsNumber.parseFloat "-.5" = JsNumber.Finite true (1 # 2)
  ∧ JsNumber.parseFloat "12-3" = JsNumber.Finite false 12
  ∧ JsNumber.parseFloat "--5" = JsNumber.NaN
  ∧ JsNumber.parseFloat "." = JsNumber.NaN
  ∧ JsNumber.parseFloat "" = JsNumber.NaN.
Proof. repeat split. Qed.

Example parse_amount_strips :
  parse_amount "$1,234.50" = JsNumber.Finite false (2469 # 2)
  ∧ parse_amount "(50.00)" = JsNumber.Finite false 50
  ∧ parse_amount "abc" = JsNumber.NaN.
Proof. repeat split. Qed.

Example Date_rolls_over :
  JsDate.toISOString (JsDate.construct (JsDate.fixed_zone 0) (Some 2024) (Some 1) (Some 30))
  = Ok "2024-03-01T00:00:00.000Z"
  ∧ JsDate.toISOString (JsDate.construct (JsDate.fixed_zone 0) (Some 99) (Some 0) (Some 1))
    = Ok "1999-01-01T00:00:00.000Z"
  ∧ JsDate.toISOString (JsDate.construct (JsDate.fixed_zone 0) (Some 275760) (Some 8) (Some 14))
    = Throw "Invalid time value".
Proof. repeat split. Qed.

Example Date_parse_examples :
  JsDate.toISOString (JsDate.parse (JsDate.fixed_zone 0) (λ _, None) "2024-01-05")
  = Ok "2024-01-05T00:00:00.000Z"
  ∧ JsDate.toISOString (JsDate.parse (JsDate.fixed_zone 3600000) (λ _, None) "2024-01-05T00:30:15.123")
    = Ok "2024-01-04T23:30:15.123Z"
  ∧ JsDate.toISOString (JsDate.parse (JsDate.fixed_zone 0) (λ _, None) "2024-01-05T10:00:00+05:30")
    = Ok "2024-01-05T04:30:00.000Z"
  ∧ JsDate.parse (JsDate.fixed_zone 0) (λ _, None) "2024-13-05" = None
  ∧ JsDate.parse (JsDate.fixed_zone 0) (λ _, None) "5 Jan 2024" = None.
Proof. repeat split. Qed.

Example parseDate_examples :
  parseDate (JsDate.fixed_zone 0) "31/02/2024" "DD/MM/YYYY" = None
  ∧ parseDate (JsDate.fixed_zone 0) "0099-01-01" "YYYY-MM-DD" = None
  ∧ parseDate (JsDate.fixed_zone 0) "2024/1/5" "YYYY-MM-DD" = Some 1704412800000
  ∧ parseDate (JsDate.fixed_zone 0) "Jan 5, 2024" "MM/DD/YYYY" = None
  ∧ parseDate (JsDate.fixed_zone 0) "2024-01-05" "YYYY/MM/DD" = None.
Proof. repeat split. Qed.


(** A day that the zone of the host skips is refused, though it is a date
    of the calendar: local time in [dateLineZone] has no 30 December 2011,
    and [new Date(2011, 11, 30)] shows 31 December. Under daylight saving
    a winter and a summer midnight are taken with their own offsets. *)
Example parseDate_zone_examples :
  parseDate dateLineZone "2011-12-30" "YYYY-MM-DD" = None
  ∧ JsDate.getDate dateLineZone
      (JsDate.construct dateLineZone (Some 2011) (Some 11) (Some 30)) = Some 31
  ∧ parseDate dateLineZone "2011-12-29" "YYYY-MM-DD" = Some 1325152800000
  ∧ parseDate dateLineZone "2011-12-31" "YYYY-MM-DD" = Some 1325239200000
  ∧ parseDate (JsDate.fixed_zone 50400000) "2011-12-30" "YYYY-MM-DD"
    = Some 1325152800000
  ∧ parseDate summerTimeZone "01/07/2024" "MM/DD/YYYY" = Some 1704585600000
  ∧ parseDate summerTimeZone "01/07/2024" "DD/MM/YYYY" = Some 1719788400000.
Proof. repeat split. Qed.

(** ** The calendar of [JsDate] *)

Module CalendarFacts.
Import JsDate.

Lemma InLeapYear_true y :
  InLeapYear y = true ↔ y mod 4 = 0 ∧ (y mod 100 ≠ 0 ∨ y mod 400 = 0).
Proof.
  unfold InLeapYear.
  rewrite andb_true_iff, orb_true_iff, negb_true_iff, !Z.eqb_eq, Z.eqb_neq.
  tauto.
Qed.

Lemma DaysInYear_range y : 365 ≤ DaysInYear y ≤ 366.
Proof. unfold DaysInYear. destruct (InLeapYear y); lia. Qed.

Lemma DayFromYear_succ y : DayFromYear (y + 1) = DayFromYear y + DaysInYear y.
Proof.
  unfold DayFromYear, DaysInYear.
  destruct (InLeapYear y) eqn:L.
  - apply InLeapYear_true in L. Z.div_mod_to_equations. lia.
  - assert (¬ (y mod 4 = 0 ∧ (y mod 100 ≠ 0 ∨ y mod 400 = 0))) as N.
    { rewrite <- InLeapYear_true. congruence. }
    Z.div_mod_to_equations. lia.
Qed.

Lemma DayFromYear_lt y1 y2 : y1 < y2 → DayFromYear y1 + 365 ≤ DayFromYear y2.
Proof. unfold DayFromYear. intros. Z.div_mod_to_equations. lia. Qed.

Lemma DayFromYear_le y1 y2 : y1 ≤ y2 → DayFromYear y1 ≤ DayFromYear y2.
Proof.
  intros H. destruct (decide (y1 = y2)) as [->|]; [lia|].
  pose proof (DayFromYear_lt y1 y2). lia.
Qed.

Lemma YearFromDay_spec d :
  DayFromYear (YearFromDay d) ≤ d < DayFromYear (YearFromDay d + 1).
Proof.
  unfold YearFromDay.
  set (c := 1970 + 400 * d / 146097).
  assert (DayFromYear (c - 1) ≤ d < DayFromYear (c + 2)) as B.
  { subst c. unfold DayFromYear. Z.div_mod_to_equations. lia. }
  destruct (Z.leb_spec (DayFromYear (c + 1)) d).
  - replace (c + 1 + 1) with (c + 2) by lia. lia.
  - destruct (Z.leb_spec (DayFromYear c) d).
    + lia.
    + replace (c - 1 + 1) with c by lia. lia.
Qed.

Lemma YearFromDay_unique y d :
  DayFromYear y ≤ d < DayFromYear (y + 1) → YearFromDay d = y.
Proof.
  intros H. pose proof (YearFromDay_spec d) as S.
  destruct (Z.lt_trichotomy (YearFromDay d) y) as [L|[E|L]]; [|done|].
  - pose proof (DayFromYear_le (YearFromDay d + 1) y). lia.
  - pose proof (DayFromYear_le (y + 1) (YearFromDay d)). lia.
Qed.

Lemma leap_year_InLeapYear y : leap_year y = InLeapYear y.
Proof.
  unfold leap_year. destruct (InLeapYear y) eqn:L.
  - apply bool_decide_eq_true. by apply InLeapYear_true.
  - apply bool_decide_eq_false. rewrite <- InLeapYear_true. congruence.
Qed.

Lemma monthStart_days_before y m :
  1 ≤ m ≤ 13 → monthStart (InLeapYear y) (m - 1) = days_before_month y m.
Proof.
  intros H. unfold days_before_month.
  assert (m = 1 ∨ m = 2 ∨ m = 3 ∨ m = 4 ∨ m = 5 ∨ m = 6 ∨ m = 7 ∨ m = 8
          ∨ m = 9 ∨ m = 10 ∨ m = 11 ∨ m = 12 ∨ m = 13) as C by lia.
  repeat destruct C as [->|C]; try subst m;
    cbv [Z.sub Z.add Z.opp Z.pos_sub Z.to_nat Pos.to_nat Pos.iter_op Init.Nat.add
         Z.succ_double Z.pred_double Z.double Pos.pred_double
         seq fmap list_fmap foldr Z.of_nat Pos.of_succ_nat Pos.succ days_in_month];
    rewrite ?leap_year_InLeapYear; destruct (InLeapYear y); reflexivity.
Qed.

Lemma days_in_month_monthStart y m :
  1 ≤ m ≤ 12 →
  days_in_month y m = monthStart (InLeapYear y) m - monthStart (InLeapYear y) (m - 1).
Proof.
  intros H.
  assert (m = 1 ∨ m = 2 ∨ m = 3 ∨ m = 4 ∨ m = 5 ∨ m = 6 ∨ m = 7 ∨ m = 8
          ∨ m = 9 ∨ m = 10 ∨ m = 11 ∨ m = 12) as C by lia.
  repeat destruct C as [->|C]; try subst m; cbn;
    rewrite ?leap_year_InLeapYear; destruct (InLeapYear y); reflexivity.
Qed.

Lemma monthStart_12 y : monthStart (InLeapYear y) 12 = DaysInYear y.
Proof. unfold DaysInYear. by destruct (InLeapYear y). Qed.

(** The month found for a day is the one whose span holds the day. *)
Lemma MonthFromDay_spec d :
  let y := YearFromDay d in
  let m := MonthFromDay d in
  0 ≤ m ≤ 11 ∧
  monthStart (InLeapYear y) m ≤ d - DayFromYear y < monthStart (InLeapYear y) (m + 1).
Proof.
  intros y m. subst m. unfold MonthFromDay. fold y.
  pose proof (YearFromDay_spec d) as S. fold y in S.
  rewrite DayFromYear_succ in S. unfold DaysInYear in S.
  assert (0 ≤ d - DayFromYear y < if InLeapYear y then 366 else 365) as W by lia.
  set (w := d - DayFromYear y) in *. clearbody w. clear S.
  destruct (InLeapYear y); cbn [monthStart];
    repeat (match goal with
            | |- context [?a <? ?b] => destruct (Z.ltb_spec a b)
            end; [simpl; lia|]); simpl; lia.
Qed.

Lemma MonthFromDay_unique d m :
  let y := YearFromDay d in
  0 ≤ m ≤ 11 →
  monthStart (InLeapYear y) m ≤ d - DayFromYear y < monthStart (InLeapYear y) (m + 1) →
  MonthFromDay d = m.
Proof.
  intros y Hm H. pose proof (MonthFromDay_spec d) as [R S]. fold y in S.
  set (m' := MonthFromDay d) in *. clearbody m'.
  assert (m = 0 ∨ m = 1 ∨ m = 2 ∨ m = 3 ∨ m = 4 ∨ m = 5 ∨ m = 6 ∨ m = 7
          ∨ m = 8 ∨ m = 9 ∨ m = 10 ∨ m = 11) as C by lia.
  assert (m' = 0 ∨ m' = 1 ∨ m' = 2 ∨ m' = 3 ∨ m' = 4 ∨ m' = 5 ∨ m' = 6 ∨ m' = 7
          ∨ m' = 8 ∨ m' = 9 ∨ m' = 10 ∨ m' = 11) as C' by lia.
  revert H S. destruct (InLeapYear y);
    repeat destruct C as [->|C]; try subst m;
    repeat destruct C' as [->|C']; try subst m';
    simpl; lia.
Qed.

(** Every day has a date of the calendar: the fields read back from a
    day number always form a valid calendar date. *)
Lemma fields_valid d :
  valid_calendar_date (YearFromDay d) (MonthFromDay d + 1) (DateFromDay d).
Proof.
  pose proof (MonthFromDay_spec d) as [R S]. cbn zeta in S.
  unfold valid_calendar_date, DateFromDay.
  rewrite days_in_month_monthStart by lia.
  replace (MonthFromDay d + 1 - 1) with (MonthFromDay d) by lia. lia.
Qed.

(** A valid calendar date is read back from its day number. *)
Lemma fields_of_day_number y m dt :
  valid_calendar_date y m dt →
  let d := day_number y m dt in
  YearFromDay d = y ∧ MonthFromDay d = m - 1 ∧ DateFromDay d = dt.
Proof.
  intros [Hm Hd] d. subst d. unfold day_number.
  rewrite <- monthStart_days_before by lia.
  rewrite days_in_month_monthStart in Hd by lia.
  set (d := DayFromYear y + monthStart (InLeapYear y) (m - 1) + dt - 1).
  assert (0 ≤ monthStart (InLeapYear y) (m - 1)
          ∧ monthStart (InLeapYear y) m ≤ DaysInYear y) as [B1 B2].
  { rewrite <- monthStart_12.
    assert (m = 1 ∨ m = 2 ∨ m = 3 ∨ m = 4 ∨ m = 5 ∨ m = 6 ∨ m = 7 ∨ m = 8
            ∨ m = 9 ∨ m = 10 ∨ m = 11 ∨ m = 12) as C by lia.
    destruct (InLeapYear y); repeat destruct C as [->|C]; try subst m; simpl; lia. }
  assert (YearFromDay d = y) as Y.
  { apply YearFromDay_unique. rewrite DayFromYear_succ. subst d. lia. }
  assert (MonthFromDay d = m - 1) as M.
  { apply MonthFromDay_unique; [lia|]. rewrite Y.
    replace (m - 1 + 1) with m by lia. subst d. lia. }
  split; [done|]. split; [done|].
  unfold DateFromDay. rewrite Y, M. subst d. lia.
Qed.

End CalendarFacts.


(** ** Strings *)

Module StringFacts.
Import JsString.

Ltac ascii_cases c := destruct c as [[] [] [] [] [] [] [] []].

Lemma digit_facts c :
  is_digit c = true →
  is_space c = false ∧ Ascii.eqb c "-" = false ∧ Ascii.eqb c "+" = false
  ∧ Ascii.eqb "x" c = false ∧ Ascii.eqb "X" c = false
  ∧ 0 ≤ JsNumber.decimal_digit c ≤ 9.
Proof.
  intros H. ascii_cases c; vm_compute in H; try discriminate H;
    vm_compute; intuition discriminate.
Qed.

Lemma keep_chars_Forall keep s :
  Forall (λ c, keep c = true) (list_ascii_of_string (keep_chars keep s)).
Proof.
  induction s as [|c r IH]; simpl; [constructor|].
  destruct (keep c) eqn:K; simpl; [by constructor|done].
Qed.

Lemma split_not_nil sep s : split sep s ≠ [].
Proof. destruct s as [|c r]; simpl; [done|]. by repeat case_match. Qed.

Lemma split_Forall (P : ascii → Prop) sep s :
  Forall P (list_ascii_of_string s) →
  Forall (λ p, Forall (λ c, P c ∧ sep c = false) (list_ascii_of_string p))
    (split sep s).
Proof.
  induction s as [|c r IH]; simpl; intros H.
  - repeat constructor.
  - inversion_clear H as [|? ? Hc Hr]. specialize (IH Hr).
    destruct (sep c) eqn:S.
    + constructor; [constructor|done].
    + destruct (split sep r) as [|p ps] eqn:E.
      * repeat constructor; done.
      * inversion_clear IH. constructor; [|done]. simpl. by constructor.
Qed.

(** Splitting and joining again gives the string back. *)
Lemma join_split (sepc : ascii) s :
  join (String sepc EmptyString) (split (Ascii.eqb sepc) s) = s.
Proof.
  induction s as [|c r IH]; simpl; [done|].
  destruct (Ascii.eqb_spec sepc c) as [->|N].
  - pose proof (split_not_nil (Ascii.eqb c) r).
    simpl. destruct (split (Ascii.eqb c) r) eqn:E; [done|].
    simpl in *. by rewrite IH.
  - pose proof (split_not_nil (Ascii.eqb sepc) r).
    destruct (split (Ascii.eqb sepc) r) as [|p ps] eqn:E; [done|].
    destruct ps; simpl in *; by rewrite <- IH.
Qed.

Lemma span_all p s :
  Forall (λ c, p c = true) (list_ascii_of_string s) →
  JsNumber.span p s = (s, EmptyString).
Proof.
  induction s as [|c r IH]; simpl; [done|].
  intros H. inversion_clear H as [|? ? Hc Hr].
  by rewrite Hc, IH.
Qed.

(** On a string of digits [parseInt] reads the decimal numeral, and only
    the empty string has no value. *)
Lemma parseInt_digits p :
  Forall (λ c, is_digit c = true) (list_ascii_of_string p) →
  JsNumber.parseInt p =
    if String.eqb p EmptyString then None else Some (numeral_value p).
Proof.
  intros H. destruct p as [|c r]; [done|].
  pose proof H as H'. simpl in H'. inversion_clear H' as [|? ? Hc Hr].
  destruct (digit_facts c Hc) as (Sp & Mi & Pl & X1 & X2 & _).
  unfold JsNumber.parseInt. simpl trimStart. rewrite Sp.
  unfold JsNumber.sign_prefix. rewrite Mi, Pl.
  assert (strip_prefix "0x" (String c r) = None
          ∧ strip_prefix "0X" (String c r) = None) as [-> ->].
  { simpl. destruct (Ascii.eqb "0" c); [|done].
    destruct r as [|c' r']; [done|].
    simpl in Hr. inversion_clear Hr as [|? ? Hc' _].
    destruct (digit_facts c' Hc') as (_ & _ & _ & -> & -> & _). done. }
  change (10 =? 16) with false. cbv iota.
  rewrite (span_all _ _ H). unfold numeral_value.
  change (String.eqb (String c r) EmptyString) with false. cbv iota.
  f_equal. lia.
Qed.

Lemma numeral_value_nonneg p :
  Forall (λ c, is_digit c = true) (list_ascii_of_string p) → 0 ≤ numeral_value p.
Proof.
  unfold numeral_value, JsNumber.digits_value.
  assert (∀ l acc, Forall (λ c, is_digit c = true) l → 0 ≤ acc →
            0 ≤ foldl (λ acc c, acc * 10 + JsNumber.decimal_digit c) acc l) as G.
  { induction l as [|c l IH]; simpl; intros acc H Hacc; [done|].
    inversion_clear H as [|? ? Hc Hl]. apply IH; [done|].
    destruct (digit_facts c Hc) as (_ & _ & _ & _ & _ & ?). lia. }
  intros H. by apply G.
Qed.

End StringFacts.


(** ** The date parser *)

Module DateFacts.
Import JsDate CalendarFacts StringFacts.

(** Through a zone whose offsets are below a day, a local time comes
    back less than two days off. *)
Lemma zone_within tza x :
  zone_offset tza →
  x - 2 * msPerDay < LocalTime tza (UTC tza x) < x + 2 * msPerDay.
Proof.
  intros Z. unfold LocalTime, UTC.
  pose proof (Z x false). pose proof (Z (x - tza x false) true).
  unfold msPerDay in *. lia.
Qed.

Lemma Day_within tza day :
  zone_offset tza →
  day - 2 ≤ Day (LocalTime tza (UTC tza (day * msPerDay))) ≤ day + 1.
Proof.
  intros Z. pose proof (zone_within tza (day * msPerDay) Z) as W.
  set (v := LocalTime tza (UTC tza (day * msPerDay))) in *. clearbody v.
  unfold Day, msPerDay in *. Z.div_mod_to_equations. lia.
Qed.

(** A zone of one offset has every day. *)
Lemma fixed_zone_has_day offset day : zone_has_day (fixed_zone offset) day.
Proof.
  unfold zone_has_day, Day, LocalTime, UTC, fixed_zone.
  replace (day * msPerDay - offset + offset) with (day * msPerDay) by lia.
  by apply Z.div_mul.
Qed.

Lemma fixed_zone_offset offset :
  Z.abs offset < msPerDay → zone_offset (fixed_zone offset).
Proof. intros H t isUTC. exact H. Qed.

Lemma MakeDay_in_year yr m0 dt :
  0 ≤ m0 ≤ 11 →
  MakeDay yr m0 dt = DayFromYear yr + monthStart (InLeapYear yr) m0 + dt - 1.
Proof.
  intros Hm. unfold MakeDay.
  replace (m0 / 12) with 0 by (symmetry; apply Z.div_small; lia).
  replace (m0 mod 12) with m0 by (symmetry; apply Z.mod_small; lia).
  by replace (yr + 0) with yr by lia.
Qed.

Lemma monthStart_range leap m : 0 ≤ m ≤ 11 → 0 ≤ monthStart leap m ≤ 335.
Proof.
  intros H.
  assert (m = 0 ∨ m = 1 ∨ m = 2 ∨ m = 3 ∨ m = 4 ∨ m = 5 ∨ m = 6 ∨ m = 7
          ∨ m = 8 ∨ m = 9 ∨ m = 10 ∨ m = 11) as C by lia.
  destruct leap; repeat destruct C as [->|C]; try subst m; simpl; lia.
Qed.

(** The instant that [new Date(y, m0, dt)] stands for, when it is a
    valid date. *)
Lemma construct_fields tza y m0 dt t :
  construct tza (Some y) (Some m0) (Some dt) = Some t →
  let day := MakeDay (if (0 <=? y) && (y <=? 99) then 1900 + y else y) m0 dt in
  t = UTC tza (day * msPerDay) ∧ Z.abs t ≤ maxTime.
Proof.
  intros H day. unfold construct, TimeClip, MakeDate in H. fold day in H.
  change (MakeTime 0 0 0 0) with 0 in H. rewrite Z.add_0_r in H.
  destruct (Z.leb_spec (Z.abs (UTC tza (day * msPerDay))) maxTime) as [L|L]; [|done].
  by injection H as <-.
Qed.

(** A date of the calendar, from the year 100 on and within the range of
    time values, is what [new Date] makes of its fields. *)
Lemma construct_valid tza y m0 dt :
  valid_calendar_date y (m0 + 1) dt → 100 ≤ y →
  Z.abs (UTC tza (day_number y (m0 + 1) dt * msPerDay)) ≤ maxTime →
  construct tza (Some y) (Some m0) (Some dt)
  = Some (UTC tza (day_number y (m0 + 1) dt * msPerDay)).
Proof.
  intros [Hm Hd] Hy R. unfold construct.
  replace (y <=? 99) with false by (symmetry; apply Z.leb_gt; lia).
  rewrite andb_false_r, MakeDay_in_year by lia.
  assert (DayFromYear y + monthStart (InLeapYear y) m0 + dt - 1
          = day_number y (m0 + 1) dt) as ->.
  { unfold day_number. rewrite <- monthStart_days_before by lia.
    by replace (m0 + 1 - 1) with m0 by lia. }
  change (MakeTime 0 0 0 0) with 0. unfold MakeDate, TimeClip.
  rewrite Z.add_0_r.
  by destruct (Z.leb_spec (Z.abs (UTC tza (day_number y (m0 + 1) dt * msPerDay))) maxTime);
    [|lia].
Qed.

(** What the echo test of [parseDate] shows in every zone: the fields
    are a date of the calendar, and the constructed instant is, in local
    time, a time of that day. *)
Lemma echo_fields tza y m0 dt :
  let date := construct tza (Some y) (Some m0) (Some dt) in
  JsNumber.strict_eq (getFullYear tza date) (Some y)
  && JsNumber.strict_eq (getMonth tza date) (Some m0)
  && JsNumber.strict_eq (getDate tza date) (Some dt) = true →
  ∃ t, date = Some t
       ∧ valid_calendar_date y (m0 + 1) dt
       ∧ Day (LocalTime tza t) = day_number y (m0 + 1) dt.
Proof.
  intros date H. apply andb_prop in H as [H H3]. apply andb_prop in H as [H1 H2].
  destruct date as [t|] eqn:E; [|done]. exists t. split; [done|].
  unfold getFullYear, getMonth, getDate, YearFromTime, MonthFromTime,
    DateFromTime in H1, H2, H3.
  cbn [fmap option_fmap option_map] in H1, H2, H3.
  set (day := Day (LocalTime tza t)) in *.
  simpl in H1, H2, H3. apply Z.eqb_eq in H1, H2, H3.
  pose proof (fields_valid day) as V. rewrite H1, H2, H3 in V.
  split; [exact V|].
  pose proof (MonthFromDay_spec day) as [Rm _]. rewrite H2 in Rm.
  unfold day_number. rewrite <- monthStart_days_before by lia.
  replace (m0 + 1 - 1) with m0 by lia.
  unfold DateFromDay in H3. rewrite H1, H2 in H3. lia.
Qed.

(** The echo test of [parseDate], in terms of the calendar. *)
Lemma echo_iff tza y m0 dt :
  zone_offset tza → 0 ≤ y →
  let date := construct tza (Some y) (Some m0) (Some dt) in
  JsNumber.strict_eq (getFullYear tza date) (Some y)
  && JsNumber.strict_eq (getMonth tza date) (Some m0)
  && JsNumber.strict_eq (getDate tza date) (Some dt) = true
  ↔ valid_calendar_date y (m0 + 1) dt ∧ 100 ≤ y
    ∧ Z.abs (UTC tza (day_number y (m0 + 1) dt * msPerDay)) ≤ maxTime
    ∧ zone_has_day tza (day_number y (m0 + 1) dt).
Proof.
  intros Z Hy date. split.
  - intros H. destruct (echo_fields tza y m0 dt H) as (t & E & V & D).
    fold date in E.
    destruct (construct_fields _ _ _ _ _ E) as (T & R).
    set (day := MakeDay _ m0 dt) in *.
    pose proof V as [Vm _].
    assert (0 ≤ m0 ≤ 11) as Rm by lia.
    pose proof (Day_within tza day Z) as W. rewrite <- T, D in W.
    assert (100 ≤ y) as Y100.
    { destruct (Z.leb_spec y 99) as [L|L]; [|lia].
      pose proof (MakeDay_in_year (1900 + y) m0 dt Rm) as MD.
      subst day.
      replace (0 <=? y) with true in * by (symmetry; apply Z.leb_le; lia).
      simpl in *. rewrite MD in W.
      unfold day_number in W. rewrite <- monthStart_days_before in W by lia.
      replace (m0 + 1 - 1) with m0 in W by lia.
      pose proof (monthStart_range (InLeapYear (1900 + y)) m0 Rm).
      pose proof (monthStart_range (InLeapYear y) m0 Rm).
      pose proof (DayFromYear_lt y (y + 1) ltac:(lia)).
      pose proof (DayFromYear_lt (y + 1) (1900 + y) ltac:(lia)). lia. }
    assert (day = day_number y (m0 + 1) dt) as Dn.
    { subst day.
      replace (y <=? 99) with false by (symmetry; apply Z.leb_gt; lia).
      rewrite andb_false_r, MakeDay_in_year by lia.
      unfold day_number. rewrite <- monthStart_days_before by lia.
      by replace (m0 + 1 - 1) with m0 by lia. }
    rewrite Dn in T. split; [done|]. split; [done|].
    split; [by rewrite <- T|]. unfold zone_has_day. by rewrite <- T.
  - intros (V & Y100 & R & K). subst date.
    rewrite (construct_valid tza y m0 dt V Y100 R).
    unfold getFullYear, getMonth, getDate, JsNumber.strict_eq.
    cbn [fmap option_fmap option_map].
    unfold YearFromTime, MonthFromTime, DateFromTime.
    unfold zone_has_day in K. rewrite K.
    destruct (fields_of_day_number _ _ _ V) as (-> & -> & ->).
    replace (m0 + 1 - 1) with m0 by lia.
    by rewrite !Z.eqb_refl.
Qed.

Lemma numeric_digits p :
  Forall (λ c, JsString.is_digit c = true) (list_ascii_of_string p) →
  (numeric p ↔ p ≠ EmptyString).
Proof. unfold numeric. tauto. Qed.

Lemma date_parts_digits raw :
  Forall (λ p, Forall (λ c, JsString.is_digit c = true) (list_ascii_of_string p))
    (JsString.split is_date_separator (JsString.keep_chars is_date_char raw)).
Proof.
  eapply Forall_impl;
    [apply (split_Forall (λ c, is_date_char c = true)); apply keep_chars_Forall|].
  intros p Hp. eapply Forall_impl; [exact Hp|].
  intros c [Hc Hs]. unfold is_date_char in Hc. rewrite Hs in Hc.
  by rewrite orb_false_r in Hc.
Qed.

Lemma parseInt_part p :
  Forall (λ c, JsString.is_digit c = true) (list_ascii_of_string p) →
  (JsNumber.parseInt p = None ∧ ¬ numeric p)
  ∨ (JsNumber.parseInt p = Some (numeral_value p) ∧ numeric p ∧ 0 ≤ numeral_value p).
Proof.
  intros H. rewrite (parseInt_digits p H).
  destruct (String.eqb_spec p EmptyString) as [->|N].
  - left. split; [done|]. by intros [? _].
  - right. split; [done|]. split; [done|]. by apply numeral_value_nonneg.
Qed.

(** The three parts of a string that the parser reads, and the check
    that it runs on the fields the layout picks from them. *)
Lemma parseDate_parts tza raw l :
  parseDate tza raw (layout_format l)
  = match JsString.split is_date_separator (JsString.keep_chars is_date_char raw) with
    | [p0; p1; p2] =>
        let '(y, m, d) := match l with
                          | YMD => (p0, p1, p2)
                          | MDY => (p2, p0, p1)
                          | DMY => (p2, p1, p0)
                          end in
        let year := JsNumber.parseInt y in
        let month := minus_one (JsNumber.parseInt m) in
        let day := JsNumber.parseInt d in
        let date := construct tza year month day in
        if JsNumber.strict_eq (getFullYear tza date) year
           && JsNumber.strict_eq (getMonth tza date) month
           && JsNumber.strict_eq (getDate tza date) day
        then date else None
    | _ => None
    end.
Proof.
  unfold parseDate.
  destruct (JsString.split is_date_separator (JsString.keep_chars is_date_char raw))
    as [|p0 [|p1 [|p2 [|p3 ps]]]]; try done.
  by destruct l.
Qed.

(** In every zone, a string that [parseDate] takes has three numeric
    parts that the layout reads as a date of the calendar, and the date
    returned is, in local time, a time of that day. *)
Lemma parseDate_calendar tza raw l t :
  parseDate tza raw (layout_format l) = Some t →
  ∃ p0 p1 p2,
    JsString.split is_date_separator (JsString.keep_chars is_date_char raw)
    = [p0; p1; p2]
    ∧ numeric p0 ∧ numeric p1 ∧ numeric p2
    ∧ ∃ y m d,
        assign l p0 p1 p2 = (y, m, d)
        ∧ valid_calendar_date y m d
        ∧ Day (LocalTime tza t) = day_number y m d
        ∧ Z.abs t ≤ maxTime.
Proof.
  rewrite parseDate_parts.
  pose proof (date_parts_digits raw) as Dg.
  destruct (JsString.split is_date_separator (JsString.keep_chars is_date_char raw))
    as [|p0 [|p1 [|p2 [|p3 ps]]]] eqn:E; try done.
  inversion_clear Dg as [|? ? D0 Dg']. inversion_clear Dg' as [|? ? D1 Dg''].
  inversion_clear Dg'' as [|? ? D2 _].
  assert (∀ (y m d : string) ,
    Forall (λ c, JsString.is_digit c = true) (list_ascii_of_string y) →
    Forall (λ c, JsString.is_digit c = true) (list_ascii_of_string m) →
    Forall (λ c, JsString.is_digit c = true) (list_ascii_of_string d) →
    (let year := JsNumber.parseInt y in
     let month := minus_one (JsNumber.parseInt m) in
     let day := JsNumber.parseInt d in
     let date := construct tza year month day in
     (if JsNumber.strict_eq (getFullYear tza date) year
         && JsNumber.strict_eq (getMonth tza date) month
         && JsNumber.strict_eq (getDate tza date) day
      then date else None) = Some t)
    → numeric y ∧ numeric m ∧ numeric d
      ∧ valid_calendar_date (numeral_value y) (numeral_value m) (numeral_value d)
      ∧ Day (LocalTime tza t)
        = day_number (numeral_value y) (numeral_value m) (numeral_value d)
      ∧ Z.abs t ≤ maxTime) as Core.
  { intros y m d Dy Dm Dd.
    destruct (parseInt_part y Dy) as [[-> Ny]|(-> & Ny & Py)]; [done|].
    destruct (parseInt_part m Dm) as [[-> Nm]|(-> & Nm & Pm)]; [done|].
    destruct (parseInt_part d Dd) as [[-> Nd]|(-> & Nd & Pd)];
      [simpl; rewrite ?andb_false_r; done|].
    cbn zeta. unfold minus_one. simpl fmap.
    pose proof (echo_fields tza (numeral_value y) (numeral_value m - 1)
                  (numeral_value d)) as EF.
    cbn zeta in EF.
    replace (numeral_value m - 1 + 1) with (numeral_value m) in EF by lia.
    destruct (_ && _) eqn:B; [|done].
    destruct (EF eq_refl) as (t' & C & V & D). rewrite C. intros [= <-].
    destruct (construct_fields _ _ _ _ _ C) as [_ R]. done. }
  intros H. exists p0, p1, p2. split; [done|].
  destruct l; cbv beta iota zeta in H.
  - destruct (Core p0 p1 p2 D0 D1 D2 H) as (N0 & N1 & N2 & V & D & R).
    repeat (split; [done|]).
    by exists (numeral_value p0), (numeral_value p1), (numeral_value p2).
  - destruct (Core p2 p0 p1 D2 D0 D1 H) as (N2 & N0 & N1 & V & D & R).
    repeat (split; [done|]).
    by exists (numeral_value p2), (numeral_value p0), (numeral_value p1).
  - destruct (Core p2 p1 p0 D2 D1 D0 H) as (N2 & N1 & N0 & V & D & R).
    repeat (split; [done|]).
    by exists (numeral_value p2), (numeral_value p1), (numeral_value p0).
Qed.

(** In a zone whose offsets are below a day, [parseDate] returns a date
    exactly for the strings of [parses_as]. *)
Lemma parseDate_iff tza raw l t :
  zone_offset tza →
  parseDate tza raw (layout_format l) = Some t ↔ parses_as tza l raw t.
Proof.
  intros Z. rewrite parseDate_parts. unfold parses_as.
  pose proof (date_parts_digits raw) as Dg.
  destruct (JsString.split is_date_separator (JsString.keep_chars is_date_char raw))
    as [|p0 [|p1 [|p2 [|p3 ps]]]] eqn:E;
    try (split; [done|by intros (? & ? & ? & ? & _)]).
  inversion_clear Dg as [|? ? D0 Dg']. inversion_clear Dg' as [|? ? D1 Dg''].
  inversion_clear Dg'' as [|? ? D2 _].
  assert (∀ (y m d : string) ,
    Forall (λ c, JsString.is_digit c = true) (list_ascii_of_string y) →
    Forall (λ c, JsString.is_digit c = true) (list_ascii_of_string m) →
    Forall (λ c, JsString.is_digit c = true) (list_ascii_of_string d) →
    (let year := JsNumber.parseInt y in
     let month := minus_one (JsNumber.parseInt m) in
     let day := JsNumber.parseInt d in
     let date := construct tza year month day in
     (if JsNumber.strict_eq (getFullYear tza date) year
         && JsNumber.strict_eq (getMonth tza date) month
         && JsNumber.strict_eq (getDate tza date) day
      then date else None) = Some t)
    ↔ numeric y ∧ numeric m ∧ numeric d
      ∧ valid_calendar_date (numeral_value y) (numeral_value m) (numeral_value d)
      ∧ 100 ≤ numeral_value y
      ∧ t = UTC tza (day_number (numeral_value y) (numeral_value m) (numeral_value d)
                     * msPerDay)
      ∧ Z.abs t ≤ maxTime
      ∧ zone_has_day tza
          (day_number (numeral_value y) (numeral_value m) (numeral_value d))) as Core.
  { intros y m d Dy Dm Dd.
    destruct (parseInt_part y Dy) as [[-> Ny]|(-> & Ny & Py)];
      [split; [done|tauto]|].
    destruct (parseInt_part m Dm) as [[-> Nm]|(-> & Nm & Pm)];
      [split; [done|tauto]|].
    destruct (parseInt_part d Dd) as [[-> Nd]|(-> & Nd & Pd)];
      [split; [simpl; rewrite ?andb_false_r; done|tauto]|].
    cbn zeta. unfold minus_one. simpl fmap.
    pose proof (echo_iff tza (numeral_value y) (numeral_value m - 1) (numeral_value d)
                  Z Py) as EI.
    cbn zeta in EI.
    replace (numeral_value m - 1 + 1) with (numeral_value m) in EI by lia.
    pose proof (construct_valid tza (numeral_value y) (numeral_value m - 1)
                  (numeral_value d)) as CV.
    replace (numeral_value m - 1 + 1) with (numeral_value m) in CV by lia.
    destruct (_ && _) eqn:B.
    - destruct (proj1 EI eq_refl) as (V & Y100 & R & K).
      rewrite (CV V Y100 R). split.
      + intros [= <-]. done.
      + intros (_ & _ & _ & _ & _ & -> & _). done.
    - split; [done|]. intros (_ & _ & _ & V & Y100 & -> & R & K).
      assert (false = true) by (apply EI; done). done. }
  destruct l; cbv beta iota zeta.
  - rewrite (Core p0 p1 p2 D0 D1 D2). split.
    + intros (N0 & N1 & N2 & V & Y & T & R).
      exists p0, p1, p2. repeat (split; [done|]).
      by exists (numeral_value p0), (numeral_value p1), (numeral_value p2).
    + intros (q0 & q1 & q2 & [= <- <- <-] & N0 & N1 & N2 & y & m & d & [= <- <- <-] & ?).
      tauto.
  - rewrite (Core p2 p0 p1 D2 D0 D1). split.
    + intros (N2 & N0 & N1 & V & Y & T & R).
      exists p0, p1, p2. repeat (split; [done|]).
      by exists (numeral_value p2), (numeral_value p0), (numeral_value p1).
    + intros (q0 & q1 & q2 & [= <- <- <-] & N0 & N1 & N2 & y & m & d & [= <- <- <-] & ?).
      tauto.
  - rewrite (Core p2 p1 p0 D2 D1 D0). split.
    + intros (N2 & N1 & N0 & V & Y & T & R).
      exists p0, p1, p2. repeat (split; [done|]).
      by exists (numeral_value p2), (numeral_value p1), (numeral_value p0).
    + intros (q0 & q1 & q2 & [= <- <- <-] & N0 & N1 & N2 & y & m & d & [= <- <- <-] & ?).
      tauto.
Qed.

(** Any other format string takes the [default] branch. *)
Lemma parseDate_unknown_format tza raw format :
  format ≠ "YYYY-MM-DD" → format ≠ "MM/DD/YYYY" → format ≠ "DD/MM/YYYY" →
  parseDate tza raw format = None.
Proof.
  intros N1 N2 N3. unfold parseDate, date_fields.
  apply String.eqb_neq in N1, N2, N3. rewrite N1, N2, N3.
  by repeat case_match.
Qed.

End DateFacts.

(** C2. Date parser. [parseDate] is a total function. On every host, a
    string that it takes is one that, once every character other than a
    digit or one of the separators [/], [-], [.] is removed, splits on the
    separators into three numeric parts that the layout reads as a date of
    the calendar, and the date returned is, in the local time of the host,
    a time of that very day: a rolled-over day such as 30 February is
    refused. When the offsets of the host's zone are below a day, the
    strings taken are exactly those that read as a date of the calendar
    from the year 100 on, within the range of time values, that the zone
    of the host has; the date returned is the instant of local midnight
    of that day. In particular ["2024-02-30"] under YMD is refused,
    ["2024-02-29"] under YMD is accepted where the zone has that day, and
    ["02/29/2023"] under MDY is refused. *)
Theorem parseDate_correct (tza : JsDate.TimeZone) (raw : string) (l : Layout) :
  (∀ t, parseDate tza raw (layout_format l) = Some t →
        ∃ y m d, reads_as l raw y m d
                 ∧ valid_calendar_date y m d
                 ∧ JsDate.Day (JsDate.LocalTime tza t) = day_number y m d
                 ∧ Z.abs t ≤ JsDate.maxTime)
  ∧ (zone_offset tza →
     (∀ t, parseDate tza raw (layout_format l) = Some t ↔ parses_as tza l raw t)
     ∧ (parseDate tza raw (layout_format l) = None ↔ ¬ ∃ t, parses_as tza l raw t))
  ∧ parseDate tza "2024-02-30" (layout_format YMD) = None
  ∧ (zone_offset tza → zone_has_day tza (day_number 2024 2 29) →
     parseDate tza "2024-02-29" (layout_format YMD)
     = Some (JsDate.UTC tza (day_number 2024 2 29 * JsDate.msPerDay)))
  ∧ parseDate tza "02/29/2023" (layout_format MDY) = None.
Proof.
  assert (∀ r l' t, parseDate tza r (layout_format l') = Some t →
            ∃ y m d, reads_as l' r y m d
                     ∧ valid_calendar_date y m d
                     ∧ JsDate.Day (JsDate.LocalTime tza t) = day_number y m d
                     ∧ Z.abs t ≤ JsDate.maxTime) as Cal.
  { intros r l' t P.
    destruct (DateFacts.parseDate_calendar tza r l' t P)
      as (p0 & p1 & p2 & S & N0 & N1 & N2 & y & m & d & A & V & D & R).
    exists y, m, d. split; [by exists p0, p1, p2|done]. }
  split; [apply Cal|].
  split; [|split; [|split]].
  - intros Z. split; [intros t; by apply DateFacts.parseDate_iff|]. split.
    + intros N [t P]. apply DateFacts.parseDate_iff in P; [congruence|done].
    + intros N. destruct (parseDate tza raw (layout_format l)) as [t|] eqn:E; [|done].
      exfalso. apply N. exists t. by apply DateFacts.parseDate_iff.
  - destruct (parseDate tza "2024-02-30" (layout_format YMD)) as [t|] eqn:E; [|done].
    exfalso.
    destruct (Cal _ _ _ E) as (y & m & d & (p0 & p1 & p2 & S & _ & _ & _ & A) & V & _).
    vm_compute in S. injection S as <- <- <-.
    vm_compute in A. injection A as <- <- <-.
    destruct V as [_ [_ V]]. vm_compute in V. by apply V.
  - intros Z K. apply DateFacts.parseDate_iff; [done|].
    exists "2024", "02", "29". split; [reflexivity|].
    repeat (split; [split; [done|repeat constructor]|]).
    exists 2024, 2, 29. split; [reflexivity|].
    split; [split; vm_compute; split; discriminate|].
    split; [vm_compute; discriminate|].
    split; [done|]. split; [|exact K].
    change (day_number 2024 2 29) with 19782.
    unfold JsDate.UTC. pose proof (Z (19782 * JsDate.msPerDay) false) as B.
    revert B. clear. unfold JsDate.msPerDay, JsDate.maxTime. lia.
  - destruct (parseDate tza "02/29/2023" (layout_format MDY)) as [t|] eqn:E; [|done].
    exfalso.
    destruct (Cal _ _ _ E) as (y & m & d & (p0 & p1 & p2 & S & _ & _ & _ & A) & V & _).
    vm_compute in S. injection S as <- <- <-.
    vm_compute in A. injection A as <- <- <-.
    destruct V as [_ [_ V]]. vm_compute in V. by apply V.
Qed.

Lemma parseDate_correct_witness :
  zone_offset summerTimeZone
  ∧ zone_has_day summerTimeZone (day_number 2024 2 29)
  ∧ parses_as summerTimeZone DMY "05.07.2024 " 1720134000000
  ∧ parseDate summerTimeZone "2024-02-29" "YYYY-MM-DD" = Some 1709164800000.
Proof.
  assert (zone_offset summerTimeZone) as Z.
  { intros t isUTC. unfold summerTimeZone, JsDate.one_transition.
    destruct isUTC; case_match; vm_compute; reflexivity. }
  assert (zone_has_day summerTimeZone (day_number 2024 2 29)) as K
    by (vm_compute; reflexivity).
  destruct (parseDate_correct summerTimeZone "05.07.2024 " DMY)
    as (_ & Iff & _ & Leap & _).
  split; [exact Z|]. split; [exact K|]. split.
  - apply (Iff Z). vm_compute. reflexivity.
  - exact (Leap Z K).
Defined.


(** ** The tokenizer *)

Module TokenizerFacts.
Import JsString.

Lemma trimStart_empty s :
  trimStart s = EmptyString ↔ Forall (λ c, is_space c = true) (list_ascii_of_string s).
Proof.
  induction s as [|c r IH]; simpl; [by split; [constructor|]|].
  destruct (is_space c) eqn:S.
  - rewrite IH. split; [by constructor|by inversion 1].
  - split; [done|]. inversion 1; congruence.
Qed.

Lemma trimEnd_nonspace c r : is_space c = false → trimEnd (String c r) ≠ EmptyString.
Proof. intros S. simpl. rewrite S. by destruct (trimEnd r). Qed.

Lemma trimStart_head s :
  trimStart s = EmptyString ∨ ∃ c r, trimStart s = String c r ∧ is_space c = false.
Proof.
  induction s as [|c r IH]; simpl; [by left|].
  destruct (is_space c) eqn:S; [done|]. right. by exists c, r.
Qed.

(** A line is blank exactly when it holds nothing but white space. *)
Lemma is_blank_spec line :
  is_blank line = true ↔ Forall (λ c, is_space c = true) (list_ascii_of_string line).
Proof.
  unfold is_blank, trim. rewrite String.eqb_eq, <- trimStart_empty.
  destruct (trimStart_head line) as [->|(c & r & -> & S)]; [done|].
  split; [|done]. intros E. by apply trimEnd_nonspace in E.
Qed.

Lemma filter_same_width_length headers (rows : list (list string)) :
  Forall (λ row, length row = length headers) rows →
  List.filter (same_width headers) rows = rows.
Proof.
  induction 1 as [|row rows H _ IH]; simpl; [done|].
  unfold same_width at 1. rewrite H, Nat.eqb_refl. by rewrite IH.
Qed.

Lemma filter_same_width_Forall headers (rows : list (list string)) :
  Forall (λ row, length row = length headers) (List.filter (same_width headers) rows).
Proof.
  apply List.Forall_forall. intros row [_ W]%List.filter_In.
  by apply Nat.eqb_eq in W.
Qed.

Lemma trimEnd_idem s : trimEnd (trimEnd s) = trimEnd s.
Proof.
  induction s as [|c r IH]; simpl; [done|].
  destruct (trimEnd r) as [|c' r'] eqn:E.
  - destruct (is_space c) eqn:S; simpl; [done|]. by rewrite S.
  - cbn [trimEnd] in *. fold trimEnd in *. by rewrite IH.
Qed.

Lemma trim_idem s : trim (trim s) = trim s.
Proof.
  unfold trim. destruct (trimStart_head s) as [->|(c & r & -> & S)]; [done|].
  assert (∃ r', trimEnd (String c r) = String c r') as [r' E].
  { simpl. rewrite S. destruct (trimEnd r); eauto. }
  rewrite E. simpl trimStart. rewrite S, <- E. apply trimEnd_idem.
Qed.

Lemma trimStart_quote_free s : quote_free s → quote_free (trimStart s).
Proof.
  unfold quote_free. induction s as [|c r IH]; simpl; [done|].
  intros H. destruct (is_space c); [|done]. inversion_clear H. by apply IH.
Qed.

Lemma trimEnd_quote_free s : quote_free s → quote_free (trimEnd s).
Proof.
  unfold quote_free. induction s as [|c r IH]; simpl; [done|].
  intros H. inversion_clear H as [|? ? Hc Hr]. specialize (IH Hr).
  destruct (trimEnd r); [|by constructor].
  destruct (is_space c); [constructor|by repeat constructor].
Qed.

Lemma strip_outer_quotes_quote_free s : quote_free s → strip_outer_quotes s = s.
Proof.
  unfold quote_free, strip_outer_quotes. intros H.
  assert (drop_last_quote s = s) as D.
  { induction s as [|c r IH]; simpl; [done|].
    inversion_clear H as [|? ? Hc Hr]. rewrite Hc.
    destruct r; [done|]. by rewrite IH. }
  destruct s as [|c r]; [done|]. inversion_clear H as [|? ? Hc Hr].
  by rewrite Hc.
Qed.

Lemma append_nil_r s : s +:+ EmptyString = s.
Proof.
  induction s as [|c r IH]; [done|].
  change (String c (r +:+ EmptyString) = String c r). by rewrite IH.
Qed.

Lemma append_assoc a b c : (a +:+ b) +:+ c = a +:+ (b +:+ c).
Proof.
  induction a as [|x a IH]; [done|].
  change (String x ((a +:+ b) +:+ c) = String x (a +:+ (b +:+ c))). by rewrite IH.
Qed.

(** The loop on a line without double quotes: the fields are the pieces
    between the commas, trimmed. *)
Lemma parseCsvLine_loop_unquoted line :
  quote_free line →
  ∀ result current,
    parseCsvLine_loop line result current false
    = result ++ match split (Ascii.eqb comma) line with
                | p :: ps => trim (current +:+ p) :: (trim <$> ps)
                | [] => []
                end.
Proof.
  unfold quote_free. induction line as [|c rest IH]; intros Q result current; simpl.
  - by rewrite append_nil_r.
  - inversion_clear Q as [|? ? Qc Qr]. specialize (IH Qr). rewrite Qc.
    pose proof (StringFacts.split_not_nil (Ascii.eqb comma) rest) as NE.
    rewrite (Ascii.eqb_sym comma c).
    destruct (Ascii.eqb c comma); simpl.
    + rewrite IH, <- app_assoc, append_nil_r. simpl.
      by destruct (split (Ascii.eqb comma) rest).
    + rewrite IH. destruct (split (Ascii.eqb comma) rest) as [|p ps]; [done|].
      by rewrite append_assoc.
Qed.

Lemma split_quote_free sep line :
  quote_free line → Forall quote_free (split sep line).
Proof.
  intros Q. eapply Forall_impl;
    [apply (StringFacts.split_Forall (λ c, Ascii.eqb c quote = false)); exact Q|].
  intros p Hp. eapply Forall_impl; [exact Hp|]. by intros c [? _].
Qed.

(** A line without double quotes is split on its commas and each field
    is trimmed. *)
Lemma parseCsvLine_unquoted line :
  quote_free line →
  parseCsvLine line = trim <$> split (Ascii.eqb comma) line.
Proof.
  intros Q. unfold parseCsvLine.
  rewrite (parseCsvLine_loop_unquoted line Q), app_nil_l.
  pose proof (split_quote_free (Ascii.eqb comma) line Q) as F.
  destruct (split (Ascii.eqb comma) line) as [|p ps]; [done|].
  change (trim (EmptyString +:+ p) :: (trim <$> ps)) with (trim <$> (p :: ps)).
  rewrite <- list_fmap_compose. apply Forall_fmap_ext_1.
  eapply Forall_impl; [exact F|]. intros f Hf. simpl.
  rewrite strip_outer_quotes_quote_free.
  - apply trim_idem.
  - unfold trim. by apply trimEnd_quote_free, trimStart_quote_free.
Qed.

End TokenizerFacts.

(** C4. Tokenizer: [parseRawCSV] throws exactly when the text has fewer
    than two non-blank lines (lines holding something other than white
    space). Otherwise it returns the first non-blank line parsed as the
    header row, and of the later non-blank lines, parsed, exactly those
    with as many fields as the header row, in their order. So every row
    returned is as wide as the headers, and when every data line is that
    wide each of them is returned: as many rows as data lines. *)
Theorem parseRawCSV_contract (text : string) :
  let lines := nonblank_lines text in
  (∀ line, line ∈ lines ↔
     line ∈ JsString.split (Ascii.eqb JsString.newline) text
     ∧ ¬ Forall (λ c, JsString.is_space c = true) (list_ascii_of_string line))
  ∧ ((∃ m, parseRawCSV text = Throw m) ↔ (length lines < 2)%nat)
  ∧ ((2 ≤ length lines)%nat ↔
     ∃ headerLine dataLines,
       lines = headerLine :: dataLines
       ∧ let headers := parseCsvLine headerLine in
         let data := List.filter (same_width headers) (parseCsvLine <$> dataLines) in
         parseRawCSV text = Ok (headers, data)
         ∧ Forall (λ row, length row = length headers) data
         ∧ (length data ≤ length dataLines)%nat
         ∧ (Forall (λ line, length (parseCsvLine line) = length headers) dataLines →
            data = parseCsvLine <$> dataLines ∧ length data = length dataLines)).
Proof.
  intros lines. split; [|split].
  - intros line. subst lines. unfold nonblank_lines.
    rewrite list_elem_of_In, List.filter_In, <- list_elem_of_In.
    rewrite negb_true_iff, <- not_true_iff_false, TokenizerFacts.is_blank_spec. done.
  - unfold parseRawCSV. fold lines.
    destruct lines as [|l0 [|l1 ls]]; simpl.
    + split; [lia|]. eauto.
    + split; [lia|]. eauto.
    + split; [by intros [m ?]|lia].
  - unfold parseRawCSV. fold lines.
    destruct lines as [|l0 [|l1 ls]] eqn:E; simpl length.
    + split; [lia|]. by intros (? & ? & ? & _).
    + split; [lia|]. intros (h & d & [= <- <-] & C & _). done.
    + split; [|lia]. intros _. exists l0, (l1 :: ls). split; [done|].
      cbn zeta. split; [done|].
      split; [apply TokenizerFacts.filter_same_width_Forall|].
      split.
      * etransitivity; [apply List.filter_length_le|]. by rewrite length_fmap.
      * intros W. rewrite TokenizerFacts.filter_same_width_length.
        -- by rewrite length_fmap.
        -- by apply Forall_fmap.
Qed.


(** ** The header matcher *)

Module MatcherFacts.
Import JsString.

Lemma strip_prefix_spec p s r : strip_prefix p s = Some r ↔ s = p +:+ r.
Proof.
  revert s. induction p as [|a p IH]; intros s; simpl.
  - split; [by intros [= ->]|by intros ->].
  - destruct s as [|b s]; [done|].
    destruct (Ascii.eqb_spec a b) as [->|N].
    + rewrite IH. split; [by intros ->|by intros [= ->]].
    + split; [done|]. intros [= ? ?]. done.
Qed.

Lemma startsWith_spec s p : startsWith s p = true ↔ ∃ r, s = p +:+ r.
Proof.
  unfold startsWith. destruct (strip_prefix p s) as [r|] eqn:E.
  - apply strip_prefix_spec in E. split; [eauto|done].
  - split; [done|]. intros [r Hr]. apply strip_prefix_spec in Hr. congruence.
Qed.

Lemma includes_spec s sub : includes s sub = true ↔ occurs_in sub s.
Proof.
  unfold occurs_in. induction s as [|c s IH].
  - simpl. rewrite orb_false_r, startsWith_spec. split.
    + intros [r Hr]. by exists EmptyString, r.
    + intros (b & a & E). destruct b; [by exists a|done].
  - cbn [includes]. rewrite orb_true_iff, IH, startsWith_spec. split.
    + intros [[r Hr]|(b & a & E)].
      * by exists EmptyString, r.
      * exists (String c b), a. simpl. by rewrite E.
    + intros (b & a & E). destruct b as [|c' b].
      * left. by exists a.
      * right. injection E as -> E. by exists b, a.
Qed.

Lemma find_Some {A} (f : A → bool) l h :
  List.find f l = Some h ↔ first_such (λ x, f x = true) l h.
Proof.
  unfold first_such. induction l as [|x l IH]; simpl.
  - split; [done|]. by intros (i & ? & _).
  - destruct (f x) eqn:F.
    + split.
      * intros [= ->]. exists 0%nat. split; [done|]. split; [done|]. lia.
      * intros ([|i] & L & P & M).
        -- simpl in L. congruence.
        -- exfalso. apply (M 0%nat x); [lia|done|done].
    + rewrite IH. split.
      * intros (i & L & P & M). exists (S i). split; [done|]. split; [done|].
        intros [|j] h' Hj Lj; simpl in Lj.
        -- injection Lj as <-. congruence.
        -- apply (M j); [lia|done].
      * intros ([|i] & L & P & M); simpl in L.
        -- injection L as ->. congruence.
        -- exists i. split; [done|]. split; [done|].
           intros j h' Hj Lj. apply (M (S j)); [lia|done].
Qed.

Lemma find_None {A} (f : A → bool) l :
  List.find f l = None ↔ ∀ x, x ∈ l → f x = false.
Proof.
  induction l as [|x l IH]; simpl.
  - split; [|done]. intros _ x Hx. by apply elem_of_nil in Hx.
  - destruct (f x) eqn:F.
    + split; [done|]. intros H. rewrite H in F; [done|]. by left.
    + rewrite IH. split.
      * intros H y [->|Hy]%elem_of_cons; [done|by apply H].
      * intros H y Hy. apply H. by right.
Qed.

Lemma first_such_unique {A} (P : A → Prop) l h1 h2 :
  first_such P l h1 → first_such P l h2 → h1 = h2.
Proof.
  intros (i & L1 & P1 & M1) (j & L2 & P2 & M2).
  destruct (Nat.lt_trichotomy i j) as [L|[->|L]].
  - exfalso. by apply (M2 i h1).
  - congruence.
  - exfalso. by apply (M1 j h2).
Qed.

Lemma is_exact_spec nt h : is_exact nt h = true ↔ exact_match nt h.
Proof. unfold is_exact, exact_match. apply String.eqb_eq. Qed.

Lemma is_partial_spec nt h : is_partial nt h = true ↔ partial_match nt h.
Proof.
  unfold is_partial, partial_match. by rewrite orb_true_iff, !includes_spec.
Qed.

Lemma first_such_iff {A} (P Q : A → Prop) l h :
  (∀ x, P x ↔ Q x) → first_such P l h ↔ first_such Q l h.
Proof.
  intros E. unfold first_such. split; intros (i & L & p & M); exists i;
    (split; [done|]); (split; [by apply E|]);
    intros j h' Hj Lj Hp; apply (M j h' Hj Lj); by apply E.
Qed.

Lemma truthy_Some s : truthy (Some s) = true ↔ s ≠ EmptyString.
Proof. simpl. rewrite negb_true_iff. apply String.eqb_neq. Qed.

(** What the function returns, tier by tier. *)
Lemma findBestMatchingHeader_cases headers target :
  let nt := normalize target in
  (∃ h, first_such (exact_match nt) headers h ∧ h ≠ EmptyString
        ∧ findBestMatchingHeader headers target = h)
  ∨ ((∀ h, first_such (exact_match nt) headers h → h = EmptyString)
     ∧ ((∃ h, first_such (partial_match nt) headers h
              ∧ findBestMatchingHeader headers target = h)
        ∨ ((∀ h, h ∈ headers → ¬ partial_match nt h)
           ∧ findBestMatchingHeader headers target = EmptyString))).
Proof.
  intros nt. unfold findBestMatchingHeader. fold nt.
  destruct (List.find (is_exact nt) headers) as [h|] eqn:E.
  - apply find_Some in E.
    rewrite (first_such_iff _ (exact_match nt)) in E by apply is_exact_spec.
    destruct (truthy (Some h)) eqn:T.
    + left. exists h. apply truthy_Some in T. done.
    + right. assert (h = EmptyString) as ->.
      { destruct (decide (h = EmptyString)) as [|N]; [done|].
        apply truthy_Some in N. congruence. }
      split; [intros h' H'; by apply (first_such_unique _ _ _ _ H' E)|].
      destruct (List.find (is_partial nt) headers) as [h|] eqn:P.
      * left. exists h. apply find_Some in P.
        rewrite (first_such_iff _ (partial_match nt)) in P by apply is_partial_spec.
        split; [done|]. simpl. by destruct (String.eqb_spec h EmptyString).
      * right. split; [|done]. intros h Hh.
        rewrite <- is_partial_spec. rewrite find_None in P. by rewrite P.
  - right. rewrite find_None in E. split.
    { intros h (i & L & X & _). apply is_exact_spec in X.
      rewrite E in X; [done|]. by eapply list_elem_of_lookup_2. }
    simpl. destruct (List.find (is_partial nt) headers) as [h|] eqn:P.
    + left. exists h. apply find_Some in P.
      rewrite (first_such_iff _ (partial_match nt)) in P by apply is_partial_spec.
      split; [done|]. simpl. by destruct (String.eqb_spec h EmptyString).
    + right. split; [|done]. intros h Hh.
      rewrite <- is_partial_spec. rewrite find_None in P. by rewrite P.
Qed.

End MatcherFacts.

(** C5, as the code has it. The header matcher normalizes by lower-casing
    and removing underscores and white space. It returns the first header
    whose normalized form equals the normalized target, provided that
    header is not the empty string, which is always so when the normalized
    target is not empty; when no header matches exactly, the first header
    whose normalized form contains the normalized target or is contained
    in it; and the empty string when there is none. In particular
    [["Transaction Date"; "Amount"]] and ["date"] give ["Transaction Date"]. *)
Theorem findBestMatchingHeader_tiers (headers : list string) (target : string) :
  let nt := normalize target in
  let result := findBestMatchingHeader headers target in
  (∀ h, first_such (exact_match nt) headers h → h ≠ EmptyString → result = h)
  ∧ (nt ≠ EmptyString → ∀ h, first_such (exact_match nt) headers h → result = h)
  ∧ ((∀ h, h ∈ headers → ¬ exact_match nt h) →
     ∀ h, first_such (partial_match nt) headers h → result = h)
  ∧ ((∀ h, h ∈ headers → ¬ exact_match nt h ∧ ¬ partial_match nt h) →
     result = EmptyString)
  ∧ findBestMatchingHeader ["Transaction Date"; "Amount"] "date" = "Transaction Date".
Proof.
  intros nt result.
  pose proof (MatcherFacts.findBestMatchingHeader_cases headers target) as C.
  fold nt result in C.
  assert (∀ h, first_such (exact_match nt) headers h → h ≠ EmptyString → result = h) as T1.
  { intros h F N. destruct C as [(h' & F' & _ & ->)|[Z _]].
    - by apply (MatcherFacts.first_such_unique _ _ _ _ F' F).
    - by apply Z in F. }
  split; [exact T1|]. split; [|split; [|split]].
  - intros N h F. apply T1; [done|]. intros ->.
    destruct F as (_ & _ & X & _). by vm_compute in X.
  - intros NE h F. destruct C as [(h' & (i & L & X & _) & _)|[_ [(h' & F' & ->)|[NP _]]]].
    + exfalso. apply (NE h'); [by eapply list_elem_of_lookup_2|done].
    + by apply (MatcherFacts.first_such_unique _ _ _ _ F' F).
    + destruct F as (i & L & X & _). exfalso.
      apply (NP h); [by eapply list_elem_of_lookup_2|done].
  - intros NE. destruct C as [(h' & (i & L & X & _) & _)|[_ [(h' & (i & L & X & _) & _)|[_ ->]]]].
    + exfalso. destruct (NE h') as [N1 _]; [by eapply list_elem_of_lookup_2|done].
    + exfalso. destruct (NE h') as [_ N2]; [by eapply list_elem_of_lookup_2|done].
    + done.
  - reflexivity.
Qed.

Lemma findBestMatchingHeader_tiers_witness :
  findBestMatchingHeader ["Amount"; "Trans_Date"; "trans date"] "TransDate" = "Trans_Date".
Proof.
  apply (proj1 (findBestMatchingHeader_tiers ["Amount"; "Trans_Date"; "trans date"] "TransDate")).
  - exists 1%nat. split; [reflexivity|]. split; [reflexivity|].
    intros [|[|j]] h' Hj L; [|lia|lia]. injection L as <-. intros X. vm_compute in X. discriminate X.
  - discriminate.
Defined.

(** C5, as the specification states it, fails when the first header that
    matches exactly is the empty string: with the headers
    [["Amount"; ""]] and the target [""] the second header is the first
    (and only) exact match, yet the first header is returned. *)
Lemma findBestMatchingHeader_skips_empty_exact_match :
  first_such (exact_match (normalize "")) ["Amount"; ""] ""
  ∧ findBestMatchingHeader ["Amount"; ""] "" = "Amount".
Proof.
  split; [|reflexivity].
  exists 1%nat. split; [reflexivity|]. split; [reflexivity|].
  intros [|[|j]] h' Hj L; [|lia|lia]. injection L as <-. intros X. vm_compute in X. discriminate X.
Qed.


(** ** The row mapper *)

Module MapperFacts.

(** Decide the comparisons of string constants in the goal. *)
Ltac string_eqbs :=
  repeat match goal with
         | |- context [String.eqb ?a ?b] =>
             let v := eval vm_compute in (String.eqb a b) in
             change (String.eqb a b) with v
         end;
  cbv iota beta.

Lemma indexOf_range headers x : -1 ≤ indexOf headers x < Z.of_nat (length headers).
Proof.
  induction headers as [|h rest IH]; simpl; [lia|].
  destruct (String.eqb h x); [lia|].
  destruct (Z.ltb_spec (indexOf rest x) 0); lia.
Qed.

(** [indexOf] finds the first position of [x], and -1 only when [x] is
    not in the list. *)
Lemma indexOf_spec headers x :
  (indexOf headers x = -1 ∧ x ∉ headers)
  ∨ (0 ≤ indexOf headers x ∧ first_such (λ h, h = x) headers x
     ∧ headers !! Z.to_nat (indexOf headers x) = Some x).
Proof.
  induction headers as [|h rest IH]; simpl.
  - left. split; [done|]. apply not_elem_of_nil.
  - destruct (String.eqb_spec h x) as [->|N].
    + right. split; [lia|]. split; [|done].
      exists 0%nat. split; [done|]. split; [done|]. lia.
    + destruct IH as [[E NI]|(P & (i & L & _ & M) & L')].
      * left. rewrite E. simpl. split; [done|].
        intros [?|?]%elem_of_cons; congruence.
      * right. destruct (Z.ltb_spec (indexOf rest x) 0); [lia|].
        split; [lia|]. split.
        -- exists (S i). split; [done|]. split; [done|].
           intros [|j] h' Hj Lj; simpl in Lj; [congruence|].
           apply (M j); [lia|done].
        -- replace (Z.to_nat (indexOf rest x + 1)) with (S (Z.to_nat (indexOf rest x)))
             by lia. done.
Qed.

Lemma indexOf_nonneg headers x : 0 ≤ indexOf headers x ↔ x ∈ headers.
Proof.
  destruct (indexOf_spec headers x) as [[E N]|(P & _ & L)].
  - split; [lia|done].
  - split; [|done]. intros _. by eapply list_elem_of_lookup_2.
Qed.

Lemma object_literal_lookup fields k :
  object_literal fields !! k = default None (last_assignment fields k).
Proof.
  unfold object_literal.
  assert (∀ acc : gmap string string,
    foldl (λ t kv, match kv.2 with
                   | Some v => <[kv.1 := v]> t
                   | None => delete kv.1 t
                   end) acc fields !! k
    = default (acc !! k) (last_assignment fields k)) as G.
  { induction fields as [|[k' v] rest IH]; intros acc; simpl; [done|].
    rewrite IH. destruct (last_assignment rest k) as [v'|]; [done|]. simpl.
    destruct (String.eqb_spec k' k) as [->|N]; simpl.
    - destruct v; [by rewrite lookup_insert_eq|by rewrite lookup_delete_eq].
    - destruct v; [by rewrite lookup_insert_ne|by rewrite lookup_delete_ne]. }
  rewrite G. by rewrite lookup_empty.
Qed.

Lemma set_property_lookup key value (t : gmap string string) k :
  set_property key value t !! k
  = if String.eqb key "__proto__" then t !! k
    else if String.eqb key k then value else t !! k.
Proof.
  unfold set_property. destruct (String.eqb key "__proto__"); [done|].
  destruct (String.eqb_spec key k) as [->|N].
  - destruct value; [by rewrite lookup_insert_eq|by rewrite lookup_delete_eq].
  - destruct value; [by rewrite lookup_insert_ne|by rewrite lookup_delete_ne].
Qed.

Lemma add_extra_columns_lookup ix row headers idx (t : gmap string string) k :
  k ≠ "__proto__" →
  add_extra_columns ix row headers idx t !! k
  = match last_extra ix headers idx k with
    | Some j => cell row j
    | None => t !! k
    end.
Proof.
  intros Nk. revert idx t.
  induction headers as [|h rest IH]; intros idx t; simpl; [done|].
  rewrite IH. destruct (last_extra ix rest (idx + 1) k); [done|].
  destruct (consumed ix idx); simpl; [done|].
  rewrite set_property_lookup.
  destruct (String.eqb_spec h k) as [->|N].
  - apply String.eqb_neq in Nk. by rewrite Nk.
  - by destruct (String.eqb h "__proto__").
Qed.

Lemma add_extra_columns_proto ix row headers idx (t : gmap string string) :
  add_extra_columns ix row headers idx t !! "__proto__" = t !! "__proto__".
Proof.
  revert idx t. induction headers as [|h rest IH]; intros idx t; simpl; [done|].
  rewrite IH. destruct (consumed ix idx); [done|].
  rewrite set_property_lookup.
  by destruct (String.eqb_spec h "__proto__").
Qed.

Lemma last_extra_Some ix headers idx k j :
  last_extra ix headers idx k = Some j →
  idx ≤ j ∧ headers !! Z.to_nat (j - idx) = Some k ∧ consumed ix j = false.
Proof.
  revert idx. induction headers as [|h rest IH]; intros idx; simpl; [done|].
  destruct (last_extra ix rest (idx + 1) k) as [j'|] eqn:E.
  - intros [= ->]. destruct (IH _ E) as (L & H & C).
    split; [lia|]. split; [|done].
    replace (Z.to_nat (j - idx)) with (S (Z.to_nat (j - (idx + 1)))) by lia. done.
  - destruct (consumed ix idx) eqn:C; simpl; [done|].
    destruct (String.eqb_spec h k) as [->|N]; [|done].
    intros [= <-]. replace (idx - idx) with 0 by lia. done.
Qed.

Lemma last_extra_None ix headers idx k :
  last_extra ix headers idx k = None →
  ∀ i, headers !! i = Some k → consumed ix (idx + Z.of_nat i) = true.
Proof.
  revert idx. induction headers as [|h rest IH]; intros idx; simpl; [done|].
  destruct (last_extra ix rest (idx + 1) k) as [j'|] eqn:E; [done|].
  intros H [|i] L; simpl in L.
  - injection L as ->. rewrite String.eqb_refl, andb_true_r in H.
    replace (idx + Z.of_nat 0) with idx by lia.
    by destruct (consumed ix idx).
  - replace (idx + Z.of_nat (S i)) with (idx + 1 + Z.of_nat i) by lia.
    by apply IH.
Qed.

(** The column stored last under a key is the one found from the end. *)
Lemma last_extra_last ix headers idx k j :
  headers !! j = Some k → consumed ix (idx + Z.of_nat j) = false →
  (∀ j', (j < j')%nat → headers !! j' = Some k → consumed ix (idx + Z.of_nat j') = true) →
  last_extra ix headers idx k = Some (idx + Z.of_nat j).
Proof.
  revert idx j. induction headers as [|h rest IH]; intros idx j L C M; [done|].
  simpl. destruct j as [|j]; simpl in L.
  - injection L as ->.
    destruct (last_extra ix rest (idx + 1) k) as [j'|] eqn:E.
    + apply last_extra_Some in E as (Lj & Hj & Cj). exfalso.
      pose proof (M (S (Z.to_nat (j' - (idx + 1)))) ltac:(lia) Hj) as T.
      replace (idx + Z.of_nat (S (Z.to_nat (j' - (idx + 1))))) with j' in T by lia.
      congruence.
    + replace (idx + Z.of_nat 0) with idx in * by lia.
      by rewrite C, String.eqb_refl.
  - rewrite (IH (idx + 1) j L).
    + f_equal. lia.
    + by replace (idx + 1 + Z.of_nat j) with (idx + Z.of_nat (S j)) by lia.
    + intros j' Hj Lj.
      replace (idx + 1 + Z.of_nat j') with (idx + Z.of_nat (S j')) by lia.
      apply M; [lia|done].
Qed.

Lemma extra_keys_spec ix headers k :
  k ∈ extra_keys ix headers
  ↔ ∃ i, headers !! i = Some k ∧ consumed ix (Z.of_nat i) = false.
Proof.
  unfold extra_keys, extra_columns. rewrite list_elem_of_fmap. split.
  - intros ([i h] & -> & H). apply list_elem_of_In, List.filter_In in H as [H C].
    apply list_elem_of_In, elem_of_lookup_imap in H as (i' & h' & [= -> ->] & L).
    exists i'. split; [done|]. by apply negb_true_iff in C.
  - intros (i & L & C). exists (i, k). split; [done|].
    apply list_elem_of_In, List.filter_In. split; [|simpl; by rewrite C].
    apply list_elem_of_In, elem_of_lookup_imap. by exists i, k.
Qed.

Lemma last_extra_not_key ix headers k :
  k ∉ extra_keys ix headers → last_extra ix headers 0 k = None.
Proof.
  intros N. destruct (last_extra ix headers 0 k) as [j|] eqn:E; [|done].
  apply last_extra_Some in E as (P & L & C). exfalso. apply N.
  apply extra_keys_spec. exists (Z.to_nat (j - 0)). split; [done|].
  by replace (Z.of_nat (Z.to_nat (j - 0))) with j by lia.
Qed.

(** A field of the candidate, when no column is stored under its name. *)
Lemma map_row_field headers mapping row k :
  k ≠ "__proto__" → k ∉ extra_keys (resolve_indices headers mapping) headers →
  map_row headers mapping row !! k
  = let ix := resolve_indices headers mapping in
    default None (last_assignment [
      ("date", if 0 <=? dateIdx ix then cell row (dateIdx ix) else Some EmptyString);
      ("amount", if 0 <=? amountIdx ix then cell row (amountIdx ix) else Some EmptyString);
      ("description",
        if 0 <=? descriptionIdx ix then cell row (descriptionIdx ix) else Some EmptyString);
      ("category",
        if 0 <=? categoryIdx ix then cell row (categoryIdx ix)
        else or_else (defaultCategory mapping) "Uncategorized");
      ("type",
        if 0 <=? typeIdx ix then cell row (typeIdx ix)
        else or_else (defaultType mapping) "expense")] k).
Proof.
  intros Nk NE. unfold map_row.
  rewrite add_extra_columns_lookup by done.
  rewrite (last_extra_not_key _ _ _ NE). apply object_literal_lookup.
Qed.

End MapperFacts.

(** C7, as the code has it. The row mapper produces exactly one candidate
    per data row. The category (and likewise the type) of a candidate is the
    row's cell at the resolved column index when the column is mapped and
    present in the headers, and otherwise the mapping's default, or
    ["Uncategorized"] (["expense"]) when that default is absent or empty,
    as long as no header left unconsumed is itself named ["category"]
    (["type"]). Every header that none of the five mapped fields consumes,
    other than ["__proto__"], has its row value stored in the candidate
    under the header's own name, as long as no later unconsumed header
    bears the same name. *)
Theorem mapCsvToTransactions_rows (headers : list string)
    (data : list (list string)) (mapping : ColumnMapping) :
  let ix := resolve_indices headers mapping in
  let out := mapCsvToTransactions headers data mapping in
  length out = length data
  ∧ (0 ≤ categoryIdx ix
     ↔ ∃ c, categoryColumn mapping = Some c ∧ c ≠ EmptyString ∧ c ∈ headers)
  ∧ (0 ≤ typeIdx ix
     ↔ ∃ c, typeColumn mapping = Some c ∧ c ≠ EmptyString ∧ c ∈ headers)
  ∧ ∀ i row, data !! i = Some row →
      ∃ t, out !! i = Some t
      ∧ ("category" ∉ extra_keys ix headers →
         t !! "category"
         = if 0 <=? categoryIdx ix then row !! Z.to_nat (categoryIdx ix)
           else Some (fallback (defaultCategory mapping) "Uncategorized"))
      ∧ ("type" ∉ extra_keys ix headers →
         t !! "type"
         = if 0 <=? typeIdx ix then row !! Z.to_nat (typeIdx ix)
           else Some (fallback (defaultType mapping) "expense"))
      ∧ (∀ j h, headers !! j = Some h → consumed ix (Z.of_nat j) = false →
           h ≠ "__proto__" →
           (∀ j', (j < j')%nat → headers !! j' = Some h →
                  consumed ix (Z.of_nat j') = true) →
           t !! h = row !! j).
Proof.
  intros ix out.
  assert (∀ col, 0 ≤ (if truthy col then indexOf headers (default EmptyString col) else -1)
                 ↔ ∃ c, col = Some c ∧ c ≠ EmptyString ∧ c ∈ headers) as Mapped.
  { intros [c|]; simpl.
    - destruct (String.eqb_spec c EmptyString) as [->|N]; simpl.
      + split; [lia|]. by intros (c & [= <-] & ? & _).
      + rewrite MapperFacts.indexOf_nonneg. split.
        * intros H. by exists c.
        * by intros (c' & [= <-] & _ & ?).
    - split; [lia|]. by intros (c & ? & _). }
  assert (∀ d b, or_else d b = Some (fallback d b)) as Fb.
  { intros [d|] b; unfold or_else, fallback; simpl; [|done].
    by destruct (String.eqb d EmptyString). }
  split; [subst out; unfold mapCsvToTransactions; by rewrite length_fmap|].
  split; [apply Mapped|]. split; [apply Mapped|].
  intros i row L. exists (map_row headers mapping row).
  split; [subst out; unfold mapCsvToTransactions; by rewrite list_lookup_fmap, L|].
  split; [|split].
  - intros NE. rewrite MapperFacts.map_row_field by done.
    cbv zeta. fold ix. cbv [last_assignment]. MapperFacts.string_eqbs.
    unfold cell. destruct (Z.leb_spec 0 (categoryIdx ix)) as [P|P]; cbn [default from_option id].
    + by replace (categoryIdx ix <? 0) with false by (symmetry; apply Z.ltb_ge; lia).
    + apply Fb.
  - intros NE. rewrite MapperFacts.map_row_field by done.
    cbv zeta. fold ix. cbv [last_assignment]. MapperFacts.string_eqbs.
    unfold cell. destruct (Z.leb_spec 0 (typeIdx ix)) as [P|P]; cbn [default from_option id].
    + by replace (typeIdx ix <? 0) with false by (symmetry; apply Z.ltb_ge; lia).
    + apply Fb.
  - intros j h Lj C Nh M. unfold map_row.
    rewrite MapperFacts.add_extra_columns_lookup by done.
    rewrite (MapperFacts.last_extra_last _ _ 0 h j); [| done | done | done].
    replace (0 + Z.of_nat j) with (Z.of_nat j) by lia. unfold cell.
    destruct (Z.ltb_spec (Z.of_nat j) 0); [lia|]. by rewrite Nat2Z.id.
Qed.

Lemma mapCsvToTransactions_rows_witness :
  let headers := ["Date"; "Memo"; "Amount"; "Branch"] in
  let row := ["2024-01-05"; "Coffee"; "-50"; "North"] in
  let mapping :=
    {| dateColumn := "Date"; amountColumn := "Amount"; descriptionColumn := "Memo";
       categoryColumn := Some EmptyString; typeColumn := None;
       dateFormat := "YYYY-MM-DD";
       defaultCategory := Some "Food"; defaultType := None |} in
  ∃ t, mapCsvToTransactions headers [row] mapping !! 0%nat = Some t
       ∧ t !! "category" = Some "Food" ∧ t !! "type" = Some "expense"
       ∧ t !! "Branch" = Some "North".
Proof.
  intros headers row mapping.
  destruct (mapCsvToTransactions_rows headers [row] mapping) as (_ & _ & _ & R).
  destruct (R 0%nat row eq_refl) as (t & L & C & T & X).
  exists t. split; [exact L|]. split; [|split].
  - apply C. vm_compute. intros H. repeat (inversion H as [|? ? ? H']; clear H; rename H' into H).
  - apply T. vm_compute. intros H. repeat (inversion H as [|? ? ? H']; clear H; rename H' into H).
  - apply (X 3%nat "Branch"); [reflexivity|reflexivity|discriminate|].
    intros j' Hj Lj. destruct j' as [|[|[|[|j']]]]; try lia. discriminate Lj.
Defined.

(** C7, as the specification states it, fails in three ways. A header that
    is left unconsumed and is named like a field overwrites that field: with
    no category column mapped and the default ["Misc"], a column headed
    ["category"] still decides the category. An empty default is replaced
    by ["Uncategorized"]. And of two unconsumed headers of the same name
    only the value under the second one is kept. *)
Lemma mapCsvToTransactions_overwrites_and_defaults :
  let mapping category default :=
    {| dateColumn := "date"; amountColumn := "amount"; descriptionColumn := "description";
       categoryColumn := category; typeColumn := None; dateFormat := "YYYY-MM-DD";
       defaultCategory := default; defaultType := Some "expense" |} in
  (categoryIdx (resolve_indices ["date"; "description"; "amount"; "category"]
                  (mapping (Some EmptyString) (Some "Misc"))) = -1
   ∧ (λ t : CsvTransaction, t !! "category")
       <$> mapCsvToTransactions ["date"; "description"; "amount"; "category"]
             [["2024-01-05"; "Coffee"; "-50"; "Food"]]
             (mapping (Some EmptyString) (Some "Misc"))
     = [Some "Food"])
  ∧ (λ t : CsvTransaction, t !! "category")
      <$> mapCsvToTransactions ["date"; "description"; "amount"]
            [["2024-01-05"; "Coffee"; "-50"]]
            (mapping None (Some EmptyString))
    = [Some "Uncategorized"]
  ∧ (λ t : CsvTransaction, t !! "note")
      <$> mapCsvToTransactions ["date"; "description"; "amount"; "note"; "note"]
            [["2024-01-05"; "Coffee"; "-50"; "first"; "second"]]
            (mapping None (Some "Misc"))
    = [Some "second"].
Proof. vm_compute. repeat split. Qed.


(** ** The validator *)

Module ValidatorFacts.

Lemma well_typed_fields (t : CsvTransaction) :
  well_typed t →
  t !! "date" = Some (field t "date")
  ∧ t !! "amount" = Some (field t "amount")
  ∧ t !! "description" = Some (field t "description").
Proof.
  unfold field. intros ([d Hd] & [a Ha] & [s Hs]). by rewrite Hd, Ha, Hs.
Qed.

(** One row: the three checks run one after the other, each adds its
    issue or nothing, whatever the earlier ones found. *)
Lemma validate_row_issues tza format errors index (t : CsvTransaction) :
  well_typed t →
  validate_row tza format errors index t = Ok (errors ++ row_issues tza format index t).
Proof.
  intros W. destruct (well_typed_fields t W) as (Hd & Ha & Hs).
  unfold validate_row, row_issues, date_ok, amount_ok, description_ok, is_blank.
  rewrite Hd, Ha, Hs. simpl.
  destruct (parseDate tza (field t "date") format);
    destruct (JsNumber.isNaN (parse_amount (field t "amount")));
    destruct (String.eqb (JsString.trim (field t "description")) EmptyString);
    simpl; by rewrite <- ?app_assoc, ?app_nil_r.
Qed.

(** A field that is [undefined] makes the row throw. *)
Lemma validate_row_throws tza format errors index (t : CsvTransaction) :
  ¬ well_typed t → ∃ m, validate_row tza format errors index t = Throw m.
Proof.
  intros N. unfold validate_row.
  destruct (t !! "date") as [d|] eqn:Hd; simpl; [|eauto].
  destruct (t !! "amount") as [a|] eqn:Ha; simpl; [|eauto].
  destruct (t !! "description") as [s|] eqn:Hs; simpl; [|eauto].
  exfalso. apply N. unfold well_typed. rewrite Hd, Ha, Hs. eauto.
Qed.

Lemma validate_loop_issues tza format transactions index errors :
  Forall well_typed transactions →
  validate_loop tza format transactions index errors
  = Ok (errors ++ concat (imap (λ i, row_issues tza format (index + i)) transactions)).
Proof.
  intros W. revert index errors.
  induction W as [|t ts Wt _ IH]; intros index errors; simpl.
  - by rewrite app_nil_r.
  - rewrite validate_row_issues by done. simpl. rewrite IH.
    rewrite Nat.add_0_r, <- app_assoc. do 4 f_equal.
    apply imap_ext. intros i x _. simpl. f_equal. lia.
Qed.

Lemma row_issues_length tza format index t :
  length (row_issues tza format index t) = violations tza format t.
Proof.
  unfold row_issues, violations.
  by destruct (date_ok tza format t), (amount_ok t), (description_ok t).
Qed.

Lemma row_issues_nil tza format index t :
  row_issues tza format index t = [] ↔ passes tza format t.
Proof.
  unfold row_issues, passes.
  destruct (date_ok tza format t), (amount_ok t), (description_ok t);
    simpl; split; try done; intros (? & ? & ?); done.
Qed.

Lemma concat_imap_nil {A B} (f : nat → A → list B) (l : list A) :
  concat (imap f l) = [] ↔ ∀ i x, l !! i = Some x → f i x = [].
Proof.
  revert f. induction l as [|x l IH]; intros f; simpl.
  - split; [by intros _ i y ?|done].
  - rewrite app_nil, IH. split.
    + intros [H0 H] [|i] y L; simpl in L; [by injection L as <-|].
      by apply (H i y).
    + intros H. split; [by apply (H 0%nat)|].
      intros i y L. by apply (H (S i)).
Qed.

(** Accepting a date written out in full, in a zone that has the day:
    the parts and the fields are found by computation, the range by
    arithmetic. *)
Ltac accept_date tza l p0 p1 p2 y m d :=
  apply (DateFacts.parseDate_iff tza _ l); [assumption|];
  exists p0, p1, p2; split; [reflexivity|];
  repeat (split; [split; [done|repeat constructor]|]);
  exists y, m, d; split; [reflexivity|];
  split; [split; vm_compute; split; discriminate|];
  split; [vm_compute; discriminate|];
  split; [reflexivity|];
  split; [|match goal with K : zone_has_day tza (day_number y m d) |- _ => exact K end];
  let n := eval vm_compute in (day_number y m d) in
  change (day_number y m d) with n;
  match goal with
  | Z : zone_offset tza |- _ =>
      let B := fresh "B" in
      pose proof (Z (n * JsDate.msPerDay) false) as B;
      unfold JsDate.UTC; revert B; clear;
      unfold JsDate.msPerDay, JsDate.maxTime; lia
  end.

Lemma validateTransactions_issues tza transactions format :
  Forall well_typed transactions →
  validateTransactions tza transactions format
  = Ok (concat (imap (row_issues tza format) transactions)).
Proof.
  intros W. unfold validateTransactions. by rewrite validate_loop_issues.
Qed.

Lemma issues_nil_iff tza transactions format :
  concat (imap (row_issues tza format) transactions) = []
  ↔ Forall (passes tza format) transactions.
Proof.
  rewrite concat_imap_nil, Forall_lookup. split.
  - intros H i t L. apply (row_issues_nil tza format i). by apply H.
  - intros H i t L. apply row_issues_nil. by apply (H i).
Qed.

Lemma validate_loop_well_typed tza format transactions :
  ∀ index errors result,
    validate_loop tza format transactions index errors = Ok result →
    Forall well_typed transactions.
Proof.
  induction transactions as [|t ts IH]; intros index errors result; simpl; [done|].
  destruct (decide (well_typed t)) as [W|N].
  - rewrite validate_row_issues by done. simpl. intros H.
    constructor; [done|]. by eapply IH.
  - destruct (validate_row_throws tza format errors index t N) as [m ->]. done.
Qed.

(** An empty list of issues: every candidate has its three fields and
    passes the three checks. *)
Lemma validateTransactions_nil tza transactions format :
  validateTransactions tza transactions format = Ok []
  ↔ Forall (λ t, well_typed t ∧ passes tza format t) transactions.
Proof.
  rewrite Forall_and. split.
  - intros H. pose proof (validate_loop_well_typed _ _ _ _ _ _ H) as W.
    split; [done|]. rewrite validateTransactions_issues in H by done.
    injection H as H. by apply issues_nil_iff.
  - intros [W P]. rewrite validateTransactions_issues by done.
    f_equal. by apply issues_nil_iff.
Qed.

End ValidatorFacts.

(** C3. Validator: on candidates whose fields are strings, and for every
    layout, [validateTransactions] runs the three checks (the date parses
    under the layout; the amount, stripped of everything but digits, dots
    and minus signs, parses as a number; the description is not blank) on
    every candidate, each check whatever the others found, and reports one
    issue per check that fails, row by row in order. So the number of
    issues is the number of failed checks, and the result is empty exactly
    when every candidate passes all three. For the two rows of the example,
    mapped with the generic template, it returns the single issue of the
    second row's blank description, on a host whose zone has the two days
    of the example, as every zone of one offset does. *)
Theorem validateTransactions_complete (tza : JsDate.TimeZone)
    (transactions : list CsvTransaction)
    (format : string) :
  Forall well_typed transactions →
  ∃ errors,
    validateTransactions tza transactions format = Ok errors
    ∧ errors = concat (imap (row_issues tza format) transactions)
    ∧ length errors = sum_list (violations tza format <$> transactions)
    ∧ (errors = [] ↔ Forall (passes tza format) transactions)
    ∧ (zone_offset tza →
       zone_has_day tza (day_number 2024 1 5) →
       zone_has_day tza (day_number 2024 1 6) →
       ∀ template, findTemplate "generic" = Some template →
       let headers := ["date"; "description"; "amount"] in
       let rows := [["2024-01-05"; "Coffee"; "-50"]; ["2024-01-06"; ""; "20"]] in
       validateTransactions tza
         (mapCsvToTransactions headers rows (templateMapping headers template))
         (bt_dateFormat template)
       = Ok ["Row 2: Missing description"])
    ∧ ∀ offset, Z.abs offset < JsDate.msPerDay →
        zone_offset (JsDate.fixed_zone offset)
        ∧ ∀ day, zone_has_day (JsDate.fixed_zone offset) day.
Proof.
  intros W. exists (concat (imap (row_issues tza format) transactions)).
  split; [|split; [done|split; [|split; [|split]]]].
  5: { intros offset H. split; [by apply DateFacts.fixed_zone_offset|].
       intros day. apply DateFacts.fixed_zone_has_day. }
  - by apply ValidatorFacts.validateTransactions_issues.
  - clear W.
    assert (∀ (f : nat → CsvTransaction → list string),
      (∀ i t, length (f i t) = violations tza format t) →
      length (concat (imap f transactions))
      = sum_list (violations tza format <$> transactions)) as G.
    { induction transactions as [|t ts IH]; intros f Hf; simpl; [done|].
      rewrite length_app, Hf, (IH (f ∘ S)); [done|]. intros i t'. apply Hf. }
    apply G. intros i t. apply ValidatorFacts.row_issues_length.
  - apply ValidatorFacts.issues_nil_iff.
  - intros Htz K5 K6 template Ht headers rows.
    vm_compute in Ht. injection Ht as <-.
    set (mapping := templateMapping headers _).
    change (bt_dateFormat _) with "YYYY-MM-DD".
    change (mapCsvToTransactions headers rows mapping)
      with [map_row headers mapping ["2024-01-05"; "Coffee"; "-50"];
            map_row headers mapping ["2024-01-06"; ""; "20"]].
    set (t1 := map_row headers mapping ["2024-01-05"; "Coffee"; "-50"]).
    set (t2 := map_row headers mapping ["2024-01-06"; ""; "20"]).
    assert (t1 !! "date" = Some "2024-01-05" ∧ t1 !! "amount" = Some "-50"
            ∧ t1 !! "description" = Some "Coffee"
            ∧ t2 !! "date" = Some "2024-01-06" ∧ t2 !! "amount" = Some "20"
            ∧ t2 !! "description" = Some "") as (D1 & A1 & S1 & D2 & A2 & S2).
    { vm_compute. repeat split. }
    clearbody t1 t2.
    assert (is_Some (parseDate tza "2024-01-05" "YYYY-MM-DD")) as [d1 P1].
    { eexists. ValidatorFacts.accept_date tza YMD "2024" "01" "05" 2024 1 5. }
    assert (is_Some (parseDate tza "2024-01-06" "YYYY-MM-DD")) as [d2 P2].
    { eexists. ValidatorFacts.accept_date tza YMD "2024" "01" "06" 2024 1 6. }
    unfold validateTransactions, validate_loop, validate_row.
    rewrite D1, A1, S1, D2, A2, S2. simpl receiver. cbn [bind].
    rewrite P1, P2.
    vm_compute. reflexivity.
Qed.

Lemma validateTransactions_complete_witness :
  let headers := ["date"; "description"; "amount"] in
  let rows := [["2024-01-05"; "Coffee"; "-50"]; ["2024-01-06"; "Tea"; "abc"];
               ["2024-01-07"; "Rent"; "900"]] in
  let mapping :=
    {| dateColumn := "date"; amountColumn := "amount"; descriptionColumn := "description";
       categoryColumn := None; typeColumn := None; dateFormat := "YYYY-MM-DD";
       defaultCategory := None; defaultType := None |} in
  validateTransactions summerTimeZone (mapCsvToTransactions headers rows mapping)
    "YYYY-MM-DD"
  = Ok ["Row 2: Invalid amount " +:+ quoted "abc"]
  ∧ ∃ template,
      findTemplate "generic" = Some template
      ∧ validateTransactions summerTimeZone
          (mapCsvToTransactions headers
             [["2024-01-05"; "Coffee"; "-50"]; ["2024-01-06"; ""; "20"]]
             (templateMapping headers template))
          (bt_dateFormat template)
        = Ok ["Row 2: Missing description"]
      ∧ validateTransactions (JsDate.fixed_zone 19800000)
          (mapCsvToTransactions headers
             [["2024-01-05"; "Coffee"; "-50"]; ["2024-01-06"; ""; "20"]]
             (templateMapping headers template))
          (bt_dateFormat template)
        = Ok ["Row 2: Missing description"].
Proof.
  intros headers rows mapping.
  assert (Forall well_typed (mapCsvToTransactions headers rows mapping)) as W.
  { repeat constructor; eexists; vm_compute; reflexivity. }
  assert (zone_offset summerTimeZone) as Z.
  { intros t isUTC. unfold summerTimeZone, JsDate.one_transition.
    destruct isUTC; case_match; vm_compute; reflexivity. }
  assert (zone_has_day summerTimeZone (day_number 2024 1 5)) as K5
    by (vm_compute; reflexivity).
  assert (zone_has_day summerTimeZone (day_number 2024 1 6)) as K6
    by (vm_compute; reflexivity).
  destruct (validateTransactions_complete summerTimeZone _ "YYYY-MM-DD" W)
    as (errors & -> & -> & _ & _ & Ex & _).
  destruct (validateTransactions_complete (JsDate.fixed_zone 19800000) _ "YYYY-MM-DD" W)
    as (_ & _ & _ & _ & _ & Ex' & Fixed).
  destruct (Fixed 19800000) as [Z' K']; [reflexivity|].
  split; [vm_compute; reflexivity|].
  eexists. split; [reflexivity|]. split.
  - exact (Ex Z K5 K6 _ eq_refl).
  - exact (Ex' Z' (K' _) (K' _) _ eq_refl).
Defined.


(** ** The commit step *)

Module CommitFacts.

Lemma skip_iff (selected : gmap nat bool) idx :
  negb (default false (selected !! idx)) && (0 <? size selected)%nat = true
  ↔ ¬ chosen selected idx.
Proof.
  unfold chosen. rewrite andb_true_iff, negb_true_iff, Nat.ltb_lt. split.
  - intros [T P] [->|E]; [rewrite map_size_empty in P; lia|by rewrite E in T].
  - intros N. split.
    + destruct (selected !! idx) as [[]|] eqn:E; simpl; [|done|done].
      exfalso. apply N. by right.
    + destruct (decide (size selected = 0%nat)) as [Z|Z]; [|lia].
      exfalso. apply N. left. by apply map_size_empty_iff.
Qed.

(** The callback on one row. *)
Lemma to_db_spec h userId selected k (t : CsvTransaction) idx :
  (¬ chosen selected idx ∧ to_db h userId selected k t idx = Ok None)
  ∨ (chosen selected idx ∧ convertible h t
     ∧ ∃ db, to_db h userId selected k t idx = Ok (Some db)
             ∧ commits h t db ∧ id db = uuidv4 h k ∧ user_id db = userId)
  ∨ (chosen selected idx ∧ ¬ convertible h t
     ∧ ∃ m, to_db h userId selected k t idx = Throw m).
Proof.
  unfold to_db.
  destruct (negb _ && _) eqn:S.
  - left. apply skip_iff in S. done.
  - right. assert (chosen selected idx) as C.
    { destruct (decide (chosen selected idx)) as [|N]; [done|].
      apply skip_iff in N. congruence. }
    unfold convertible, commits, committed_amount, field.
    destruct (t !! "amount") as [a|] eqn:A; simpl.
    2:{ right. split; [done|]. split; [by intros [[? ?] _]|]. eauto. }
    destruct (t !! "date") as [raw|] eqn:D; simpl.
    2:{ right. split; [done|]. split; [by intros [_ [? ?]]|]. eauto. }
    destruct (JsDate.parse (LocalTZA h) (dateFallback h) raw) as [tv|] eqn:P; simpl.
    + left. split; [done|]. split; [eauto|].
      eexists. split; [reflexivity|]. simpl. eauto 10.
    + right. split; [done|]. split; [by intros [_ [? ?]]|]. eauto.
Qed.

Lemma chosen_from_cons selected idx t rows :
  chosen_from selected idx (t :: rows)
  = (if decide (chosen selected idx) then [t] else [])
    ++ chosen_from selected (S idx) rows.
Proof.
  unfold chosen_from. simpl. rewrite Nat.add_0_r.
  rewrite filter_cons. simpl.
  assert (imap ((λ i t0, ((idx + i)%nat, t0)) ∘ S) rows
          = imap (λ i t0, ((S idx + i)%nat, t0)) rows) as ->.
  { apply imap_ext. intros i x _. simpl. f_equal. lia. }
  by destruct (decide (chosen selected idx)).
Qed.

Lemma map_to_db_ok h userId selected rows :
  ∀ k idx mapped,
    map_to_db h userId selected k rows idx = Ok mapped →
    Forall2 (commits h) (chosen_from selected idx rows) (omap (λ r, r) mapped)
    ∧ Forall (convertible h) (chosen_from selected idx rows)
    ∧ Forall (λ db, user_id db = userId) (omap (λ r, r) mapped).
Proof.
  induction rows as [|t rows IH]; intros k idx mapped; simpl.
  - intros [= <-]. by repeat constructor.
  - rewrite chosen_from_cons.
    destruct (to_db_spec h userId selected k t idx)
      as [[N ->]|[(C & V & db & -> & R & _ & U)|(C & _ & m & ->)]]; simpl; [| |done].
    + destruct (map_to_db h userId selected k rows (S idx)) as [rs|] eqn:E; [|done].
      simpl. intros [= <-]. simpl. destruct (decide (chosen selected idx)); [done|].
      by apply (IH k).
    + destruct (map_to_db h userId selected (S k) rows (S idx)) as [rs|] eqn:E; [|done].
      simpl. intros [= <-]. simpl. destruct (decide (chosen selected idx)); [|done].
      destruct (IH _ _ _ E) as (F2 & Fc & Fu). simpl.
      split; [by constructor|]. split; by constructor.
Qed.

Lemma map_to_db_total h userId selected rows :
  ∀ k idx,
    Forall (convertible h) (chosen_from selected idx rows) →
    ∃ mapped, map_to_db h userId selected k rows idx = Ok mapped.
Proof.
  induction rows as [|t rows IH]; intros k idx; simpl; [eauto|].
  rewrite chosen_from_cons.
  destruct (to_db_spec h userId selected k t idx)
    as [[N ->]|[(C & V & db & -> & _)|(C & NV & _)]]; simpl.
  - destruct (decide (chosen selected idx)); [done|]. simpl. intros F.
    destruct (IH k (S idx) F) as [rs ->]. simpl. eauto.
  - destruct (decide (chosen selected idx)); [|done]. simpl. intros F.
    inversion_clear F as [|? ? _ F'].
    destruct (IH (S k) (S idx) F') as [rs ->]. simpl. eauto.
  - destruct (decide (chosen selected idx)); [|done]. simpl. intros F.
    by inversion_clear F.
Qed.

Lemma chosen_from_0 selected rows : chosen_from selected 0 rows = chosen_rows selected rows.
Proof. done. Qed.

(** The batch that [build_batch] returns is made of the records of the
    chosen rows, in their order, and it returns one exactly when every
    chosen row can be converted. *)
Lemma build_batch_spec h userId selected rows :
  (∀ batch, build_batch h userId selected rows = Ok batch →
     Forall2 (commits h) (chosen_rows selected rows) batch
     ∧ Forall (λ db, user_id db = userId) batch)
  ∧ ((∃ batch, build_batch h userId selected rows = Ok batch)
     ↔ Forall (convertible h) (chosen_rows selected rows)).
Proof.
  unfold build_batch. split.
  - intros batch.
    destruct (map_to_db h userId selected 0 rows 0) as [mapped|] eqn:E; [|done].
    simpl. intros [= <-]. destruct (map_to_db_ok _ _ _ _ _ _ _ E) as (F & _ & U).
    by rewrite chosen_from_0 in F.
  - split.
    + intros [batch B].
      destruct (map_to_db h userId selected 0 rows 0) as [mapped|] eqn:E; [|done].
      destruct (map_to_db_ok _ _ _ _ _ _ _ E) as (_ & F & _).
      by rewrite chosen_from_0 in F.
    + intros F. rewrite <- chosen_from_0 in F.
      destruct (map_to_db_total h userId selected rows 0 0 F) as [mapped ->].
      simpl. eauto.
Qed.

(** What [importTransactions] hands to the table. *)
Lemma submitted_iff h s batch :
  (importTransactions h s).2 = Some batch
  ↔ parsedData s ≠ []
    ∧ ∃ userId, authUser h = Some userId
                ∧ build_batch h userId (selectedTransactions s) (parsedData s) = Ok batch.
Proof.
  unfold importTransactions.
  destruct (parsedData s) as [|t ts] eqn:P; simpl.
  - split; [done|]. by intros [? _].
  - destruct (authUser h) as [u|]; simpl.
    2:{ split; [done|]. by intros (_ & ? & ? & _). }
    destruct (build_batch h u _ _) as [b|m] eqn:B; simpl; rewrite P in B.
    + destruct (insertTransactions h b); simpl.
      * split; [intros [= <-]; split; [done|]; eauto|].
        intros (_ & ? & [= <-] & B'). rewrite B in B'. by injection B' as <-.
      * split; [intros [= <-]; split; [done|]; eauto|].
        intros (_ & ? & [= <-] & B'). rewrite B in B'. by injection B' as <-.
    + split; [done|]. intros (_ & ? & [= <-] & B'). rewrite B in B'. done.
Qed.

Lemma chosen_rows_empty rows : chosen_rows ∅ rows = rows.
Proof.
  unfold chosen_rows.
  assert (∀ (f : nat → nat),
    snd <$> filter (λ p : nat * CsvTransaction, chosen ∅ p.1) (imap (λ i t, (f i, t)) rows)
    = rows) as G.
  { induction rows as [|t rows IH]; intros f; simpl; [done|].
    rewrite filter_cons_True by (by left). simpl. f_equal. apply (IH (f ∘ S)). }
  apply (G (λ i, i)).
Qed.

Lemma elem_of_chosen_rows selected rows t :
  t ∈ chosen_rows selected rows
  ↔ ∃ i, rows !! i = Some t ∧ chosen selected i.
Proof.
  unfold chosen_rows. rewrite list_elem_of_fmap. split.
  - intros ([i t'] & -> & H). apply list_elem_of_filter in H as [C H].
    apply elem_of_lookup_imap in H as (i' & t'' & [= -> ->] & L). eauto.
  - intros (i & L & C). exists (i, t). split; [done|].
    apply list_elem_of_filter. split; [done|].
    apply elem_of_lookup_imap. eauto.
Qed.

End CommitFacts.


(** C6. Commit, sign of the amount: whenever [importTransactions] hands a
    batch to the table, the batch holds one record per chosen candidate,
    in order, and the amount of the record is the amount parsed from the
    candidate's raw string (stripped of everything but digits, dots and
    minus signs), made negative when the candidate's type is ["expense"]
    and non-negative when it is ["income"]. A batch is handed over whenever
    there are candidates, a user is signed in and every chosen candidate
    can be converted. *)
Theorem commit_amount_sign (h : Host) (s : Session) :
  (∀ batch, (importTransactions h s).2 = Some batch →
     Forall2
       (λ (t : CsvTransaction) db,
          ∃ raw, t !! "amount" = Some raw
          ∧ let parsed := JsNumber.parseFloat (JsString.keep_chars is_amount_char raw) in
            (t !! "type" = Some "expense" →
               amount db = JsNumber.neg (JsNumber.abs parsed)
               ∧ (JsNumber.isNaN parsed = false → JsNumber.is_negative (amount db) = true))
            ∧ (t !! "type" = Some "income" →
               amount db = JsNumber.abs parsed
               ∧ JsNumber.is_negative (amount db) = false))
       (chosen_rows (selectedTransactions s) (parsedData s)) batch)
  ∧ (parsedData s ≠ [] → is_Some (authUser h) →
     Forall (convertible h) (chosen_rows (selectedTransactions s) (parsedData s)) →
     ∃ batch, (importTransactions h s).2 = Some batch).
Proof.
  split.
  - intros batch (_ & u & _ & B)%CommitFacts.submitted_iff.
    apply CommitFacts.build_batch_spec in B as [B _].
    eapply Forall2_impl; [exact B|].
    intros t db ([raw A] & Am & _). exists raw. split; [done|].
    unfold committed_amount, field, parse_amount in Am. rewrite A in Am. simpl in Am.
    cbv zeta. split; intros T; rewrite T in Am.
    + rewrite bool_decide_eq_true_2 in Am by done. split; [done|].
      rewrite Am. by destruct (JsNumber.parseFloat _).
    + rewrite bool_decide_eq_false_2 in Am by done. split; [done|].
      rewrite Am. by destruct (JsNumber.parseFloat _).
  - intros N [u U] F.
    destruct (proj2 (proj2 (CommitFacts.build_batch_spec h u _ _)) F) as [batch B].
    exists batch. apply CommitFacts.submitted_iff. eauto.
Qed.

(** C8. Commit, selection: the batch that [importTransactions] hands to the
    table holds the records of the chosen candidates, one each and in
    order. With an empty selection map every candidate is chosen; with a
    map that is not empty exactly the candidates whose index the map sends
    to [true] are chosen, so an index sent to [false] is left out like an
    index that is absent. A batch is handed over exactly when there are
    candidates, a user is signed in and every chosen candidate can be
    converted. *)
Theorem commit_selection (h : Host) (s : Session) :
  let selected := selectedTransactions s in
  let rows := parsedData s in
  (∀ batch, (importTransactions h s).2 = Some batch →
     Forall2 (commits h) (chosen_rows selected rows) batch)
  ∧ (selected = ∅ → chosen_rows selected rows = rows)
  ∧ (selected ≠ ∅ →
     ∀ t, t ∈ chosen_rows selected rows
          ↔ ∃ i, rows !! i = Some t ∧ selected !! i = Some true)
  ∧ (selected ≠ ∅ →
     ∀ i, selected !! i = Some false ∨ selected !! i = None → ¬ chosen selected i)
  ∧ ((∃ batch, (importTransactions h s).2 = Some batch)
     ↔ rows ≠ [] ∧ is_Some (authUser h)
       ∧ Forall (convertible h) (chosen_rows selected rows)).
Proof.
  intros selected rows. split; [|split; [|split; [|split]]].
  - intros batch (_ & u & _ & B)%CommitFacts.submitted_iff.
    by apply CommitFacts.build_batch_spec in B as [B _].
  - intros ->. apply CommitFacts.chosen_rows_empty.
  - intros NE t. rewrite CommitFacts.elem_of_chosen_rows. unfold chosen.
    split; intros (i & L & C); exists i; (split; [done|]); [by destruct C|by right].
  - intros NE i F [E|T]; [done|]. destruct F as [F|F]; congruence.
  - split.
    + intros [batch (N & u & U & B)%CommitFacts.submitted_iff].
      split; [done|]. split; [by exists u|].
      apply (CommitFacts.build_batch_spec h u). eauto.
    + intros (N & [u U] & F).
      destruct (proj2 (proj2 (CommitFacts.build_batch_spec h u _ _)) F) as [batch B].
      exists batch. apply CommitFacts.submitted_iff. eauto.
Qed.

(** C10. The type is not checked. When a type column is mapped and present
    in the headers, the type of the candidate is a cell of the row as it
    stands: the cell of the mapped column, provided no unconsumed column is
    itself headed ["type"], whose cell would take its place. Any string can
    come out this way. At commit every type other than the exact string
    ["expense"], such as ["Expense"], ["debit"] or the empty string, gives
    the amount the income treatment: its absolute value, which is never
    negative (and is zero for an amount of zero). *)
Theorem type_passes_unchecked (h : Host) :
  (∀ headers data mapping i row,
     let ix := resolve_indices headers mapping in
     data !! i = Some row → 0 ≤ typeIdx ix →
     ∃ t, mapCsvToTransactions headers data mapping !! i = Some t
          ∧ ∃ j, t !! "type" = row !! j
                 ∧ (Z.of_nat j = typeIdx ix
                    ∨ (headers !! j = Some "type" ∧ consumed ix (Z.of_nat j) = false))
                 ∧ ("type" ∉ extra_keys ix headers → Z.of_nat j = typeIdx ix))
  ∧ (∀ v : string,
       ∃ t, mapCsvToTransactions ["date"; "amount"; "description"; "kind"]
              [["2024-01-05"; "50"; "Coffee"; v]]
              {| dateColumn := "date"; amountColumn := "amount";
                 descriptionColumn := "description"; categoryColumn := None;
                 typeColumn := Some "kind"; dateFormat := "YYYY-MM-DD";
                 defaultCategory := None; defaultType := Some "expense" |}
            = [t] ∧ t !! "type" = Some v)
  ∧ (∀ s batch, (importTransactions h s).2 = Some batch →
       Forall2
         (λ (t : CsvTransaction) db,
            type db = t !! "type"
            ∧ (t !! "type" ≠ Some "expense" →
               amount db = JsNumber.abs (parse_amount (field t "amount"))
               ∧ JsNumber.is_negative (amount db) = false))
         (chosen_rows (selectedTransactions s) (parsedData s)) batch)
  ∧ Forall (λ v : string, Some v ≠ Some "expense") ["Expense"; "debit"; ""; "income"].
Proof.
  split; [|split; [|split]].
  - intros headers data mapping i row ix L P.
    exists (map_row headers mapping row).
    split; [unfold mapCsvToTransactions; by rewrite list_lookup_fmap, L|].
    unfold map_row. fold ix.
    rewrite MapperFacts.add_extra_columns_lookup by done.
    destruct (last_extra ix headers 0 "type") as [j|] eqn:E.
    + apply MapperFacts.last_extra_Some in E as (Pj & Lj & Cj).
      replace (j - 0) with j in Lj by lia.
      exists (Z.to_nat j). unfold cell.
      destruct (Z.ltb_spec j 0); [lia|]. split; [done|].
      replace (Z.of_nat (Z.to_nat j)) with j by lia.
      split; [by right|]. intros NE. exfalso. apply NE.
      apply MapperFacts.extra_keys_spec. exists (Z.to_nat j).
      by replace (Z.of_nat (Z.to_nat j)) with j by lia.
    + exists (Z.to_nat (typeIdx ix)). rewrite MapperFacts.object_literal_lookup.
      cbv [last_assignment]. MapperFacts.string_eqbs.
      cbn [default from_option id]. unfold cell.
      destruct (Z.leb_spec 0 (typeIdx ix)); [|lia].
      destruct (Z.ltb_spec (typeIdx ix) 0); [lia|].
      split; [done|]. split; [left; lia|intros _; lia].
  - intros v. eexists. split; [reflexivity|].
    unfold map_row. rewrite MapperFacts.add_extra_columns_lookup by done.
    reflexivity.
  - intros s batch (_ & u & _ & B)%CommitFacts.submitted_iff.
    apply CommitFacts.build_batch_spec in B as [B _].
    eapply Forall2_impl; [exact B|].
    intros t db (_ & Am & _ & _ & T & _). split; [done|]. intros NE.
    unfold committed_amount in Am. rewrite bool_decide_eq_false_2 in Am by done.
    split; [done|]. rewrite Am. by destruct (parse_amount _).
  - repeat constructor; discriminate.
Qed.

(** C10, as the specification states it, fails in two ways. With the type
    column mapped to the header ["kind"], a further column headed ["type"]
    is left unconsumed and its cell overwrites the type: the candidate's
    type is ["expense"], not the cell ["income"] of the mapped column, and
    the amount is committed as an expense. And a type other than
    ["expense"] does not always give a positive amount: an amount of zero
    is committed as zero. *)
Lemma type_column_overwritten_by_header :
  let headers := ["date"; "amount"; "description"; "kind"; "type"] in
  let row := ["2024-01-05"; "50"; "Coffee"; "income"; "expense"] in
  let mapping :=
    {| dateColumn := "date"; amountColumn := "amount"; descriptionColumn := "description";
       categoryColumn := None; typeColumn := Some "kind"; dateFormat := "YYYY-MM-DD";
       defaultCategory := None; defaultType := Some "expense" |} in
  (typeIdx (resolve_indices headers mapping) = 3
   ∧ row !! 3%nat = Some "income"
   ∧ (λ t : CsvTransaction, t !! "type") <$> mapCsvToTransactions headers [row] mapping
     = [Some "expense"]
   ∧ ∃ batch,
       (importTransactions sampleHost
          (previewSession (mapCsvToTransactions headers [row] mapping) ∅)).2
       = Some batch
       ∧ amount <$> batch = [JsNumber.Finite true 50])
  ∧ ∃ batch,
      (importTransactions sampleHost
         (previewSession [candidate "2024-01-05" "Coffee" "0" "Food" "income"] ∅)).2
      = Some batch
      ∧ amount <$> batch = [JsNumber.Finite false 0].
Proof.
  split; [split; [reflexivity|split; [reflexivity|split; [vm_compute; reflexivity|]]]|];
    eexists; split; vm_compute; reflexivity.
Qed.


(** ** The import session *)

Module SessionFacts.

(** The gate: what the session looks like after the validator has
    answered, and that nothing but a thrown error bypasses it. *)
Lemma validation_gate_cases tza transactions format s :
  (∃ m, validateTransactions tza transactions format = Throw m
        ∧ validation_gate tza transactions format s = Throw m)
  ∨ (∃ errors s',
       validateTransactions tza transactions format = Ok errors
       ∧ validation_gate tza transactions format s = Ok s'
       ∧ validationErrors s' = errors
       ∧ csvHeaders s' = csvHeaders s ∧ csvData s' = csvData s
       ∧ selectedTransactions s' = selectedTransactions s
       ∧ (errors = [] → uploadStatus s' = preview ∧ parsedData s' = transactions)
       ∧ (errors ≠ [] → uploadStatus s' = error ∧ parsedData s' = parsedData s)).
Proof.
  unfold validation_gate.
  destruct (validateTransactions tza transactions format) as [errors|m]; simpl.
  - right. eexists errors, _. split; [done|]. split; [done|].
    destruct errors; simpl; repeat split; done.
  - left. eauto.
Qed.

(** A row as wide as the header row gives a candidate whose fields are
    all strings: every cell the mapper reads is there. *)
Lemma map_row_defined headers mapping row k :
  length row = length headers →
  k ∈ ["date"; "amount"; "description"; "category"; "type"] →
  is_Some (map_row headers mapping row !! k).
Proof.
  intros W Hk.
  assert (k ≠ "__proto__") as Nk.
  { intros ->. repeat (apply elem_of_cons in Hk as [Hk|Hk]; [discriminate Hk|]).
    by apply elem_of_nil in Hk. }
  assert (∀ i, 0 ≤ i < Z.of_nat (length headers) → is_Some (cell row i)) as Cell.
  { intros i Hi. unfold cell. destruct (Z.ltb_spec i 0); [lia|].
    apply lookup_lt_is_Some. lia. }
  assert (∀ x, is_Some (if 0 <=? indexOf headers x then cell row (indexOf headers x)
                        else Some EmptyString)) as Req.
  { intros x. pose proof (MapperFacts.indexOf_range headers x).
    destruct (Z.leb_spec 0 (indexOf headers x)); [apply Cell; lia|eauto]. }
  assert (∀ col d b,
            is_Some (if 0 <=? (if truthy col
                               then indexOf headers (default EmptyString col) else -1)
                     then cell row (if truthy col
                                    then indexOf headers (default EmptyString col)
                                    else -1)
                     else or_else d b)) as Opt.
  { intros col d b. destruct (truthy col).
    - pose proof (MapperFacts.indexOf_range headers (default EmptyString col)).
      destruct (Z.leb_spec 0 (indexOf headers (default EmptyString col)));
        [apply Cell; lia|].
      unfold or_else. destruct (truthy d) eqn:T; [|eauto]. by destruct d.
    - simpl. unfold or_else. destruct (truthy d) eqn:T; [|eauto]. by destruct d. }
  unfold map_row. rewrite MapperFacts.add_extra_columns_lookup by done.
  destruct (last_extra _ headers 0 k) as [j|] eqn:E.
  - apply MapperFacts.last_extra_Some in E as (Pj & Lj & _).
    apply Cell. apply lookup_lt_Some in Lj. lia.
  - rewrite MapperFacts.object_literal_lookup. cbv [last_assignment].
    unfold resolve_indices. cbn [dateIdx amountIdx descriptionIdx categoryIdx typeIdx].
    repeat (apply elem_of_cons in Hk as [->|Hk];
            [MapperFacts.string_eqbs; cbn [default from_option id];
             first [apply Req | apply Opt]|]).
    by apply elem_of_nil in Hk.
Qed.

Lemma mapped_well_typed headers data mapping :
  rectangular headers data →
  Forall well_typed (mapCsvToTransactions headers data mapping).
Proof.
  intros R. unfold mapCsvToTransactions. apply Forall_fmap.
  eapply Forall_impl; [exact R|]. intros row W. simpl.
  repeat split; apply map_row_defined; try done; set_solver.
Qed.

(** On the candidates of a rectangular table the validator never throws. *)
Lemma validate_mapped headers data mapping tza format :
  rectangular headers data →
  ∃ errors,
    validateTransactions tza (mapCsvToTransactions headers data mapping) format
    = Ok errors.
Proof.
  intros R. eexists.
  apply ValidatorFacts.validateTransactions_issues. by apply mapped_well_typed.
Qed.

Lemma parseRawCSV_rectangular text headers data :
  parseRawCSV text = Ok (headers, data) → rectangular headers data.
Proof.
  unfold parseRawCSV. destruct (nonblank_lines text) as [|l0 [|l1 ls]]; try done.
  cbn zeta.
  generalize (TokenizerFacts.filter_same_width_Forall
                (parseCsvLine l0) (parseCsvLine <$> l1 :: ls)).
  generalize (List.filter (same_width (parseCsvLine l0)) (parseCsvLine <$> l1 :: ls)).
  intros d F [= <- <-]. exact F.
Qed.

Lemma gate_table tza transactions format s s' :
  validation_gate tza transactions format s = Ok s' →
  csvHeaders s' = csvHeaders s ∧ csvData s' = csvData s.
Proof.
  intros G.
  destruct (validation_gate_cases tza transactions format s)
    as [(m & _ & T)|(errors & s'' & _ & G' & _ & H & D & _)]; [congruence|].
  rewrite G in G'. by injection G' as <-.
Qed.

(** The raw table the session holds is rectangular throughout. *)
Lemma reachable_rectangular h s :
  reachable h s → rectangular (csvHeaders s) (csvData s).
Proof.
  induction 1 as [|e s R IH]; [constructor|].
  destruct e; simpl; try done.
  - unfold handleFile. case_match; [done|]. constructor.
  - unfold processFile. destruct (file s) as [f|]; [|done].
    unfold processFile_try.
    destruct (parseRawCSV (file_text f)) as [[headers data]|m] eqn:P; [|done].
    apply parseRawCSV_rectangular in P.
    simpl uploadMode. destruct (uploadMode s); [|done].
    destruct (findTemplate _) as [template|]; [|done].
    destruct (validation_gate _ _ _ _) as [s'|m] eqn:G; [|done].
    apply gate_table in G as [Hh Hd]. simpl. by rewrite Hh, Hd.
  - unfold onSubmitMapping.
    destruct (validation_gate _ _ _ _) as [s'|m] eqn:G; [|done].
    apply gate_table in G as [Hh Hd]. by rewrite Hh, Hd.
  - unfold importTransactions. destruct (parsedData s) eqn:P; [done|].
    destruct (authUser h); [|done].
    destruct (build_batch _ _ _ _); [|done].
    by destruct (insertTransactions h _).
Qed.

Lemma validated_nil tza : validated tza [].
Proof. exists EmptyString. constructor. Qed.

Lemma gate_validated tza transactions format s s' :
  validated tza (parsedData s) →
  validation_gate tza transactions format s = Ok s' →
  validated tza (parsedData s').
Proof.
  intros V G.
  destruct (validation_gate_cases tza transactions format s)
    as [(m & _ & T)|(errors & s'' & E & G' & _ & _ & _ & _ & Y & N)]; [congruence|].
  rewrite G in G'. injection G' as <-.
  destruct errors as [|e es].
  - destruct (Y eq_refl) as [_ ->]. exists format.
    by apply ValidatorFacts.validateTransactions_nil.
  - destruct (N ltac:(done)) as [_ ->]. done.
Qed.

Lemma processFile_validated h s :
  validated (LocalTZA h) (parsedData s) →
  validated (LocalTZA h) (parsedData (processFile h s)).
Proof.
  intros V. unfold processFile. destruct (file s) as [f|]; [|done].
  unfold processFile_try.
  destruct (parseRawCSV (file_text f)) as [[headers data]|m]; [|done].
  simpl uploadMode. destruct (uploadMode s); [|done].
  destruct (findTemplate _) as [template|]; [|done].
  destruct (validation_gate _ _ _ _) as [s'|m] eqn:G; [|done].
  simpl. by eapply gate_validated in G.
Qed.

Lemma onSubmitMapping_validated h values s :
  validated (LocalTZA h) (parsedData s) →
  validated (LocalTZA h) (parsedData (onSubmitMapping h values s)).
Proof.
  intros V. unfold onSubmitMapping.
  destruct (validation_gate _ _ _ _) as [s'|m] eqn:G; [|done].
  by eapply gate_validated in G.
Qed.

Lemma importTransactions_parsedData h s :
  parsedData (importTransactions h s).1 = parsedData s.
Proof.
  unfold importTransactions. destruct (parsedData s) eqn:P; [done|].
  destruct (authUser h); [|done].
  destruct (build_batch _ _ _ _); [|done].
  by destruct (insertTransactions h _).
Qed.

(** Whatever the user does, the candidates held for preview and commit
    have passed validation. *)
Lemma reachable_validated h s :
  reachable h s → validated (LocalTZA h) (parsedData s).
Proof.
  induction 1 as [|e s R IH]; [apply validated_nil|].
  destruct e; simpl; try done.
  - unfold handleFile. case_match; [done|]. apply validated_nil.
  - by apply processFile_validated.
  - by apply onSubmitMapping_validated.
  - by rewrite importTransactions_parsedData.
Qed.

End SessionFacts.

(** C1. All-or-nothing validation gate. In standard mode ([processFile] on
    a file that tokenizes, with a known template) and in advanced mode
    ([onSubmitMapping]) the validator is run on the whole batch and
    answers (it does not throw on the candidates of a tokenized file).
    When it returns issues the session goes to [error] and the candidates
    held for preview and commit stay what they were: none of the batch
    gets there. When it returns no issue the session goes to [preview]
    holding all candidates of the batch. So in every session a user can
    bring about, each candidate held has passed the three checks, and each
    record handed to the table at commit is the record of such a
    candidate. *)
Theorem validation_gate_all_or_nothing (h : Host) :
  (∀ s f headers data template errors,
     file s = Some f → uploadMode s = standard →
     parseRawCSV (file_text f) = Ok (headers, data) →
     findTemplate (selectedTemplate s) = Some template →
     let candidates :=
       mapCsvToTransactions headers data (templateMapping headers template) in
     validateTransactions (LocalTZA h) candidates (bt_dateFormat template) = Ok errors →
     let s' := processFile h s in
     validationErrors s' = errors
     ∧ (errors ≠ [] → uploadStatus s' = error ∧ parsedData s' = parsedData s)
     ∧ (errors = [] → uploadStatus s' = preview ∧ parsedData s' = candidates))
  ∧ (∀ text headers data mapping format,
       parseRawCSV text = Ok (headers, data) →
       ∃ errors,
         validateTransactions (LocalTZA h)
           (mapCsvToTransactions headers data mapping) format = Ok errors)
  ∧ (∀ s values errors,
       let candidates := mapCsvToTransactions (csvHeaders s) (csvData s) values in
       validateTransactions (LocalTZA h) candidates (dateFormat values) = Ok errors →
       let s' := onSubmitMapping h values s in
       validationErrors s' = errors
       ∧ (errors ≠ [] → uploadStatus s' = error ∧ parsedData s' = parsedData s)
       ∧ (errors = [] → uploadStatus s' = preview ∧ parsedData s' = candidates))
  ∧ (∀ s values, reachable h s →
       ∃ errors,
         validateTransactions (LocalTZA h)
           (mapCsvToTransactions (csvHeaders s) (csvData s) values) (dateFormat values)
         = Ok errors)
  ∧ (∀ s, reachable h s →
       ∃ format,
         Forall (λ t, well_typed t ∧ passes (LocalTZA h) format t) (parsedData s)
         ∧ validateTransactions (LocalTZA h) (parsedData s) format = Ok []
         ∧ ∀ batch, (importTransactions h s).2 = Some batch →
             Forall (λ db, ∃ t, t ∈ parsedData s
                                ∧ well_typed t ∧ passes (LocalTZA h) format t
                                ∧ commits h t db) batch).
Proof.
  split; [|split; [|split; [|split]]].
  - intros s f headers data template errors F M P T candidates E s'.
    subst s'. unfold processFile, processFile_try. rewrite F, P. simpl uploadMode.
    rewrite M. simpl selectedTemplate. rewrite T. fold candidates.
    destruct (SessionFacts.validation_gate_cases (LocalTZA h) candidates
                (bt_dateFormat template)
                (setProgress 50 (setCsvData data (setCsvHeaders headers
                   (setProgress 30 (setProgress 10 (setUploadStatus parsing s)))))))
      as [(m & E' & _)|(errors' & s'' & E' & -> & Ve & _ & _ & _ & Y & N)];
      [congruence|].
    rewrite E in E'. injection E' as <-. simpl.
    split; [done|]. split; [intros NE; by destruct (N NE)|intros ->; by destruct (Y eq_refl)].
  - intros text headers data mapping format P.
    apply SessionFacts.validate_mapped. by eapply SessionFacts.parseRawCSV_rectangular.
  - intros s values errors candidates E s'. subst s'. unfold onSubmitMapping.
    fold candidates.
    destruct (SessionFacts.validation_gate_cases (LocalTZA h) candidates
                (dateFormat values) s)
      as [(m & E' & _)|(errors' & s'' & E' & -> & Ve & _ & _ & _ & Y & N)];
      [congruence|].
    rewrite E in E'. injection E' as <-.
    split; [done|]. split; [intros NE; by destruct (N NE)|intros ->; by destruct (Y eq_refl)].
  - intros s values R.
    apply SessionFacts.validate_mapped. by apply (SessionFacts.reachable_rectangular h).
  - intros s R. destruct (SessionFacts.reachable_validated h s R) as [format V].
    exists format. split; [done|].
    split; [by apply ValidatorFacts.validateTransactions_nil|].
    intros batch (_ & u & _ & B)%CommitFacts.submitted_iff.
    apply CommitFacts.build_batch_spec in B as [B _].
    apply Forall_forall. intros db Hdb.
    apply list_elem_of_lookup in Hdb as [i Li].
    destruct (Forall2_lookup_r _ _ _ _ _ B Li) as (t & Lt & C).
    exists t. apply list_elem_of_lookup_2 in Lt.
    apply CommitFacts.elem_of_chosen_rows in Lt as (j & Lj & _).
    apply list_elem_of_lookup_2 in Lj.
    rewrite Forall_forall in V. destruct (V t Lj). done.
Qed.


(** ** The date at commit *)

Module CommitDateFacts.
Import JsDate.

(** The local calendar fields of local midnight of a day that the zone
    has. *)
Lemma local_fields tza y m d :
  valid_calendar_date y m d →
  zone_has_day tza (day_number y m d) →
  let t := UTC tza (day_number y m d * msPerDay) in
  getFullYear tza (Some t) = Some y
  ∧ getMonth tza (Some t) = Some (m - 1)
  ∧ getDate tza (Some t) = Some d.
Proof.
  intros V K t. subst t.
  unfold getFullYear, getMonth, getDate, YearFromTime, MonthFromTime,
    DateFromTime.
  cbn [fmap option_fmap option_map].
  unfold zone_has_day in K. rewrite K.
  by destruct (CalendarFacts.fields_of_day_number y m d V) as (-> & -> & ->).
Qed.

Lemma TimeClip_in_range t : Z.abs t ≤ maxTime → TimeClip (Some t) = Some t.
Proof. intros R. unfold TimeClip. by destruct (Z.leb_spec (Z.abs t) maxTime); [|lia]. Qed.

(** The engine reads ["0005-03-20T12:34"] as 12:34, local time, on
    20 March of the year 5. *)
Lemma parse_iso_example tza fallback :
  zone_offset tza →
  JsDate.parse tza fallback "0005-03-20T12:34"
  = Some (UTC tza (day_number 5 3 20 * msPerDay + 45240000)).
Proof.
  intros Htz. unfold JsDate.parse.
  let v := eval vm_compute in (iso_fields "0005-03-20T12:34") in
  change (iso_fields "0005-03-20T12:34") with v.
  cbv iota.
  match goal with
  | |- context [iso_legal ?f] =>
      let v := eval vm_compute in (iso_legal f) in change (iso_legal f) with v
  end.
  cbv iota. unfold iso_time_value.
  cbn [iso_offset iso_has_time iso_year iso_month iso_day iso_hour iso_min iso_sec iso_ms].
  let v := eval vm_compute in (MakeDay 5 (3 - 1) 20) in
  change (MakeDay 5 (3 - 1) 20) with v.
  change (MakeTime 12 34 0 0) with 45240000.
  let v := eval vm_compute in (day_number 5 3 20) in
  change (day_number 5 3 20) with v.
  unfold MakeDate.
  apply TimeClip_in_range.
  unfold UTC.
  match goal with |- context [tza ?x false] => pose proof (Htz x false) as B end.
  revert B. clear. unfold msPerDay, maxTime. lia.
Qed.

(** A host that reads month first takes [M/D/YYYY] for local midnight of
    day [D] of month [M], and refuses a month beyond 12. *)
Lemma parse_month_first tza :
  zone_offset tza →
  JsDate.parse tza (month_first_fallback tza) "05/03/2024"
  = Some (UTC tza (day_number 2024 5 3 * msPerDay))
  ∧ JsDate.parse tza (month_first_fallback tza) "31/01/2024" = None.
Proof.
  intros Htz. unfold JsDate.parse. split.
  - let v := eval vm_compute in (iso_fields "05/03/2024") in
    change (iso_fields "05/03/2024") with v.
    cbv iota. unfold month_first_fallback.
    let v := eval vm_compute in (JsString.split (Ascii.eqb "/"%char) "05/03/2024") in
    change (JsString.split (Ascii.eqb "/"%char) "05/03/2024") with v.
    cbv iota.
    change (JsNumber.parseInt "05") with (Some 5).
    change (JsNumber.parseInt "03") with (Some 3).
    change (JsNumber.parseInt "2024") with (Some 2024).
    cbv iota.
    change ((1 <=? 5) && (5 <=? 12) && (1 <=? 3) && (3 <=? 31)) with true.
    cbv iota.
    let v := eval vm_compute in (MakeDay 2024 (5 - 1) 3) in
    change (MakeDay 2024 (5 - 1) 3) with v.
    let v := eval vm_compute in (day_number 2024 5 3) in
    change (day_number 2024 5 3) with v.
    unfold MakeDate. rewrite Z.add_0_r.
    apply TimeClip_in_range.
    unfold UTC.
    match goal with |- context [tza ?x false] => pose proof (Htz x false) as B end.
    revert B. clear. unfold msPerDay, maxTime. lia.
  - let v := eval vm_compute in (iso_fields "31/01/2024") in
    change (iso_fields "31/01/2024") with v.
    cbv iota. reflexivity.
Qed.

(** The year of a moment of the year [y] that is two days or more from
    both ends of the year, read in local time and read in UTC. *)
Lemma year_within tza y x :
  zone_offset tza →
  (DayFromYear y + 2) * msPerDay ≤ x < (DayFromYear (y + 1) - 2) * msPerDay →
  getFullYear tza (Some (UTC tza x)) = Some y
  ∧ YearFromTime (UTC tza x) = y.
Proof.
  intros Z R. unfold getFullYear, YearFromTime.
  cbn [fmap option_fmap option_map].
  pose proof (DateFacts.zone_within tza x Z) as W.
  pose proof (Z x false) as B.
  split; [f_equal|]; apply CalendarFacts.YearFromDay_unique.
  - set (v := LocalTime tza (UTC tza x)) in *. clearbody v.
    set (a := DayFromYear y) in *. set (b := DayFromYear (y + 1)) in *.
    clearbody a b. unfold Day, msPerDay in *. Z.div_mod_to_equations. lia.
  - unfold UTC. set (o := tza x false) in *. clearbody o.
    set (a := DayFromYear y) in *. set (b := DayFromYear (y + 1)) in *.
    clearbody a b. unfold Day, msPerDay in *. Z.div_mod_to_equations. lia.
Qed.

(** A candidate whose date the engine does not read stops the commit. *)
Lemma unreadable_date_fails h s (t : CsvTransaction) raw :
  parsedData s = [t] → selectedTransactions s = ∅ →
  t !! "date" = Some raw →
  JsDate.parse (LocalTZA h) (dateFallback h) raw = None →
  (importTransactions h s).2 = None
  ∧ uploadStatus (importTransactions h s).1 = error.
Proof.
  intros P S D N.
  assert (∀ u, ∃ m, build_batch h u (selectedTransactions s) (parsedData s) = Throw m) as B.
  { intros u. destruct (build_batch h u _ _) as [b|m] eqn:E; [|eauto].
    exfalso.
    assert (Forall (convertible h) (chosen_rows (selectedTransactions s) (parsedData s)))
      as F by (apply (CommitFacts.build_batch_spec h u); eauto).
    rewrite S, CommitFacts.chosen_rows_empty, P in F.
    inversion_clear F as [|? ? [_ [x Hx]] _]. rewrite D in Hx. simpl in Hx. congruence. }
  unfold importTransactions. rewrite P. destruct (authUser h) as [u|]; [|done].
  destruct (B u) as [m Bm]. rewrite P in Bm. simpl selectedTransactions.
  simpl parsedData. rewrite P, Bm. done.
Qed.

End CommitDateFacts.

(** C9. The date at commit ignores the layout. The date of a committed
    record is the engine's own reading of the candidate's raw date string,
    [new Date(raw).toISOString()], in which the layout of the session has
    no part, whereas validation read the string with [parseDate] under the
    layout. So there is a candidate that passes validation under
    DD/MM/YYYY and is committed as another day: ["0005-03-20T12:34"] is
    accepted as 5 March 201234 and committed as a day of the year 5, on
    every host whose zone has the day accepted. On a host that reads a
    date with slashes month first, as the browsers do, ["05/03/2024"] is
    accepted as 5 March and committed as 3 May, and ["31/01/2024"] is
    accepted and then makes the commit fail at the conversion. A zone of
    one offset below a day is within these conditions: it has every day. *)
Theorem commit_date_ignores_layout (h : Host) :
  let tza := LocalTZA h in
  zone_offset tza →
  (∀ s batch, (importTransactions h s).2 = Some batch →
     Forall2
       (λ (t : CsvTransaction) db,
          JsDate.toISOString (t !! "date" ≫= JsDate.parse tza (dateFallback h))
          = Ok (transaction_date db))
       (chosen_rows (selectedTransactions s) (parsedData s)) batch)
  ∧ (zone_has_day tza (day_number 201234 3 5) →
     ∃ (t : CsvTransaction) accepted committed,
       t = candidate "0005-03-20T12:34" "Lunch" "12.50" "Food" "expense"
       ∧ validateTransactions tza [t] (layout_format DMY) = Ok []
       ∧ parseDate tza (field t "date") (layout_format DMY) = Some accepted
       ∧ parses_as tza DMY (field t "date") accepted
       ∧ JsDate.getFullYear tza (Some accepted) = Some 201234
       ∧ JsDate.parse tza (dateFallback h) (field t "date") = Some committed
       ∧ JsDate.getFullYear tza (Some committed) = Some 5
       ∧ JsDate.YearFromTime committed = 5
       ∧ ∀ s batch,
           parsedData s = [t] → selectedTransactions s = ∅ →
           (importTransactions h s).2 = Some batch →
           transaction_date <$> batch = [JsDate.iso_string committed])
  ∧ (dateFallback h = month_first_fallback tza →
     (zone_has_day tza (day_number 2024 3 5) →
      zone_has_day tza (day_number 2024 5 3) →
      ∃ accepted committed,
        parseDate tza "05/03/2024" (layout_format DMY) = Some accepted
        ∧ JsDate.getMonth tza (Some accepted) = Some 2
        ∧ JsDate.getDate tza (Some accepted) = Some 5
        ∧ JsDate.parse tza (dateFallback h) "05/03/2024" = Some committed
        ∧ JsDate.getMonth tza (Some committed) = Some 4
        ∧ JsDate.getDate tza (Some committed) = Some 3)
     ∧ (zone_has_day tza (day_number 2024 1 31) →
        is_Some (parseDate tza "31/01/2024" (layout_format DMY)))
     ∧ ∀ s (t : CsvTransaction),
         parsedData s = [t] → selectedTransactions s = ∅ →
         t !! "date" = Some "31/01/2024" →
         (importTransactions h s).2 = None
         ∧ uploadStatus (importTransactions h s).1 = error)
  ∧ ∀ offset, Z.abs offset < JsDate.msPerDay →
      zone_offset (JsDate.fixed_zone offset)
      ∧ ∀ day, zone_has_day (JsDate.fixed_zone offset) day.
Proof.
  intros tza Htz. split; [|split; [|split]].
  - intros s batch (_ & u & _ & B)%CommitFacts.submitted_iff.
    apply CommitFacts.build_batch_spec in B as [B _].
    eapply Forall2_impl; [exact B|]. by intros t db (_ & _ & _ & _ & _ & D).
  - intros K.
    set (t := candidate "0005-03-20T12:34" "Lunch" "12.50" "Food" "expense").
    exists t, (JsDate.UTC tza (day_number 201234 3 5 * JsDate.msPerDay)),
           (JsDate.UTC tza (day_number 5 3 20 * JsDate.msPerDay + 45240000)).
    split; [done|].
    assert (t !! "date" = Some "0005-03-20T12:34") as Dt by (vm_compute; reflexivity).
    assert (field t "date" = "0005-03-20T12:34") as -> by (unfold field; by rewrite Dt).
    assert (valid_calendar_date 201234 3 5) as V
      by (split; vm_compute; split; discriminate).
    assert (parses_as tza DMY "0005-03-20T12:34"
              (JsDate.UTC tza (day_number 201234 3 5 * JsDate.msPerDay))) as P.
    { exists "0005", "03", "201234". split; [reflexivity|].
      repeat (split; [split; [done|repeat constructor]|]).
      exists 201234, 3, 5. split; [reflexivity|].
      split; [exact V|].
      split; [vm_compute; discriminate|]. split; [reflexivity|].
      split; [|exact K].
      let n := eval vm_compute in (day_number 201234 3 5) in
      change (day_number 201234 3 5) with n;
      pose proof (Htz (n * JsDate.msPerDay) false) as B.
      unfold JsDate.UTC. revert B. clear.
      unfold JsDate.msPerDay, JsDate.maxTime. lia. }
    pose proof (proj2 (DateFacts.parseDate_iff _ _ _ _ Htz) P) as PD.
    pose proof (CommitDateFacts.parse_iso_example tza (dateFallback h) Htz) as PI.
    assert (JsDate.getFullYear tza
              (Some (JsDate.UTC tza (day_number 5 3 20 * JsDate.msPerDay + 45240000)))
            = Some 5
            ∧ JsDate.YearFromTime
                (JsDate.UTC tza (day_number 5 3 20 * JsDate.msPerDay + 45240000)) = 5)
      as [Y1 Y2].
    { apply CommitDateFacts.year_within; [exact Htz|].
      let n := eval vm_compute in (day_number 5 3 20) in
      change (day_number 5 3 20) with n.
      change (JsDate.DayFromYear 5) with (-717701).
      change (JsDate.DayFromYear (5 + 1)) with (-717336).
      unfold JsDate.msPerDay. lia. }
    split.
    { apply ValidatorFacts.validateTransactions_nil. constructor; [|constructor].
      split; [repeat split; eexists; vm_compute; reflexivity|].
      split; [|split; vm_compute; reflexivity].
      unfold date_ok, field. rewrite Dt. cbn [default from_option id Datatypes.id].
      by rewrite PD. }
    split; [done|]. split; [done|].
    split; [by apply CommitDateFacts.local_fields|].
    split; [done|]. split; [exact Y1|]. split; [exact Y2|].
    intros s batch Ps Ss B.
    apply CommitFacts.submitted_iff in B as (_ & u & _ & B).
    apply CommitFacts.build_batch_spec in B as [B _].
    rewrite Ss, CommitFacts.chosen_rows_empty, Ps in B.
    apply Forall2_cons_inv_l in B as (db & rest & (_ & _ & _ & _ & _ & D) & B & ->).
    apply Forall2_nil_inv_l in B as ->.
    rewrite Dt in D. cbn [mbind option_bind] in D. fold tza in D. rewrite PI in D.
    injection D as D. cbn [fmap list_fmap]. by rewrite <- D.
  - intros Fb. destruct (CommitDateFacts.parse_month_first tza Htz) as [P1 P2].
    split; [|split].
    + intros K1 K2.
      exists (JsDate.UTC tza (day_number 2024 3 5 * JsDate.msPerDay)),
             (JsDate.UTC tza (day_number 2024 5 3 * JsDate.msPerDay)).
      split.
      { ValidatorFacts.accept_date tza DMY "05" "03" "2024" 2024 3 5. }
      assert (valid_calendar_date 2024 3 5 ∧ valid_calendar_date 2024 5 3) as [V1 V2].
      { split; split; vm_compute; split; discriminate. }
      destruct (CommitDateFacts.local_fields tza 2024 3 5 V1 K1) as (_ & M1 & D1).
      destruct (CommitDateFacts.local_fields tza 2024 5 3 V2 K2) as (_ & M2 & D2).
      rewrite Fb. done.
    + intros K. eexists. ValidatorFacts.accept_date tza DMY "31" "01" "2024" 2024 1 31.
    + intros s t Ps Ss Dt.
      apply (CommitDateFacts.unreadable_date_fails h s t "31/01/2024"); try done.
      fold tza. by rewrite Fb.
  - intros offset H. split; [by apply DateFacts.fixed_zone_offset|].
    intros day. apply DateFacts.fixed_zone_has_day.
Qed.


(** ** The sample run *)

Lemma parseRawCSV_contract_witness :
  ∃ headerLine dataLines,
    nonblank_lines (file_text sampleFile) = headerLine :: dataLines
    ∧ parseRawCSV (file_text sampleFile) = Ok (sampleHeaders, sampleRows)
    ∧ length sampleRows = length dataLines.
Proof.
  destruct (parseRawCSV_contract (file_text sampleFile)) as (_ & _ & T).
  destruct (proj1 T) as (headerLine & dataLines & L & P & _ & _ & C).
  { vm_compute. lia. }
  exists headerLine, dataLines. split; [exact L|].
  vm_compute in L. injection L as <- <-.
  split; [exact P|]. refine (proj2 (C _)).
  repeat constructor.
Defined.

Lemma validation_gate_all_or_nothing_witness :
  let staged := handle sampleHost (ChooseFile sampleFile) initial in
  let processed := handle sampleHost ProcessFile staged in
  let submitted := onSubmitMapping sampleHost sampleMapping
                     (previewSession [] ∅) in
  (uploadStatus processed = preview
   ∧ parsedData processed
     = mapCsvToTransactions sampleHeaders sampleRows
         (templateMapping sampleHeaders genericTemplate))
  ∧ (uploadStatus submitted = preview ∧ parsedData submitted = sampleCandidates)
  ∧ ∃ format,
      validateTransactions (LocalTZA sampleHost) (parsedData processed) format = Ok [].
Proof.
  intros staged processed submitted.
  destruct (validation_gate_all_or_nothing sampleHost) as (Std & _ & Adv & _ & Inv).
  split; [|split].
  - refine (proj2 (proj2 (Std staged sampleFile sampleHeaders sampleRows genericTemplate
                            [] _ _ _ _ _)) eq_refl);
      vm_compute; reflexivity.
  - refine (proj2 (proj2 (Adv (previewSession [] ∅) sampleMapping [] _)) eq_refl).
    vm_compute. reflexivity.
  - destruct (Inv processed) as (format & _ & V & _).
    { subst processed staged. repeat constructor. }
    exists format. exact V.
Defined.

Lemma commit_amount_sign_witness :
  ∃ batch,
    (importTransactions sampleHost (previewSession sampleCandidates ∅)).2 = Some batch
    ∧ amount <$> batch = [JsNumber.Finite true 50; JsNumber.Finite false 20].
Proof.
  destruct (commit_amount_sign sampleHost (previewSession sampleCandidates ∅)) as [A E].
  destruct E as [batch B].
  { discriminate. }
  { eexists. reflexivity. }
  { cbn [selectedTransactions parsedData previewSession].
    rewrite CommitFacts.chosen_rows_empty.
    repeat constructor; eexists; vm_compute; reflexivity. }
  exists batch. split; [exact B|].
  pose proof (A batch B) as F.
  cbn [selectedTransactions parsedData previewSession] in F.
  rewrite CommitFacts.chosen_rows_empty in F.
  apply Forall2_cons_inv_l in F as (db1 & rest & (raw1 & R1 & X1 & _) & F & ->).
  apply Forall2_cons_inv_l in F as (db2 & rest' & (raw2 & R2 & _ & I2) & F & ->).
  apply Forall2_nil_inv_l in F as ->.
  vm_compute in R1. injection R1 as <-.
  vm_compute in R2. injection R2 as <-.
  destruct X1 as [E1 _]; [vm_compute; reflexivity|].
  destruct I2 as [E2 _]; [vm_compute; reflexivity|].
  cbn [fmap list_fmap]. rewrite E1, E2. vm_compute. reflexivity.
Defined.

Lemma commit_selection_witness :
  (∃ batch,
     (importTransactions sampleHost (previewSession sampleCandidates ∅)).2 = Some batch
     ∧ length batch = 2%nat)
  ∧ (∃ batch,
       (importTransactions sampleHost
          (previewSession sampleCandidates (<[1%nat := true]> (<[0%nat := false]> ∅)))).2
       = Some batch
       ∧ length batch = 1%nat).
Proof.
  split.
  - destruct (commit_selection sampleHost (previewSession sampleCandidates ∅))
      as (S & All & _ & _ & Ex).
    destruct (proj2 Ex) as [batch B].
    { split; [discriminate|]. split; [eexists; reflexivity|].
      rewrite All by reflexivity.
      repeat constructor; eexists; vm_compute; reflexivity. }
    exists batch. split; [exact B|].
    rewrite <- (Forall2_length _ _ _ (S batch B)), All by reflexivity. reflexivity.
  - destruct (commit_selection sampleHost
                (previewSession sampleCandidates (<[1%nat := true]> (<[0%nat := false]> ∅))))
      as (S & _ & Mem & Out & Ex).
    assert (<[1%nat := true]> (<[0%nat := false]> (∅ : gmap nat bool)) ≠ ∅) as NE.
    { intros E. apply (f_equal (λ m : gmap nat bool, m !! 1%nat)) in E.
      vm_compute in E. discriminate E. }
    pose proof (Out NE 0%nat (or_introl eq_refl)) as N0.
    destruct (proj2 Ex) as [batch B].
    { split; [discriminate|]. split; [eexists; reflexivity|].
      apply Forall_forall. intros t Ht. apply (Mem NE) in Ht as (i & L & C).
      destruct i as [|[|i]]; [vm_compute in C; discriminate C| |discriminate L].
      injection L as <-. split; eexists; vm_compute; reflexivity. }
    exists batch. split; [exact B|].
    rewrite <- (Forall2_length _ _ _ (S batch B)). vm_compute. reflexivity.
Defined.

Lemma type_passes_unchecked_witness :
  let rows := [["2024-01-05"; "Coffee"; "-50"; "debit"]] in
  let candidates := mapCsvToTransactions sampleHeaders rows sampleMapping in
  (∃ t, candidates !! 0%nat = Some t ∧ t !! "type" = Some "debit")
  ∧ ∃ batch,
      (importTransactions sampleHost (previewSession candidates ∅)).2 = Some batch
      ∧ amount <$> batch = [JsNumber.Finite false 50].
Proof.
  intros rows candidates.
  destruct (type_passes_unchecked sampleHost) as (Map & _ & Commit & _).
  split.
  - destruct (Map sampleHeaders rows sampleMapping 0%nat
                ["2024-01-05"; "Coffee"; "-50"; "debit"] eq_refl)
      as (t & L & j & T & _ & J).
    { vm_compute. discriminate. }
    exists t. split; [exact L|]. rewrite T.
    assert (Z.of_nat j = 3) as Hj.
    { apply J. vm_compute. intros H.
      repeat (inversion H as [|? ? ? H']; clear H; rename H' into H). }
    replace j with 3%nat by lia. reflexivity.
  - assert (∃ batch, (importTransactions sampleHost (previewSession candidates ∅)).2
                     = Some batch) as [batch B] by (eexists; vm_compute; reflexivity).
    exists batch. split; [exact B|].
    pose proof (Commit _ batch B) as F.
    cbn [selectedTransactions parsedData previewSession] in F.
    rewrite CommitFacts.chosen_rows_empty in F.
    apply Forall2_cons_inv_l in F as (db & rest & (_ & X) & F & ->).
    apply Forall2_nil_inv_l in F as ->.
    destruct X as [E _]; [vm_compute; discriminate|].
    cbn [fmap list_fmap]. rewrite E. vm_compute. reflexivity.
Defined.

Lemma commit_date_ignores_layout_witness :
  let rejected :=
    mapCsvToTransactions ["date"; "description"; "amount"]
      [["31/01/2024"; "Rent"; "900"]]
      {| dateColumn := "date"; amountColumn := "amount";
         descriptionColumn := "description"; categoryColumn := None;
         typeColumn := None; dateFormat := "DD/MM/YYYY";
         defaultCategory := None; defaultType := None |} in
  validateTransactions (LocalTZA sampleHost) rejected "DD/MM/YYYY" = Ok []
  ∧ (importTransactions sampleHost (previewSession rejected ∅)).2 = None
  ∧ uploadStatus (importTransactions sampleHost (previewSession rejected ∅)).1 = error
  ∧ (∃ batch,
       (importTransactions sampleHost (previewSession sampleCandidates ∅)).2 = Some batch
       ∧ transaction_date <$> batch
         = ["2024-01-05T00:00:00.000Z"; "2024-01-06T00:00:00.000Z"])
  ∧ (∃ accepted committed,
       parseDate (LocalTZA sampleHost) "0005-03-20T12:34" "DD/MM/YYYY" = Some accepted
       ∧ JsDate.getFullYear (LocalTZA sampleHost) (Some accepted) = Some 201234
       ∧ JsDate.parse (LocalTZA sampleHost) (dateFallback sampleHost) "0005-03-20T12:34"
         = Some committed
       ∧ JsDate.getFullYear (LocalTZA sampleHost) (Some committed) = Some 5)
  ∧ (∃ accepted committed,
       parseDate (LocalTZA sampleHost) "05/03/2024" "DD/MM/YYYY" = Some accepted
       ∧ JsDate.getMonth (LocalTZA sampleHost) (Some accepted) = Some 2
       ∧ JsDate.parse (LocalTZA sampleHost) (dateFallback sampleHost) "05/03/2024"
         = Some committed
       ∧ JsDate.getMonth (LocalTZA sampleHost) (Some committed) = Some 4)
  ∧ is_Some (parseDate (LocalTZA sampleHost) "31/01/2024" "DD/MM/YYYY").
Proof.
  intros rejected.
  assert (zone_offset (LocalTZA sampleHost)) as Z0
    by (intros t isUTC; vm_compute; reflexivity).
  destruct (commit_date_ignores_layout sampleHost Z0)
    as (Dates & Layout & Fails & Fixed).
  destruct (Fixed 0) as [_ K]; [reflexivity|].
  pose proof (K (day_number 201234 3 5)) as K0.
  pose proof (K (day_number 2024 3 5)) as K1.
  pose proof (K (day_number 2024 5 3)) as K2.
  pose proof (K (day_number 2024 1 31)) as K3.
  destruct (Fails eq_refl) as (Swap & Accepted & Stop).
  split; [vm_compute; reflexivity|].
  assert ((∃ accepted committed,
             parseDate (LocalTZA sampleHost) "0005-03-20T12:34" "DD/MM/YYYY"
             = Some accepted
             ∧ JsDate.getFullYear (LocalTZA sampleHost) (Some accepted) = Some 201234
             ∧ JsDate.parse (LocalTZA sampleHost) (dateFallback sampleHost)
                 "0005-03-20T12:34" = Some committed
             ∧ JsDate.getFullYear (LocalTZA sampleHost) (Some committed) = Some 5)
          ∧ (∃ accepted committed,
               parseDate (LocalTZA sampleHost) "05/03/2024" "DD/MM/YYYY" = Some accepted
               ∧ JsDate.getMonth (LocalTZA sampleHost) (Some accepted) = Some 2
               ∧ JsDate.parse (LocalTZA sampleHost) (dateFallback sampleHost)
                   "05/03/2024" = Some committed
               ∧ JsDate.getMonth (LocalTZA sampleHost) (Some committed) = Some 4)
          ∧ is_Some (parseDate (LocalTZA sampleHost) "31/01/2024" "DD/MM/YYYY"))
    as Readings.
  { split; [|split; [|exact (Accepted K3)]].
    - destruct (Layout K0) as (t & accepted & committed & -> & _ & P & _ & Y & C & Y' & _).
      exists accepted, committed.
      split; [exact P|]. split; [exact Y|]. split; [exact C|exact Y'].
    - destruct (Swap K1 K2) as (accepted & committed & P & M & _ & C & M' & _).
      exists accepted, committed.
      split; [exact P|]. split; [exact M|]. split; [exact C|exact M']. }
  destruct (Stop (previewSession rejected ∅)
              (map_row ["date"; "description"; "amount"]
                 {| dateColumn := "date"; amountColumn := "amount";
                    descriptionColumn := "description"; categoryColumn := None;
                    typeColumn := None; dateFormat := "DD/MM/YYYY";
                    defaultCategory := None; defaultType := None |}
                 ["31/01/2024"; "Rent"; "900"]))
    as [N E]; [reflexivity|reflexivity|vm_compute; reflexivity|].
  split; [exact N|]. split; [exact E|]. split; [|exact Readings].
  assert (∃ batch, (importTransactions sampleHost (previewSession sampleCandidates ∅)).2
                   = Some batch) as [batch B] by (eexists; vm_compute; reflexivity).
  exists batch. split; [exact B|].
  pose proof (Dates _ batch B) as F.
  cbn [selectedTransactions parsedData previewSession] in F.
  rewrite CommitFacts.chosen_rows_empty in F.
  apply Forall2_cons_inv_l in F as (db1 & rest & D1 & F & ->).
  apply Forall2_cons_inv_l in F as (db2 & rest' & D2 & F & ->).
  apply Forall2_nil_inv_l in F as ->.
  match type of D1 with
  | ?l = _ => let v := eval vm_compute in l in change l with v in D1
  end.
  match type of D2 with
  | ?l = _ => let v := eval vm_compute in l in change l with v in D2
  end.
  injection D1 as D1. injection D2 as D2.
  cbn [fmap list_fmap]. rewrite <- D1, <- D2. reflexivity.
Defined.


(** * Further properties of the page *)

(** ** Lines of CSV: what the tokenizer gives back *)

Module CsvLineFacts.
Import JsString.

Lemma quote_free_app a b : quote_free a → quote_free b → quote_free (a +:+ b).
Proof.
  unfold quote_free. induction a as [|c a IH]; [done|].
  intros Ha Hb. inversion_clear Ha as [|? ? Hc Hr].
  change (Forall (λ c, Ascii.eqb c quote = false)
            (c :: list_ascii_of_string (a +:+ b))).
  constructor; [done|]. by apply IH.
Qed.

(** Inside quotes, or on text without commas, the loop gathers the
    characters into the current field. *)
Lemma loop_gather f :
  quote_free f →
  ∀ inQuotes, (inQuotes = false → comma_free f) →
  ∀ rest result current,
    parseCsvLine_loop (f +:+ rest) result current inQuotes
    = parseCsvLine_loop rest result (current +:+ f) inQuotes.
Proof.
  unfold quote_free, comma_free. induction f as [|c f IH]; intros Q q C rest result current.
  - by rewrite TokenizerFacts.append_nil_r.
  - inversion_clear Q as [|? ? Qc Qf].
    change (String c f +:+ rest) with (String c (f +:+ rest)).
    cbn [parseCsvLine_loop]. rewrite Qc.
    assert (Ascii.eqb c comma && negb q = false) as ->.
    { destruct q; [apply andb_false_r|].
      specialize (C eq_refl). inversion_clear C as [|? ? Cc _]. by rewrite Cc. }
    rewrite IH; [|done|].
    + by rewrite TokenizerFacts.append_assoc.
    + intros ->. specialize (C eq_refl). by inversion_clear C.
Qed.

(** A cell that writes [f] adds [f] to the current field and leaves the
    loop outside quotes. *)
Lemma loop_cell f cell :
  quote_free f → encodes f cell →
  ∀ rest result current,
    parseCsvLine_loop (cell +:+ rest) result current false
    = parseCsvLine_loop rest result (current +:+ f) false.
Proof.
  intros Q [C|] rest result current.
  - by apply loop_gather.
  - unfold quoted.
    change (String quote (f +:+ String quote EmptyString) +:+ rest)
      with (String quote ((f +:+ String quote EmptyString) +:+ rest)).
    cbn [parseCsvLine_loop]. rewrite Ascii.eqb_refl. cbn [negb].
    rewrite TokenizerFacts.append_assoc, loop_gather by done.
    change (String quote EmptyString +:+ rest) with (String quote rest).
    cbn [parseCsvLine_loop]. by rewrite Ascii.eqb_refl.
Qed.

Lemma loop_comma rest result current :
  parseCsvLine_loop (String comma EmptyString +:+ rest) result current false
  = parseCsvLine_loop rest (result ++ [trim current]) EmptyString false.
Proof. reflexivity. Qed.

Lemma loop_cells fields cells :
  Forall quote_free fields → Forall2 encodes fields cells → fields ≠ [] →
  ∀ result,
    parseCsvLine_loop (join (String comma EmptyString) cells) result EmptyString false
    = result ++ (trim <$> fields).
Proof.
  intros Q E. induction E as [|f cell fields cells Ef E IH]; [done|].
  intros _ result. inversion_clear Q as [|? ? Qf Qr].
  destruct E as [|f' cell' fields' cells' Ef' E'].
  - cbn [join]. rewrite <- (TokenizerFacts.append_nil_r cell).
    by rewrite (loop_cell f cell Qf Ef).
  - change (join (String comma EmptyString) (cell :: cell' :: cells'))
      with (cell +:+ String comma EmptyString
            +:+ join (String comma EmptyString) (cell' :: cells')).
    rewrite (loop_cell f cell Qf Ef), loop_comma, IH by done.
    by rewrite <- app_assoc.
Qed.

(** A field that the loop pushes is clean, so that the last step of
    [parseCsvLine] leaves it as it is. *)
Lemma trim_clean current : quote_free current → clean (trim current).
Proof.
  intros Q. split; [|apply TokenizerFacts.trim_idem].
  unfold trim. by apply TokenizerFacts.trimEnd_quote_free,
                        TokenizerFacts.trimStart_quote_free.
Qed.

Lemma clean_fixed f : clean f → trim (strip_outer_quotes f) = f.
Proof. intros [Q T]. by rewrite TokenizerFacts.strip_outer_quotes_quote_free. Qed.

Lemma loop_clean line :
  ∀ result current inQuotes,
    Forall clean result → quote_free current →
    Forall clean (parseCsvLine_loop line result current inQuotes).
Proof.
  induction line as [|c line IH]; intros result current q R Q; cbn [parseCsvLine_loop].
  - apply Forall_app. split; [done|]. constructor; [by apply trim_clean|constructor].
  - destruct (Ascii.eqb c quote) eqn:Cq; [by apply IH|].
    destruct (Ascii.eqb c comma && negb q).
    + apply IH; [|constructor].
      apply Forall_app. split; [done|]. constructor; [by apply trim_clean|constructor].
    + apply IH; [done|]. apply quote_free_app; [done|]. by repeat constructor.
Qed.

Lemma loop_length line :
  ∀ result current inQuotes,
    (length result < length (parseCsvLine_loop line result current inQuotes)
     ≤ length result + S (commas line))%nat.
Proof.
  unfold commas.
  induction line as [|c line IH]; intros result current q; cbn [parseCsvLine_loop].
  - rewrite length_app. simpl. lia.
  - cbn [list_ascii_of_string List.filter].
    destruct (Ascii.eqb c quote) eqn:Cq.
    + specialize (IH result current (negb q)).
      destruct (Ascii.eqb c comma); simpl; lia.
    + destruct (Ascii.eqb c comma) eqn:Cc; simpl.
      * destruct q; simpl.
        -- specialize (IH result (current +:+ String c EmptyString) true). lia.
        -- specialize (IH (result ++ [trim current]) EmptyString false).
           rewrite length_app in IH. simpl in IH. lia.
      * apply IH.
Qed.

(** A carriage return at the end of a field goes away with the white
    space around the field. *)
Lemma trimEnd_CR s : trimEnd (s +:+ CR) = trimEnd s.
Proof.
  induction s as [|c s IH]; [done|].
  change (String c s +:+ CR) with (String c (s +:+ CR)).
  cbn [trimEnd]. by rewrite IH.
Qed.

Lemma trimStart_CR s :
  (trimStart s = EmptyString ∧ trimStart (s +:+ CR) = EmptyString)
  ∨ trimStart (s +:+ CR) = trimStart s +:+ CR.
Proof.
  induction s as [|c s IH]; [by left|].
  change (String c s +:+ CR) with (String c (s +:+ CR)).
  cbn [trimStart]. destruct (is_space c); [done|by right].
Qed.

Lemma trim_CR s : trim (s +:+ CR) = trim s.
Proof.
  unfold trim. destruct (trimStart_CR s) as [[-> ->] | ->]; [done|apply trimEnd_CR].
Qed.

Lemma loop_CR line :
  ∀ result current inQuotes,
    parseCsvLine_loop (line +:+ CR) result current inQuotes
    = parseCsvLine_loop line result current inQuotes.
Proof.
  induction line as [|c line IH]; intros result current q.
  - change (EmptyString +:+ CR) with CR. unfold CR. cbn [parseCsvLine_loop].
    change (Ascii.eqb "013" quote) with false.
    change (Ascii.eqb "013" comma) with false. cbn [andb].
    change (String "013" EmptyString) with CR. by rewrite trim_CR.
  - change (String c line +:+ CR) with (String c (line +:+ CR)).
    cbn [parseCsvLine_loop]. by rewrite !IH.
Qed.

Lemma is_blank_CR line : is_blank (line +:+ CR) = is_blank line.
Proof. unfold is_blank. by rewrite trim_CR. Qed.

(** Lines without a line feed, joined by line feeds, split into
    themselves. *)
Lemma split_line l rest :
  newline_free l →
  split (Ascii.eqb newline) (l +:+ String newline rest)
  = l :: split (Ascii.eqb newline) rest.
Proof.
  unfold newline_free. induction l as [|c l IH]; intros N.
  - change (EmptyString +:+ String newline rest) with (String newline rest).
    cbn [split]. by rewrite Ascii.eqb_refl.
  - inversion_clear N as [|? ? Nc Nl].
    change (String c l +:+ String newline rest)
      with (String c (l +:+ String newline rest)).
    cbn [split]. rewrite Ascii.eqb_sym, Nc. by rewrite IH.
Qed.

Lemma split_one l :
  newline_free l → split (Ascii.eqb newline) l = [l].
Proof.
  unfold newline_free. induction l as [|c l IH]; intros N; [done|].
  inversion_clear N as [|? ? Nc Nl]. cbn [split].
  rewrite Ascii.eqb_sym, Nc. by rewrite IH.
Qed.

Lemma split_join lines :
  Forall newline_free lines → lines ≠ [] →
  split (Ascii.eqb newline) (join LF lines) = lines.
Proof.
  induction 1 as [|l lines Nl N IH]; [done|]. intros _.
  destruct lines as [|l' lines].
  - by apply split_one.
  - change (join LF (l :: l' :: lines)) with (l +:+ LF +:+ join LF (l' :: lines)).
    unfold LF at 1.
    change (String newline EmptyString +:+ join LF (l' :: lines))
      with (String newline (join LF (l' :: lines))).
    rewrite split_line by done. by rewrite IH.
Qed.

Lemma newline_free_CR l : newline_free l → newline_free (l +:+ CR).
Proof.
  unfold newline_free. induction l as [|c l IH]; intros N.
  - by repeat constructor.
  - inversion_clear N. change (String c l +:+ CR) with (String c (l +:+ CR)).
    constructor; [done|]. by apply IH.
Qed.

Lemma filter_nonblank_CR (lines : list string) :
  List.filter (λ line, negb (is_blank line)) ((λ l, l +:+ CR) <$> lines)
  = (λ l, l +:+ CR) <$> List.filter (λ line, negb (is_blank line)) lines.
Proof.
  induction lines as [|l lines IH]; [done|].
  cbn [fmap list_fmap List.filter]. rewrite is_blank_CR.
  fold (@fmap list _ _ _ (λ l, l +:+ CR) lines).
  rewrite IH. by destruct (is_blank l).
Qed.

End CsvLineFacts.

(** X1. Round trip of a line. A row of fields without double quotes,
    written as a line with each field either as it stands (when it has no
    comma) or between double quotes, and the cells joined by commas, is
    read back by [parseCsvLine] as the same fields, each trimmed of the
    white space around it. *)
Theorem parseCsvLine_round_trip (fields cells : list string) :
  fields ≠ [] →
  Forall quote_free fields →
  Forall2 encodes fields cells →
  parseCsvLine (JsString.join "," cells) = JsString.trim <$> fields.
Proof.
  intros NE Q E. unfold parseCsvLine.
  change ","%string with (String JsString.comma EmptyString).
  rewrite (CsvLineFacts.loop_cells fields cells Q E NE), app_nil_l.
  rewrite <- list_fmap_compose. apply Forall_fmap_ext_1.
  eapply Forall_impl; [exact Q|]. intros f Qf. simpl.
  apply CsvLineFacts.clean_fixed. by apply CsvLineFacts.trim_clean.
Qed.

(** X2. What a line gives. [parseCsvLine] returns at least one field and at
    most one more than the line has commas; no field holds a double quote
    (so the pair of quotes that stands for one quote inside a quoted field
    is dropped, not kept), and every field is trimmed. The fields are the
    ones the loop pushes: the last step, which strips one leading and one
    trailing quote and trims again, changes nothing. *)
Theorem parseCsvLine_fields (line : string) :
  parseCsvLine line = parseCsvLine_loop line [] EmptyString false
  ∧ (1 ≤ length (parseCsvLine line) ≤ S (commas line))%nat
  ∧ Forall (λ f, quote_free f ∧ JsString.trim f = f) (parseCsvLine line).
Proof.
  assert (Forall clean (parseCsvLine_loop line [] EmptyString false)) as C.
  { apply CsvLineFacts.loop_clean; constructor. }
  assert (parseCsvLine line = parseCsvLine_loop line [] EmptyString false) as E.
  { unfold parseCsvLine. rewrite <- (list_fmap_id (parseCsvLine_loop _ _ _ _)) at 2.
    apply Forall_fmap_ext_1. eapply Forall_impl; [exact C|].
    intros f Hf. by apply CsvLineFacts.clean_fixed. }
  split; [exact E|]. rewrite E. split; [|exact C].
  pose proof (CsvLineFacts.loop_length line [] EmptyString false) as L.
  simpl in L. lia.
Qed.

(** X3. Line ends. A carriage return at the end of a line changes neither
    the fields of the line nor whether the line counts as blank, so a text
    with CR LF line ends is tokenized like the same text with LF line
    ends. *)
Theorem parseRawCSV_ignores_carriage_returns :
  (∀ line, parseCsvLine (line +:+ CR) = parseCsvLine line
           ∧ is_blank (line +:+ CR) = is_blank line)
  ∧ (∀ lines, Forall newline_free lines →
       parseRawCSV (JsString.join LF ((λ l, l +:+ CR) <$> lines))
       = parseRawCSV (JsString.join LF lines)).
Proof.
  assert (∀ line, parseCsvLine (line +:+ CR) = parseCsvLine line) as P.
  { intros line. unfold parseCsvLine. by rewrite CsvLineFacts.loop_CR. }
  split; [intros line; split; [apply P|apply CsvLineFacts.is_blank_CR]|].
  intros lines N. destruct lines as [|l0 lines]; [done|].
  unfold parseRawCSV, nonblank_lines.
  rewrite !CsvLineFacts.split_join; try done.
  2: { apply Forall_fmap. eapply Forall_impl; [exact N|].
       intros l. apply CsvLineFacts.newline_free_CR. }
  rewrite CsvLineFacts.filter_nonblank_CR.
  destruct (List.filter _ (l0 :: lines)) as [|h [|d ds]]; [done|done|].
  assert (∀ ls : list string,
            parseCsvLine <$> ((λ l, l +:+ CR) <$> ls) = parseCsvLine <$> ls) as E.
  { intros ls. rewrite <- list_fmap_compose. apply list_fmap_ext. intros _ l _. apply P. }
  change ((λ l, l +:+ CR) <$> h :: d :: ds)
    with ((h +:+ CR) :: ((λ l, l +:+ CR) <$> d :: ds)).
  cbn zeta. destruct ((λ l, l +:+ CR) <$> d :: ds) eqn:D; [done|].
  rewrite <- D, P, E. done.
Qed.


(** ** Amounts: what the validator lets through *)

Module AmountFacts.
Import JsString JsNumber.

Lemma amount_char_facts c :
  is_amount_char c = true →
  is_space c = false ∧ Ascii.eqb c "+" = false ∧ Ascii.eqb "I" c = false
  ∧ (is_digit c = false → Ascii.eqb c "-" = false → Ascii.eqb "." c = true)
  ∧ (is_digit c = true → Ascii.eqb c "-" = false)
  ∧ Ascii.eqb c "." = Ascii.eqb "." c.
Proof. StringFacts.ascii_cases c; vm_compute; intuition congruence. Qed.

(** [parseFloat] past the sign. *)
Lemma float_body negative s :
  headed s →
  ∃ q,
    (if startsWith s "Infinity" then Infinity negative
     else
       let '(int_part, s) := span is_digit s in
       let '(frac_part, s) :=
         match strip_prefix "." s with
         | Some r => span is_digit r
         | None => (EmptyString, s)
         end in
       match int_part, frac_part with
       | EmptyString, EmptyString => NaN
       | _, _ =>
           let mantissa := digits_value 10 decimal_digit (int_part +:+ frac_part) in
           let e := exponent_part s - Z.of_nat (String.length frac_part) in
           Finite negative (Qred (inject_Z mantissa * pow10 e))
       end)
    = if numeral_head s then Finite negative q else NaN.
Proof.
  destruct s as [|d r]; [by exists 0%Q|].
  intros H. destruct (amount_char_facts d H) as (_ & _ & I & Dot & _ & Sym).
  unfold startsWith.
  change (strip_prefix "Infinity" (String d r))
    with (if Ascii.eqb "I" d then strip_prefix "nfinity" r else None).
  rewrite I.
  cbn [span numeral_head]. destruct (is_digit d) eqn:D.
  - destruct (span is_digit r) as [a b].
    destruct (match strip_prefix "." b with
              | Some r0 => span is_digit r0
              | None => (EmptyString, b)
              end) as [frac rest].
    cbn [orb]. eexists. reflexivity.
  - cbn [strip_prefix orb]. rewrite Sym. destruct (Ascii.eqb "." d) eqn:P.
    + cbn [andb]. destruct r as [|e r']; [by exists 0%Q|].
      cbn [span]. destruct (is_digit e) eqn:E; [|by exists 0%Q].
      destruct (span is_digit r') as [a b]. eexists. reflexivity.
    + by exists 0%Q.
Qed.

Lemma parseFloat_amount s :
  Forall (λ c, is_amount_char c = true) (list_ascii_of_string s) →
  ∃ q, parseFloat s
       = if amount_shape s then Finite (starts_with_minus s) q else NaN.
Proof.
  destruct s as [|c r]; [by exists 0%Q|].
  intros H. inversion_clear H as [|? ? Hc Hr].
  destruct (amount_char_facts c Hc) as (S & Plus & _ & _ & Dg & _).
  unfold parseFloat. cbn [trimStart]. rewrite S.
  unfold sign_prefix, amount_shape, starts_with_minus.
  destruct (Ascii.eqb c "-") eqn:M.
  - apply (float_body true r). destruct r; [done|]. by inversion_clear Hr.
  - rewrite Plus. apply (float_body false (String c r)). exact Hc.
Qed.

End AmountFacts.

(** X4. The amounts that pass. Of a raw amount only the digits, dots and
    minus signs count. The amount check of the validator passes exactly
    when what is left starts with at most one minus sign followed by a
    digit, or by a dot and a digit; whatever comes after that numeral is
    dropped without notice. The amount is read as negative exactly when
    the first character left is a minus sign. *)
Theorem parse_amount_shape (raw : string) :
  let cleaned := JsString.keep_chars is_amount_char raw in
  JsNumber.isNaN (parse_amount raw) = negb (amount_shape cleaned)
  ∧ (amount_shape cleaned = true →
     JsNumber.is_negative (parse_amount raw) = starts_with_minus cleaned).
Proof.
  intros cleaned. unfold parse_amount. fold cleaned.
  destruct (AmountFacts.parseFloat_amount cleaned) as [q E].
  { apply StringFacts.keep_chars_Forall. }
  rewrite E. destruct (amount_shape cleaned); [|done]. by split.
Qed.


(** ** The mapping form *)

Module FormFacts.

Lemma or_empty_id v : or_empty v = v.
Proof.
  unfold or_empty, or_else, truthy.
  destruct (String.eqb_spec v EmptyString) as [->|]; done.
Qed.

Lemma resetForm_found headers selected form template :
  headers ≠ [] → findTemplate selected = Some template →
  resetForm headers selected form
  = {| dateColumn := findBestMatchingHeader headers (th_date (bt_headers template));
       amountColumn := findBestMatchingHeader headers (th_amount (bt_headers template));
       descriptionColumn :=
         findBestMatchingHeader headers (th_description (bt_headers template));
       categoryColumn :=
         Some (if truthy (th_category (bt_headers template))
               then findBestMatchingHeader headers
                      (default EmptyString (th_category (bt_headers template)))
               else EmptyString);
       typeColumn :=
         Some (if truthy (th_type (bt_headers template))
               then findBestMatchingHeader headers
                      (default EmptyString (th_type (bt_headers template)))
               else EmptyString);
       dateFormat := bt_dateFormat template;
       defaultCategory := Some "Uncategorized";
       defaultType := Some "expense" |}.
Proof.
  intros NE F. unfold resetForm. rewrite F.
  destruct headers; [done|]. cbn [length Nat.ltb Nat.leb].
  cbv zeta. by rewrite !or_empty_id.
Qed.

(** The form filled from a template resolves to the same columns as the
    mapping that standard mode builds from it. *)
Lemma resetForm_indices headers selected form template :
  headers ≠ [] → findTemplate selected = Some template →
  resolve_indices headers (resetForm headers selected form)
  = resolve_indices headers (templateMapping headers template).
Proof.
  intros NE F. rewrite (resetForm_found _ _ _ _ NE F).
  unfold resolve_indices, templateMapping.
  cbn [dateColumn amountColumn descriptionColumn categoryColumn typeColumn].
  destruct (truthy (th_category (bt_headers template))),
           (truthy (th_type (bt_headers template))); reflexivity.
Qed.

Lemma template_known selected template :
  findTemplate selected = Some template →
  bt_id template = selected
  ∧ existsb (String.eqb (bt_dateFormat template))
      ["YYYY-MM-DD"; "MM/DD/YYYY"; "DD/MM/YYYY"] = true.
Proof.
  unfold findTemplate, bankTemplates. cbn [List.find].
  repeat match goal with
         | |- context [String.eqb ?a selected] =>
             destruct (String.eqb_spec a selected) as [E|_];
             [intros [= <-]; split; [exact E|reflexivity]|]
         end.
  done.
Qed.

Lemma min_1_nil path message value :
  min_1 path message value = [] ↔ value ≠ EmptyString.
Proof. unfold min_1. by destruct value. Qed.

End FormFacts.

(** X5. The form as the effect fills it. Once headers are at hand and the
    selected template is known, the effect resets the form so that
    submitting it untouched maps every row to the candidate that standard
    mode builds from the template, and validates under the format of the
    template: [onSubmitMapping] then does to the session what the gate of
    standard mode does with the template. *)
Theorem resetForm_agrees_with_template (h : Host) (s : Session)
    (form : ColumnMapping) (template : BankTemplate) :
  csvHeaders s ≠ [] →
  findTemplate (selectedTemplate s) = Some template →
  let values := resetForm (csvHeaders s) (selectedTemplate s) form in
  let candidates :=
    mapCsvToTransactions (csvHeaders s) (csvData s)
      (templateMapping (csvHeaders s) template) in
  mapCsvToTransactions (csvHeaders s) (csvData s) values = candidates
  ∧ dateFormat values = bt_dateFormat template
  ∧ onSubmitMapping h values s
    = match validation_gate (LocalTZA h) candidates (bt_dateFormat template) s with
      | Ok s' => s'
      | Throw m => setUploadStatus error (setErrorMessage m s)
      end.
Proof.
  intros NE F values candidates.
  assert (mapCsvToTransactions (csvHeaders s) (csvData s) values = candidates) as M.
  { unfold candidates, mapCsvToTransactions. apply list_fmap_ext. intros _ row _.
    unfold map_row. subst values.
    rewrite (FormFacts.resetForm_indices _ _ form _ NE F).
    by rewrite (FormFacts.resetForm_found _ _ form _ NE F). }
  assert (dateFormat values = bt_dateFormat template) as D.
  { subst values. by rewrite (FormFacts.resetForm_found _ _ form _ NE F). }
  split; [exact M|]. split; [exact D|].
  unfold onSubmitMapping. by rewrite M, D.
Qed.

(** X6. When the filled form can be submitted. The schema accepts the form
    that the effect fills from a known template exactly when the header
    matcher found a column for each of the date, the amount and the
    description; the form as it is before any file was read is refused,
    with the three messages of the required columns. A refused form never
    reaches [onSubmitMapping]: the session stays as it is. Without headers,
    or with an unknown template, the effect leaves the form alone. *)
Theorem columnMappingSchema_on_filled_form (headers : list string) (selected : string)
    (form : ColumnMapping) :
  (∀ template,
     headers ≠ [] → findTemplate selected = Some template →
     columnMappingSchema (resetForm headers selected form) = []
     ↔ findBestMatchingHeader headers (th_date (bt_headers template)) ≠ EmptyString
       ∧ findBestMatchingHeader headers (th_amount (bt_headers template)) ≠ EmptyString
       ∧ findBestMatchingHeader headers (th_description (bt_headers template))
         ≠ EmptyString)
  ∧ columnMappingSchema formDefaultValues
    = [too_small "dateColumn" "Date column is required";
       too_small "amountColumn" "Amount column is required";
       too_small "descriptionColumn" "Description column is required"]
  ∧ (∀ h values s, columnMappingSchema values ≠ [] → handleSubmit h values s = s)
  ∧ (headers = [] ∨ findTemplate selected = None →
     resetForm headers selected form = form).
Proof.
  split; [|split; [reflexivity|split]].
  - intros template NE F.
    rewrite (FormFacts.resetForm_found _ _ form _ NE F).
    destruct (FormFacts.template_known _ _ F) as [_ E].
    unfold columnMappingSchema, one_of, optionally.
    cbn [dateColumn amountColumn descriptionColumn categoryColumn typeColumn
         dateFormat defaultCategory defaultType].
    rewrite E. change (existsb (String.eqb "expense") ["income"; "expense"]) with true.
    cbn [app]. rewrite !app_nil_r.
    pose proof (FormFacts.min_1_nil "dateColumn" "Date column is required"
                  (findBestMatchingHeader headers (th_date (bt_headers template))))
      as Hd.
    pose proof (FormFacts.min_1_nil "amountColumn" "Amount column is required"
                  (findBestMatchingHeader headers (th_amount (bt_headers template))))
      as Ha.
    pose proof (FormFacts.min_1_nil "descriptionColumn" "Description column is required"
                  (findBestMatchingHeader headers
                     (th_description (bt_headers template))))
      as Hp.
    split.
    + intros A. apply app_eq_nil in A as [A B]. apply app_eq_nil in B as [B C].
      tauto.
    + intros (A & B & C). apply Hd in A. apply Ha in B. apply Hp in C.
      by rewrite A, B, C.
  - intros h values s N. unfold handleSubmit.
    by destruct (columnMappingSchema values).
  - intros [->|N]; unfold resetForm; [done|]. rewrite N. by destruct (0 <? _)%nat.
Qed.


(** ** The session: where the candidates come from *)

Module ProvenanceFacts.

(** The candidates of a session are as many as the rows of its table,
    and each of them has its five named fields. *)
Lemma provenance_fields s :
  provenance s →
  (parsedData s = [] ∨ length (parsedData s) = length (csvData s))
  ∧ Forall (λ t : CsvTransaction, ∀ k, k ∈ named_fields → is_Some (t !! k))
      (parsedData s).
Proof.
  intros [_ [->|[(f & _ & P) [mapping C]]]]; [split; [by left|constructor]|].
  apply SessionFacts.parseRawCSV_rectangular in P.
  rewrite C. unfold mapCsvToTransactions. split; [right; apply length_fmap|].
  apply Forall_fmap. eapply Forall_impl; [exact P|].
  intros row W k Hk. simpl. by apply SessionFacts.map_row_defined.
Qed.

(** A step that keeps the staged file and the raw table, and either
    keeps the candidates or maps the table anew, keeps the provenance. *)
Lemma keep_table s s' :
  provenance s →
  file s' = file s → csvHeaders s' = csvHeaders s → csvData s' = csvData s →
  (parsedData s' = parsedData s
   ∨ ∃ mapping,
       parsedData s' = mapCsvToTransactions (csvHeaders s) (csvData s) mapping) →
  follows s s'.
Proof.
  intros I F H D P. split.
  - destruct I as [T C].
    unfold provenance, table_of_staged_file, candidates_of_table.
    rewrite F, H, D. split; [exact T|].
    destruct P as [->|[mapping ->]]; [exact C|].
    destruct T as [[-> ->]|T]; [by left|]. right. split; [exact T|]. by exists mapping.
  - intros NE. destruct P as [->|[mapping ->]]; [done|].
    destruct (provenance_fields s I) as [[E|L] _]; [done|].
    unfold mapCsvToTransactions. by rewrite length_fmap.
Qed.

(** Reading the staged file again stores its table; candidates mapped
    from the table stored before are candidates of the new one, which is
    the same. *)
Lemma stage_table s s' f headers data :
  provenance s →
  file s = Some f → parseRawCSV (file_text f) = Ok (headers, data) →
  file s' = Some f → csvHeaders s' = headers → csvData s' = data →
  (parsedData s' = parsedData s
   ∨ ∃ mapping, parsedData s' = mapCsvToTransactions headers data mapping) →
  follows s s'.
Proof.
  intros I F P F' H D Q.
  assert (parsedData s ≠ [] → csvHeaders s = headers ∧ csvData s = data) as Same.
  { intros NE. destruct I as [_ [C|[(f' & Ff & Pf) _]]]; [done|].
    rewrite F in Ff. injection Ff as <-. rewrite P in Pf. by injection Pf as -> ->. }
  assert (table_of_staged_file s') as T.
  { exists f. by rewrite H, D. }
  split.
  - split; [by right|].
    destruct Q as [Q|[mapping Q]].
    + rewrite Q. destruct (decide (parsedData s = [])) as [E|NE]; [by left|].
      destruct (Same NE) as [E1 E2].
      destruct I as [_ [C|[_ [mapping C]]]]; [done|].
      right. split; [exact T|]. exists mapping.
      rewrite H, D, Q, C. congruence.
    + right. split; [exact T|]. exists mapping. by rewrite H, D.
  - intros NE. destruct Q as [->|[mapping ->]]; [done|].
    destruct (provenance_fields s I) as [[E|L] _]; [done|].
    destruct (Same NE) as [_ <-].
    unfold mapCsvToTransactions. by rewrite length_fmap.
Qed.

Lemma gate_fields tza transactions format s s' :
  validation_gate tza transactions format s = Ok s' →
  file s' = file s ∧ csvHeaders s' = csvHeaders s ∧ csvData s' = csvData s
  ∧ selectedTransactions s' = selectedTransactions s
  ∧ (parsedData s' = parsedData s ∨ parsedData s' = transactions).
Proof.
  unfold validation_gate.
  destruct (validateTransactions tza transactions format) as [errors|m]; [|done].
  simpl. intros [= <-]. destruct (length errors =? 0)%nat; simpl; auto 6.
Qed.

Lemma importTransactions_fields h s :
  let s' := (importTransactions h s).1 in
  file s' = file s ∧ csvHeaders s' = csvHeaders s ∧ csvData s' = csvData s
  ∧ parsedData s' = parsedData s
  ∧ selectedTransactions s' = selectedTransactions s.
Proof.
  unfold importTransactions. destruct (parsedData s) eqn:P; [simpl; by rewrite ?P|].
  destruct (authUser h); [|simpl; by rewrite ?P].
  destruct (build_batch _ _ _ _); [|simpl; by rewrite ?P].
  destruct (insertTransactions h _); simpl; by rewrite ?P.
Qed.

Lemma processFile_follows h s : provenance s → follows s (processFile h s).
Proof.
  intros I. unfold processFile. destruct (file s) as [f|] eqn:F.
  2: { by eapply (keep_table s); [exact I|..]; try done; left. }
  unfold processFile_try.
  destruct (parseRawCSV (file_text f)) as [[headers data]|m] eqn:P.
  - simpl uploadMode. simpl selectedTemplate.
    destruct (uploadMode s).
    + destruct (findTemplate (selectedTemplate s)) as [template|].
      * destruct (validation_gate _ _ _ _) as [s'|m] eqn:G.
        -- apply gate_fields in G as (Gf & Gh & Gd & _ & Gp).
           simpl in Gf, Gh, Gd, Gp.
           eapply (stage_table s _ f headers data I F P); simpl.
           ++ by rewrite Gf.
           ++ done.
           ++ done.
           ++ destruct Gp as [Gp|Gp]; rewrite Gp; [by left|right; eauto].
        -- by eapply (stage_table s _ f headers data I F P); simpl; try done; left.
      * by eapply (stage_table s _ f headers data I F P); simpl; try done; left.
    + by eapply (stage_table s _ f headers data I F P); simpl; try done; left.
  - by eapply (keep_table s); [exact I|..]; simpl; try done; left.
Qed.

Lemma onSubmitMapping_follows h values s :
  provenance s → follows s (onSubmitMapping h values s).
Proof.
  intros I. unfold onSubmitMapping.
  destruct (validation_gate _ _ _ _) as [s'|m] eqn:G.
  - apply gate_fields in G as (Gf & Gh & Gd & _ & Gp).
    eapply (keep_table s); [exact I|done..|].
    destruct Gp as [Gp|Gp]; rewrite Gp; [by left|right; eauto].
  - by eapply (keep_table s); [exact I|..]; simpl; try done; left.
Qed.

(** Every handler but the one that stages a file keeps the provenance
    and the number of candidates. *)
Lemma handle_follows h e s :
  provenance s → (∀ f, e ≠ ChooseFile f) → follows s (handle h e s).
Proof.
  intros I N. destruct e; simpl;
    try (by eapply (keep_table s); [exact I|..]; simpl; try done; left).
  - by destruct (N f).
  - by apply processFile_follows.
  - by apply onSubmitMapping_follows.
  - destruct (importTransactions_fields h s) as (F & H & D & P & _).
    by eapply (keep_table s); [exact I|..]; try done; left.
Qed.

Lemma handle_provenance h e s : provenance s → provenance (handle h e s).
Proof.
  intros I.
  assert ((∃ f, e = ChooseFile f) ∨ ∀ f, e ≠ ChooseFile f) as [[f ->]|N].
  { destruct e; eauto. }
  - simpl. unfold handleFile. case_match; [done|]. by split; left.
  - by apply handle_follows.
Qed.

Lemma reachable_provenance h s : reachable h s → provenance s.
Proof.
  induction 1 as [|e s R IH]; [by split; left|]. by apply handle_provenance.
Qed.

End ProvenanceFacts.

(** X7. Where the candidates come from. In every session that the handlers
    can bring about, the candidates held for preview and commit, when
    there are any, are the rows of the staged file: the file tokenizes to
    the table of the session, and the candidates are that table mapped,
    one candidate per row, each with its five named fields. Staging
    another file empties them, so candidates of an earlier file are never
    shown or committed under a later one. The records of a batch handed to
    the table are the records of such candidates. *)
Theorem candidates_come_from_staged_file (h : Host) (s : Session) :
  reachable h s →
  (parsedData s ≠ [] →
   ∃ f mapping,
     file s = Some f
     ∧ parseRawCSV (file_text f) = Ok (csvHeaders s, csvData s)
     ∧ parsedData s = mapCsvToTransactions (csvHeaders s) (csvData s) mapping
     ∧ length (parsedData s) = length (csvData s))
  ∧ Forall (λ t : CsvTransaction, ∀ k, k ∈ named_fields → is_Some (t !! k))
      (parsedData s)
  ∧ (∀ f, file (handleFile f s) ≠ file s → parsedData (handleFile f s) = [])
  ∧ (∀ batch, (importTransactions h s).2 = Some batch →
       ∃ f mapping,
         file s = Some f
         ∧ parseRawCSV (file_text f) = Ok (csvHeaders s, csvData s)
         ∧ Forall2 (commits h)
             (chosen_rows (selectedTransactions s)
                (mapCsvToTransactions (csvHeaders s) (csvData s) mapping))
             batch).
Proof.
  intros R. apply ProvenanceFacts.reachable_provenance in R as I.
  destruct (ProvenanceFacts.provenance_fields s I) as [L F].
  assert (parsedData s ≠ [] →
          ∃ f mapping,
            file s = Some f
            ∧ parseRawCSV (file_text f) = Ok (csvHeaders s, csvData s)
            ∧ parsedData s = mapCsvToTransactions (csvHeaders s) (csvData s) mapping
            ∧ length (parsedData s) = length (csvData s)) as P.
  { intros NE. destruct I as [_ [E|[(f & Ff & Pf) [mapping C]]]]; [done|].
    exists f, mapping. repeat split; try done. by destruct L. }
  split; [exact P|]. split; [exact F|]. split.
  - intros f. unfold handleFile. by case_match.
  - intros batch (NE & u & _ & B)%CommitFacts.submitted_iff.
    destruct (P NE) as (f & mapping & Ff & Pf & C & _).
    exists f, mapping. split; [done|]. split; [done|].
    rewrite <- C. by apply (CommitFacts.build_batch_spec h u).
Qed.

(** X8. What is written to the table. Every record of a batch that a
    session reached through the handlers hands to the table has an amount
    that is a number (not [NaN]), a description that is a string with more
    than white space in it, and a category and a type that are strings. *)
Theorem committed_records_are_well_formed (h : Host) (s : Session)
    (batch : list DbTransaction) :
  reachable h s →
  (importTransactions h s).2 = Some batch →
  Forall (λ db, JsNumber.isNaN (amount db) = false
                ∧ (∃ d, description db = Some d ∧ is_blank d = false)
                ∧ is_Some (category db) ∧ is_Some (type db))
    batch.
Proof.
  intros R (NE & u & _ & B)%CommitFacts.submitted_iff.
  apply (CommitFacts.build_batch_spec h u) in B as [B _].
  destruct (SessionFacts.reachable_validated h s R) as [format V].
  apply ProvenanceFacts.reachable_provenance,
        ProvenanceFacts.provenance_fields in R as [_ F].
  eapply Forall2_Forall_r; [exact B|].
  apply Forall_forall. intros t [i [L _]]%CommitFacts.elem_of_chosen_rows.
  pose proof (Forall_lookup_1 _ _ _ _ V L) as V'.
  pose proof (Forall_lookup_1 _ _ _ _ F L) as F'. simpl in V', F'.
  destruct V' as [(_ & _ & [d D]) (_ & A & Ds)].
  intros db (_ & Am & De & Ca & Ty & _). repeat split.
  - rewrite Am. unfold committed_amount, amount_ok in *.
    apply negb_true_iff in A.
    destruct (bool_decide _); by destruct (parse_amount _).
  - exists d. rewrite De. split; [done|].
    unfold description_ok, field in Ds. rewrite D in Ds. by apply negb_true_iff in Ds.
  - rewrite Ca. apply F'. unfold named_fields. set_solver.
  - rewrite Ty. apply F'. unfold named_fields. set_solver.
Qed.


(** ** The page: what its controls allow *)

Module UiFacts.

Lemma ui_reachable_reachable h s : ui_reachable h s → reachable h s.
Proof. induction 1; by constructor. Qed.

Lemma status_eqb_eq a b : status_eqb a b = true ↔ a = b.
Proof. destruct a, b; simpl; split; congruence. Qed.

Lemma mode_eqb_eq a b : mode_eqb a b = true ↔ a = b.
Proof. destruct a, b; simpl; split; congruence. Qed.

Lemma preview_shown_spec s :
  preview_shown s = true ↔ uploadStatus s = preview ∧ parsedData s ≠ [].
Proof.
  unfold preview_shown. rewrite andb_true_iff, status_eqb_eq, Nat.ltb_lt.
  destruct (parsedData s); simpl; split; intros []; split; try done; lia.
Qed.

(** What enables each control. *)
Lemma enabled_spec s e :
  enabled s e = true →
  match e with
  | SelectMode _ => True
  | SelectTemplate template =>
      uploadStatus s = idle ∧ is_Some (findTemplate template)
  | ChooseFile _ => uploadStatus s = idle
  | ProcessFile => uploadStatus s = idle ∧ is_Some (file s)
  | SubmitMapping values =>
      uploadMode s = advanced ∧ uploadStatus s = mapping
      ∧ columnMappingSchema values = []
  | ToggleRow index _ =>
      uploadStatus s = preview ∧ (index < length (parsedData s))%nat
  | _ => uploadStatus s = preview ∧ parsedData s ≠ []
  end.
Proof.
  destruct e; simpl; try done; rewrite ?andb_true_iff, ?preview_shown_spec,
    ?status_eqb_eq, ?mode_eqb_eq, ?Nat.ltb_lt; try tauto.
  - intros [[_ I] T]. split; [done|].
    unfold templateIds, bankTemplates in T. cbn [fmap list_fmap existsb] in T.
    unfold findTemplate, bankTemplates. cbn [List.find].
    repeat match type of T with
           | (String.eqb template ?a || _) = true =>
               apply orb_true_iff in T as [T|T];
               [apply String.eqb_eq in T as ->; by eexists|]
           end.
    done.
  - intros [I F]. split; [done|]. by destruct (file s).
  - intros [[M P] C]. repeat split; try done. by destruct (columnMappingSchema values).
Qed.

Lemma parseRawCSV_headers text headers data :
  parseRawCSV text = Ok (headers, data) → headers ≠ [].
Proof.
  unfold parseRawCSV. destruct (nonblank_lines text) as [|l0 [|l1 ls]]; try done.
  cbn zeta. generalize (List.filter (same_width (parseCsvLine l0))
                          (parseCsvLine <$> l1 :: ls)).
  intros d [= <- <-]. unfold parseCsvLine.
  pose proof (CsvLineFacts.loop_length l0 [] EmptyString false) as L.
  destruct (parseCsvLine_loop l0 [] EmptyString false); [simpl in L; lia|done].
Qed.

(** The ways [processFile] leaves a session with a staged file. *)
Lemma processFile_cases h s f :
  file s = Some f →
  let s' := processFile h s in
  file s' = Some f ∧ selectedTemplate s' = selectedTemplate s
  ∧ selectedTransactions s' = selectedTransactions s
  ∧ (uploadStatus s' = error
     ∨ (uploadStatus s' = mapping ∧ csvHeaders s' ≠ []
        ∧ validationErrors s' = validationErrors s
        ∧ errorMessage s' = errorMessage s)
     ∨ (uploadStatus s' = preview ∧ validationErrors s' = []
        ∧ errorMessage s' = errorMessage s)).
Proof.
  intros F. unfold processFile. rewrite F. unfold processFile_try.
  destruct (parseRawCSV (file_text f)) as [[headers data]|m] eqn:P; [|simpl; auto 10].
  apply parseRawCSV_headers in P.
  simpl uploadMode. simpl selectedTemplate.
  destruct (uploadMode s); [|simpl; auto 10].
  destruct (findTemplate (selectedTemplate s)) as [template|]; [|simpl; auto 10].
  unfold validation_gate.
  destruct (validateTransactions _ _ _) as [[|issue errors]|m]; simpl; auto 10.
Qed.

Lemma onSubmitMapping_cases h values s :
  let s' := onSubmitMapping h values s in
  file s' = file s ∧ selectedTemplate s' = selectedTemplate s
  ∧ csvHeaders s' = csvHeaders s
  ∧ selectedTransactions s' = selectedTransactions s
  ∧ (uploadStatus s' = error
     ∨ (uploadStatus s' = preview ∧ validationErrors s' = []
        ∧ errorMessage s' = errorMessage s)).
Proof.
  unfold onSubmitMapping, validation_gate.
  destruct (validateTransactions _ _ _) as [[|issue errors]|m]; simpl; auto 10.
Qed.

Lemma importTransactions_cases h s :
  let s' := (importTransactions h s).1 in
  file s' = file s ∧ selectedTemplate s' = selectedTemplate s
  ∧ csvHeaders s' = csvHeaders s
  ∧ (s' = s ∨ uploadStatus s' = error
     ∨ (uploadStatus s' = success ∧ validationErrors s' = validationErrors s
        ∧ errorMessage s' = errorMessage s)).
Proof.
  unfold importTransactions. destruct (parsedData s); [simpl; auto 10|].
  destruct (authUser h); [|simpl; auto 10].
  destruct (build_batch _ _ _ _); [|simpl; auto 10].
  destruct (insertTransactions h _); simpl; auto 10.
Qed.

Ltac status_in := rewrite list_elem_of_In; simpl; tauto.

Lemma handle_invariant h e s :
  ui_invariant s → enabled s e = true → ui_invariant (handle h e s).
Proof.
  intros (St & T & F & H & E) En. apply enabled_spec in En.
  destruct e; simpl.
  - done.
  - destruct En as [I Tt]. done.
  - unfold handleFile. case_match; [done|]. simpl.
    rewrite En in E. destruct E as [V _]; [done|].
    split; [status_in|]. repeat split; try done.
  - destruct En as [I [f Ff]]. rewrite I in E. destruct E as [V M]; [done|].
    destruct (processFile_cases h s f Ff) as (F' & T' & _ & C). cbv zeta in *.
    unfold ui_invariant. rewrite F', T'.
    destruct C as [C|[(C & Hh & V' & M')|(C & V' & M')]]; rewrite C;
      (split; [status_in|]); repeat split; try done; congruence.
  - destruct En as (_ & Mp & _).
    assert (is_Some (file s)) as Fs by (apply F; congruence).
    rewrite Mp in E. destruct E as [V M]; [done|].
    destruct (onSubmitMapping_cases h values s) as (F' & T' & H' & _ & C).
    cbv zeta in *. unfold ui_invariant. rewrite F', T', H'.
    destruct C as [C|(C & V' & M')]; rewrite C;
      (split; [status_in|]); repeat split; try done; congruence.
  - done.
  - done.
  - done.
  - done.
  - destruct En as [P _]. rewrite P in E. destruct E as [V M]; [done|].
    split; [status_in|]. repeat split; try done.
  - destruct En as [P _].
    assert (is_Some (file s)) as Fs by (apply F; congruence).
    rewrite P in E. destruct E as [V M]; [done|].
    destruct (importTransactions_cases h s) as (F' & T' & H' & C).
    cbv zeta in *. unfold ui_invariant. rewrite F', T', H'.
    destruct C as [C|[C|(C & V' & M')]].
    + rewrite C, P. split; [status_in|]. repeat split; try done.
    + rewrite C. split; [status_in|]. repeat split; try done.
    + rewrite C. split; [status_in|]. repeat split; try done; congruence.
Qed.

Lemma ui_reachable_invariant h s : ui_reachable h s → ui_invariant s.
Proof.
  induction 1 as [|e s R IH En]; [|by apply handle_invariant].
  split; [status_in|]. repeat split; try done; by eexists.
Qed.

(** A stuck session shows the tabs only, and stays stuck. *)
Lemma stuck_only_tabs s : stuck s → only_tabs s.
Proof.
  intros St e En. apply enabled_spec in En.
  assert (uploadStatus s ≠ idle ∧ uploadStatus s ≠ mapping
          ∧ (uploadStatus s = preview → parsedData s = [])) as (NI & NM & NP).
  { destruct St as [St|[St|[St P]]]; rewrite St; repeat split; done. }
  destruct e; [by exists mode|exfalso..]; try tauto.
  destruct En as [P Hi]. rewrite (NP P) in Hi. simpl in Hi. lia.
Qed.

Lemma stuck_run h events :
  ∀ s s', stuck s → run h events s = Some s' →
    Forall (λ e, ∃ mode, e = SelectMode mode) events
    ∧ s' = setUploadMode (uploadMode s') s.
Proof.
  induction events as [|e events IH]; intros s s' St R; simpl in R.
  - injection R as <-. split; [constructor|]. by destruct s.
  - destruct (enabled s e) eqn:En; [|done].
    destruct (stuck_only_tabs s St e En) as [mode ->]. simpl in R.
    apply IH in R as [Fa E]; [|exact St].
    split; [constructor; eauto|]. rewrite E at 1. reflexivity.
Qed.

Lemma ragged_table text :
  ragged text → ∃ headers, parseRawCSV text = Ok (headers, []).
Proof.
  intros (l0 & l1 & ls & N & W). exists (parseCsvLine l0).
  assert (∀ lines : list string,
            Forall (λ line, length (parseCsvLine line) ≠ length (parseCsvLine l0))
              lines →
            List.filter (same_width (parseCsvLine l0)) (parseCsvLine <$> lines) = [])
    as E.
  { induction 1 as [|l lines Hl _ IH]; [done|].
    rewrite fmap_cons. cbn [List.filter]. unfold same_width at 1.
    apply Nat.eqb_neq in Hl. rewrite Hl. exact IH. }
  unfold parseRawCSV. rewrite N. cbn zeta. by rewrite E.
Qed.

Lemma blank h s :
  uploadStatus s = preview → parsedData s = [] → validationErrors s = [] →
  blank_page h s.
Proof.
  intros P D V. assert (stuck s) as St by (right; right; done).
  split; [done|]. split; [done|]. split; [done|].
  split; [by apply stuck_only_tabs|].
  intros events s' R. destruct (stuck_run h events s s' St R) as [_ ->]. done.
Qed.

(** Selections made on the page. *)
Lemma select_all_lookup rows i :
  select_all rows !! i
  = if decide (i < length rows)%nat then Some true else None.
Proof.
  unfold select_all. generalize (length rows). intros n.
  induction n as [|n IH].
  - simpl. rewrite lookup_empty. destruct (decide (i < 0)%nat); [lia|done].
  - rewrite seq_S, foldl_snoc. simpl.
    destruct (decide (i = n)) as [->|N].
    + rewrite lookup_insert_eq. destruct (decide (n < S n)%nat); [done|lia].
    + rewrite lookup_insert_ne by done. rewrite IH.
      destruct (decide (i < n)%nat), (decide (i < S n)%nat); try done; lia.
Qed.

Lemma size_keys (m : gmap nat bool) n :
  (∀ i, is_Some (m !! i) → (i < n)%nat) →
  size m = n ↔ ∀ i, (i < n)%nat → is_Some (m !! i).
Proof.
  intros K. rewrite <- (size_dom (D := gset nat)).
  assert (dom m ⊆ (set_seq 0 n : gset nat)) as Sub.
  { intros i Hi. apply elem_of_dom in Hi. apply elem_of_set_seq. split; [lia|].
    by apply K. }
  pose proof (size_set_seq (C := gset nat) 0 n) as Sz.
  split.
  - intros E i Hi. apply elem_of_dom.
    rewrite (set_subseteq_size_eq _ _ Sub) by lia.
    apply elem_of_set_seq. lia.
  - intros A. rewrite <- Sz. f_equal. apply set_eq. intros i.
    rewrite elem_of_dom, elem_of_set_seq. split; [intros Hi; apply K in Hi; lia|].
    intros [_ Hi]. apply A. lia.
Qed.

Lemma handle_selection h e s :
  provenance s → enabled s e = true →
  (∀ i, is_Some (selectedTransactions s !! i) → (i < length (parsedData s))%nat) →
  ∀ i, is_Some (selectedTransactions (handle h e s) !! i) →
       (i < length (parsedData (handle h e s)))%nat.
Proof.
  intros I En K i.
  assert (selectedTransactions (handle h e s) = selectedTransactions s →
          (∀ f, e ≠ ChooseFile f) →
          is_Some (selectedTransactions (handle h e s) !! i) →
          (i < length (parsedData (handle h e s)))%nat) as Keep.
  { intros Sel N. rewrite Sel. intros Hi. specialize (K i Hi).
    destruct (ProvenanceFacts.handle_follows h e s I N) as [_ L].
    rewrite L; [done|]. destruct (parsedData s); [simpl in K; lia|done]. }
  apply enabled_spec in En. destruct e; simpl in *;
    try (by apply Keep).
  - unfold handleFile. case_match; [by apply K|]. simpl. rewrite lookup_empty.
    by intros [? ?].
  - destruct En as [_ [f Ff]]. apply Keep; [|done].
    by destruct (processFile_cases h s f Ff) as (_ & _ & Sel & _).
  - apply Keep; [|done].
    by destruct (onSubmitMapping_cases h values s) as (_ & _ & _ & Sel & _).
  - rewrite lookup_empty. by intros [? ?].
  - rewrite select_all_lookup. destruct (decide _); [done|by intros [? ?]].
  - destruct checked; [|rewrite lookup_empty; by intros [? ?]].
    rewrite select_all_lookup. destruct (decide _); [done|by intros [? ?]].
  - destruct En as [_ Hx]. destruct (decide (i = index)) as [->|N]; [done|].
    rewrite lookup_insert_ne by done. apply K.
  - apply Keep; [|done].
    by destruct (ProvenanceFacts.importTransactions_fields h s) as (_ & _ & _ & _ & Sel).
Qed.

Lemma ui_reachable_selection h s :
  ui_reachable h s →
  ∀ i, is_Some (selectedTransactions s !! i) → (i < length (parsedData s))%nat.
Proof.
  induction 1 as [|e s R IH En].
  - intros i. simpl. rewrite lookup_empty. by intros [? ?].
  - apply handle_selection; try done.
    by apply ProvenanceFacts.reachable_provenance with h, ui_reachable_reachable.
Qed.

End UiFacts.

(** X9. The session at rest on the page. In every session that the user
    brings about through the controls on display: the status is one of
    [idle], [mapping], [preview], [success] and [error] (never a passing
    one); the selected template is one of the list, so that
    [processFile] never fails for want of a template; outside [idle] a
    file is staged; in [mapping] the headers of the file are at hand; and
    outside [error] there is neither an error message nor a validation
    issue left over from an earlier run. *)
Theorem ui_session_invariant (h : Host) (s : Session) :
  ui_reachable h s →
  uploadStatus s ∈ [idle; mapping; preview; success; error]
  ∧ is_Some (findTemplate (selectedTemplate s))
  ∧ (uploadStatus s ≠ idle → is_Some (file s))
  ∧ (uploadStatus s = mapping → csvHeaders s ≠ [])
  ∧ (uploadStatus s ≠ error →
     validationErrors s = [] ∧ errorMessage s = EmptyString).
Proof. apply UiFacts.ui_reachable_invariant. Qed.

(** X10. No way back. Once a session is in the [error] or the [success]
    state the page shows the tabs only: every run of events from there is
    made of changes of tab, and leaves the session as it was but for the
    tab. A failed import cannot be tried again, nor another file chosen,
    without loading the page anew. *)
Theorem error_and_success_are_final (h : Host) (s s' : Session) (events : list Event) :
  uploadStatus s = error ∨ uploadStatus s = success →
  run h events s = Some s' →
  only_tabs s
  ∧ Forall (λ e, ∃ mode, e = SelectMode mode) events
  ∧ s' = setUploadMode (uploadMode s') s.
Proof.
  intros St R. assert (stuck s) as S by (unfold stuck; tauto).
  split; [by apply UiFacts.stuck_only_tabs|]. by apply (UiFacts.stuck_run h).
Qed.

(** X11. A file whose data lines all differ in width from its header line.
    Such a file tokenizes to a table without rows, which passes validation
    for want of rows: in standard mode [processFile], and in advanced mode
    [onSubmitMapping] with whatever mapping, leave the session in the
    [preview] state with no candidate and no issue. The page then shows
    neither the preview table nor an error, only the tabs, and nothing
    the user does changes that. *)
Theorem ragged_file_is_a_dead_end (h : Host) (s : Session) (f : File) :
  file s = Some f →
  ragged (file_text f) →
  (uploadMode s = standard → is_Some (findTemplate (selectedTemplate s)) →
   blank_page h (processFile h s))
  ∧ (uploadMode s = advanced →
     uploadStatus (processFile h s) = mapping
     ∧ ∀ values, blank_page h (onSubmitMapping h values (processFile h s))).
Proof.
  intros F [headers P]%UiFacts.ragged_table.
  split.
  - intros M [template T].
    assert (processFile h s
            = setProgress 100
                (setUploadStatus preview
                   (setParsedData []
                      (setValidationErrors []
                         (setProgress 50
                            (setCsvData []
                               (setCsvHeaders headers
                                  (setProgress 30
                                     (setProgress 10
                                        (setUploadStatus parsing s)))))))))) as ->.
    { unfold processFile. rewrite F. unfold processFile_try. rewrite P.
      simpl uploadMode. simpl selectedTemplate. rewrite M, T. reflexivity. }
    by apply UiFacts.blank.
  - intros M.
    assert (processFile h s
            = setProgress 100
                (setUploadStatus mapping
                   (setProgress 50
                      (setCsvData []
                         (setCsvHeaders headers
                            (setProgress 30
                               (setProgress 10 (setUploadStatus parsing s)))))))) as ->.
    { unfold processFile. rewrite F. unfold processFile_try. rewrite P.
      simpl uploadMode. by rewrite M. }
    split; [done|]. intros values. by apply UiFacts.blank.
Qed.

(** X12. The checkboxes of the preview table. In every session that the
    user brings about through the controls on display, each index that
    the selection holds is the index of a row of the table. The header
    checkbox is checked exactly when every row has an entry in the
    selection, whether the entry says selected or not: after "select all",
    taking one row out leaves the header checkbox checked, although that
    row is no longer chosen for import. *)
Theorem selection_stays_within_table (h : Host) (s : Session) :
  ui_reachable h s →
  (∀ i, is_Some (rowCheckbox s i) → (i < length (parsedData s))%nat)
  ∧ (headerCheckbox s = true
     ↔ ∀ i, (i < length (parsedData s))%nat → is_Some (rowCheckbox s i))
  ∧ (∀ i, (i < length (parsedData s))%nat →
       let s' := handle h (ToggleRow i false) (handle h SelectAll s) in
       headerCheckbox s' = true ∧ rowCheckbox s' i = Some false
       ∧ ¬ chosen (selectedTransactions s') i).
Proof.
  intros R. pose proof (UiFacts.ui_reachable_selection h s R) as K.
  split; [exact K|]. split.
  - unfold headerCheckbox. rewrite Nat.eqb_eq. by apply UiFacts.size_keys.
  - intros i Hi s'. assert (rowCheckbox s' i = Some false) as Row.
    { unfold rowCheckbox. subst s'. simpl. apply lookup_insert_eq. }
    split; [|split; [exact Row|]].
    + unfold headerCheckbox. rewrite Nat.eqb_eq. subst s'. simpl.
      apply UiFacts.size_keys.
      * intros j. destruct (decide (j = i)) as [->|N]; [done|].
        rewrite lookup_insert_ne by done. rewrite UiFacts.select_all_lookup.
        destruct (decide _); [done|by intros [? ?]].
      * intros j Hj. destruct (decide (j = i)) as [->|N].
        -- rewrite lookup_insert_eq. by eexists.
        -- rewrite lookup_insert_ne by done. rewrite UiFacts.select_all_lookup.
           destruct (decide _); [by eexists|done].
    + unfold rowCheckbox in Row. intros [E|T]; [|congruence].
      rewrite E, lookup_empty in Row. done.
Qed.


(** ** Commit: the selection buttons and the identifiers *)

Module BatchFacts.

(** [to_db] looks at the selection only to decide whether to skip the
    row. *)
Lemma to_db_ext h userId selected selected' k t idx :
  negb (default false (selected !! idx)) && (0 <? size selected)%nat
  = negb (default false (selected' !! idx)) && (0 <? size selected')%nat →
  to_db h userId selected k t idx = to_db h userId selected' k t idx.
Proof. unfold to_db. by intros ->. Qed.

Lemma map_to_db_ext h userId selected selected' rows :
  ∀ k idx,
    (∀ i, (idx ≤ i < idx + length rows)%nat →
       negb (default false (selected !! i)) && (0 <? size selected)%nat
       = negb (default false (selected' !! i)) && (0 <? size selected')%nat) →
    map_to_db h userId selected k rows idx = map_to_db h userId selected' k rows idx.
Proof.
  induction rows as [|t rows IH]; intros k idx E; [done|].
  cbn [map_to_db]. rewrite (to_db_ext h userId selected selected').
  2: { apply E. simpl. lia. }
  destruct (to_db h userId selected' k t idx) as [r|m]; [|done].
  cbn [bind]. rewrite IH; [done|]. intros i Hi. apply E. simpl. lia.
Qed.

(** The records of a batch are numbered as they are built: the [i]-th
    record that [map_to_db] builds after [k] others takes the
    identifier and the clock reading number [k + i]. *)
Lemma map_to_db_numbered h userId selected rows :
  ∀ k idx mapped,
    map_to_db h userId selected k rows idx = Ok mapped →
    ∀ i db, omap (λ r, r) mapped !! i = Some db →
      id db = uuidv4 h (k + i)
      ∧ created_at db = JsDate.iso_string (clock h (k + i))
      ∧ user_id db = userId.
Proof.
  induction rows as [|t rows IH]; intros k idx mapped M i db L.
  - injection M as <-. done.
  - cbn [map_to_db] in M.
    destruct (to_db h userId selected k t idx) as [r|m] eqn:T; [|done].
    cbn [bind] in M.
    destruct (map_to_db h userId selected _ rows (S idx)) as [rs|m] eqn:R; [|done].
    cbn [bind] in M. injection M as <-.
    destruct r as [db0|]; cbn [omap list_omap] in L.
    + destruct i as [|i].
      * injection L as ->. unfold to_db in T.
        destruct (negb _ && _); [done|].
        destruct (receiver _ _); [|done]. cbn [bind] in T.
        destruct (JsDate.toISOString _); [|done]. cbn [bind] in T.
        injection T as <-. rewrite Nat.add_0_r. done.
      * fold (@omap list _ _ _ (λ r : option DbTransaction, r) rs) in L.
        apply (IH _ _ _ R) in L. by replace (k + S i)%nat with (S k + i)%nat by lia.
    + fold (@omap list _ _ _ (λ r : option DbTransaction, r) rs) in L.
      by apply (IH _ _ _ R) in L.
Qed.

Lemma chosen_from_all selected rows :
  ∀ idx,
    (∀ i, (idx ≤ i < idx + length rows)%nat → chosen selected i) →
    chosen_from selected idx rows = rows.
Proof.
  induction rows as [|t rows IH]; intros idx A; [done|].
  rewrite CommitFacts.chosen_from_cons.
  destruct (decide (chosen selected idx)) as [_|N].
  - simpl. f_equal. apply IH. intros i Hi. apply A. simpl. lia.
  - destruct N. apply A. simpl. lia.
Qed.

End BatchFacts.

(** X13. Clearing the selection does not clear. With no row marked the
    commit step takes every row, so that after the button that clears the
    selection (or after unchecking the header checkbox) an import hands
    the table the same batch as after the button that selects all: every
    candidate. Only the header checkbox tells the two apart. *)
Theorem clear_selection_imports_everything (h : Host) (s : Session) :
  let cleared := handle h ClearSelection s in
  let all := handle h SelectAll s in
  handle h (ToggleAll false) s = cleared
  ∧ handle h (ToggleAll true) s = all
  ∧ chosen_rows (selectedTransactions cleared) (parsedData cleared) = parsedData s
  ∧ chosen_rows (selectedTransactions all) (parsedData all) = parsedData s
  ∧ (importTransactions h cleared).2 = (importTransactions h all).2
  ∧ (parsedData s ≠ [] → headerCheckbox cleared = false ∧ headerCheckbox all = true).
Proof.
  intros cleared all.
  assert (∀ i, (i < length (parsedData s))%nat →
            select_all (parsedData s) !! i = Some true) as All.
  { intros i Hi. rewrite UiFacts.select_all_lookup.
    destruct (decide (i < length (parsedData s))%nat); [done|lia]. }
  split; [done|]. split; [done|]. split; [apply CommitFacts.chosen_rows_empty|].
  split; [|split].
  - subst all. simpl. rewrite <- CommitFacts.chosen_from_0.
    apply BatchFacts.chosen_from_all. intros i Hi. right. apply All. lia.
  - subst cleared all. unfold importTransactions. simpl.
    destruct (parsedData s) as [|t rows] eqn:P; [done|].
    destruct (authUser h) as [u|]; [|done]. simpl.
    unfold build_batch.
    rewrite (BatchFacts.map_to_db_ext h u ∅ (select_all (t :: rows))).
    + destruct (map_to_db _ _ _ _ _ _) as [mapped|m]; [|done]. simpl.
      by destruct (insertTransactions h _).
    + intros i Hi. rewrite lookup_empty, map_size_empty.
      rewrite All by (simpl in *; lia). done.
  - intros NE. unfold headerCheckbox. subst cleared all. simpl. split.
    + rewrite map_size_empty. destruct (parsedData s); done.
    + apply Nat.eqb_eq. apply UiFacts.size_keys.
      * intros i. rewrite UiFacts.select_all_lookup.
        destruct (decide _); [done|by intros [? ?]].
      * intros i Hi. rewrite All by done. by eexists.
Qed.

(** X14. Identifiers of a batch. The records of the batch handed to the
    table carry the signed-in user, and the record at position [k] carries
    the [k]-th identifier drawn from [uuidv4] and the [k]-th reading of
    the clock: one draw per record that is built, none for a row that is
    left out. When [uuidv4] never repeats itself the records of a batch
    have identifiers that differ. *)
Theorem batch_identifiers (h : Host) (s : Session) (batch : list DbTransaction) :
  (importTransactions h s).2 = Some batch →
  ∃ userId,
    authUser h = Some userId
    ∧ (∀ k db, batch !! k = Some db →
         id db = uuidv4 h k
         ∧ created_at db = JsDate.iso_string (clock h k)
         ∧ user_id db = userId)
    ∧ ((∀ i j, uuidv4 h i = uuidv4 h j → i = j) → NoDup (id <$> batch)).
Proof.
  intros (_ & u & U & B)%CommitFacts.submitted_iff. exists u. split; [done|].
  unfold build_batch in B.
  destruct (map_to_db h u (selectedTransactions s) 0 (parsedData s) 0)
    as [mapped|m] eqn:M; [|done].
  cbn [bind] in B. injection B as <-.
  pose proof (BatchFacts.map_to_db_numbered h u _ _ _ _ _ M) as N. simpl in N.
  split; [exact N|].
  intros Inj. apply NoDup_alt. intros i j x.
  rewrite !list_lookup_fmap.
  destruct (omap (λ r, r) mapped !! i) as [a|] eqn:A; [|done].
  destruct (omap (λ r, r) mapped !! j) as [b|] eqn:Bj; [|done].
  simpl. intros [= <-] [= E]. apply Inj.
  destruct (N _ _ A) as [<- _]. destruct (N _ _ Bj) as [<- _]. done.
Qed.


(** ** Commit: dates written in the standard format *)

Module IsoFacts.
Import JsString JsDate.

Lemma list_ascii_app a b :
  list_ascii_of_string (a +:+ b) = list_ascii_of_string a ++ list_ascii_of_string b.
Proof.
  induction a as [|c a IH]; [done|].
  change (String c a +:+ b) with (String c (a +:+ b)). simpl. by rewrite IH.
Qed.

Lemma keep_chars_id keep s :
  Forall (λ c, keep c = true) (list_ascii_of_string s) → keep_chars keep s = s.
Proof.
  induction s as [|c s IH]; [done|]. intros H. inversion_clear H as [|? ? Hc Hs].
  simpl. by rewrite Hc, IH.
Qed.

(** Parts without a separator, with separators between them, split
    into themselves. *)
Lemma split_part sep p c rest :
  Forall (λ x, sep x = false) (list_ascii_of_string p) → sep c = true →
  split sep (p +:+ String c rest) = p :: split sep rest.
Proof.
  induction p as [|x p IH]; intros N S.
  - change (EmptyString +:+ String c rest) with (String c rest).
    cbn [split]. by rewrite S.
  - inversion_clear N as [|? ? Nx Np].
    change (String x p +:+ String c rest) with (String x (p +:+ String c rest)).
    cbn [split]. rewrite Nx. by rewrite IH.
Qed.

Lemma split_last sep p :
  Forall (λ x, sep x = false) (list_ascii_of_string p) → split sep p = [p].
Proof.
  induction p as [|x p IH]; intros N; [done|].
  inversion_clear N as [|? ? Nx Np]. cbn [split]. rewrite Nx. by rewrite IH.
Qed.

(** What [fixed_digits] has read when nothing is left. *)
Lemma fixed_digits_spec n :
  ∀ acc s v,
    fixed_digits n acc s = Some (v, EmptyString) →
    Forall (λ c, is_digit c = true) (list_ascii_of_string s)
    ∧ v = foldl (λ a c, a * 10 + JsNumber.decimal_digit c) acc (list_ascii_of_string s)
    ∧ (n ≠ 0%nat → s ≠ EmptyString).
Proof.
  induction n as [|n IH]; intros acc s v; cbn [fixed_digits].
  - intros [= -> ->]. repeat split; [constructor|done].
  - destruct s as [|c s]; [done|]. destruct (is_digit c) eqn:D; [|done].
    intros H. apply IH in H as (F & -> & _).
    split; [by constructor|]. done.
Qed.

Lemma fixed_digits_app n :
  ∀ acc s v rest,
    fixed_digits n acc s = Some (v, EmptyString) →
    fixed_digits n acc (s +:+ rest) = Some (v, rest).
Proof.
  induction n as [|n IH]; intros acc s v rest; cbn [fixed_digits].
  - by intros [= -> ->].
  - destruct s as [|c s]; [done|].
    change (String c s +:+ rest) with (String c (s +:+ rest)).
    cbn [fixed_digits]. destruct (is_digit c); [|done]. apply IH.
Qed.

(** The numeral that [pretty] writes, digit by digit, and how a padded
    numeral reads back. *)
Ltac dlia := zify; Z.div_mod_to_equations; lia.

Lemma char_digit d :
  (d < 10)%N →
  is_digit (pretty_N_char d) = true
  ∧ JsNumber.decimal_digit (pretty_N_char d) = Z.of_N d.
Proof.
  intros H.
  assert (d = 0 ∨ d = 1 ∨ d = 2 ∨ d = 3 ∨ d = 4 ∨ d = 5 ∨ d = 6 ∨ d = 7
          ∨ d = 8 ∨ d = 9)%N as C by lia.
  repeat destruct C as [->|C]; try subst d; by vm_compute.
Qed.

Lemma go_last x s :
  (0 < x < 10)%N → pretty_N_go x s = String (pretty_N_char x) s.
Proof.
  intros H. rewrite pretty_N_go_step by lia.
  rewrite N.div_small, N.mod_small by lia. apply pretty_N_go_0.
Qed.

Lemma pretty_below_10000 x :
  (0 < x < 10000)%N →
  pretty x
  = if (x <? 10)%N then String (pretty_N_char x) EmptyString
    else if (x <? 100)%N then
      String (pretty_N_char (x / 10))
        (String (pretty_N_char (x mod 10)) EmptyString)
    else if (x <? 1000)%N then
      String (pretty_N_char (x / 10 / 10))
        (String (pretty_N_char ((x / 10) mod 10))
           (String (pretty_N_char (x mod 10)) EmptyString))
    else
      String (pretty_N_char (x / 10 / 10 / 10))
        (String (pretty_N_char ((x / 10 / 10) mod 10))
           (String (pretty_N_char ((x / 10) mod 10))
              (String (pretty_N_char (x mod 10)) EmptyString))).
Proof.
  intros H. unfold pretty, pretty_N. destruct (decide (x = 0)%N); [lia|].
  destruct (N.ltb_spec x 10); [apply go_last; lia|].
  rewrite pretty_N_go_step by lia.
  destruct (N.ltb_spec x 100); [apply go_last; dlia|].
  rewrite pretty_N_go_step by dlia.
  destruct (N.ltb_spec x 1000); [apply go_last; dlia|].
  rewrite pretty_N_go_step by dlia.
  apply go_last; dlia.
Qed.

Lemma pad_read_4 y :
  0 ≤ y < 10000 → fixed_digits 4 0 (pad 4 y) = Some (y, EmptyString).
Proof.
  intros H. destruct (decide (y = 0)) as [->|N]; [reflexivity|].
  unfold pad. rewrite pretty_below_10000 by lia.
  assert (∀ d, (d < 10)%N → is_digit (pretty_N_char d) = true) as D
    by (intros d Hd; by apply char_digit).
  assert (∀ d, (d < 10)%N → JsNumber.decimal_digit (pretty_N_char d) = Z.of_N d) as V
    by (intros d Hd; by apply char_digit).
  destruct (N.ltb_spec (Z.to_N y) 10);
    [|destruct (N.ltb_spec (Z.to_N y) 100);
      [|destruct (N.ltb_spec (Z.to_N y) 1000)]];
    cbv [String.length Nat.sub replicate string_of_list_ascii String.append
         fixed_digits];
    change (is_digit "0") with true; cbv iota;
    rewrite ?D, ?V by (first [apply N.mod_lt; lia|dlia]);
    f_equal; f_equal; change (JsNumber.decimal_digit "0") with 0;
    rewrite ?N2Z.inj_mod, ?N2Z.inj_div; dlia.
Qed.

Lemma pad_read_2 v :
  0 ≤ v < 100 → fixed_digits 2 0 (pad 2 v) = Some (v, EmptyString).
Proof.
  intros H. destruct (decide (v = 0)) as [->|N]; [reflexivity|].
  unfold pad. rewrite pretty_below_10000 by lia.
  assert (∀ d, (d < 10)%N → is_digit (pretty_N_char d) = true) as D
    by (intros d Hd; by apply char_digit).
  assert (∀ d, (d < 10)%N → JsNumber.decimal_digit (pretty_N_char d) = Z.of_N d) as V
    by (intros d Hd; by apply char_digit).
  destruct (N.ltb_spec (Z.to_N v) 10); [|destruct (N.ltb_spec (Z.to_N v) 100); [|lia]];
    cbv [String.length Nat.sub replicate string_of_list_ascii String.append
         fixed_digits];
    change (is_digit "0") with true; cbv iota;
    rewrite ?D, ?V by (first [apply N.mod_lt; lia|dlia]);
    f_equal; f_equal; change (JsNumber.decimal_digit "0") with 0;
    rewrite ?N2Z.inj_mod, ?N2Z.inj_div; dlia.
Qed.

Lemma pad_digits width v :
  fixed_digits width 0 (pad width v) = Some (v, EmptyString) → width ≠ 0%nat →
  Forall (λ c, is_digit c = true) (list_ascii_of_string (pad width v))
  ∧ numeral_value (pad width v) = v
  ∧ numeric (pad width v).
Proof.
  intros R W.
  destruct (fixed_digits_spec _ _ _ _ R) as (F & E & N).
  split; [exact F|]. split; [symmetry; exact E|]. split; [by apply N|exact F].
Qed.

Lemma digit_not_separator c : is_digit c = true → is_date_separator c = false.
Proof. StringFacts.ascii_cases c; vm_compute; congruence. Qed.

(** The date at the head of a string that starts with a digit has a
    year of four digits. *)
Lemma iso_date_year a r year rest :
  is_digit a = true →
  fixed_digits 4 0 (String a r) = Some (year, String "-" rest) →
  iso_date (String a r)
  = match fixed_digits 2 0 rest with
    | Some (mo, String "-" r1) =>
        match fixed_digits 2 0 r1 with
        | Some (d, r2) => Some (false, year, mo, d, r2)
        | None => None
        end
    | Some (mo, r1) => Some (false, year, mo, 1, r1)
    | None => None
    end.
Proof.
  intros D E. unfold iso_date.
  set (F := fixed_digits 4 0 (String a r)) in *. clearbody F. subst F.
  StringFacts.ascii_cases a; try (vm_compute in D; discriminate D); reflexivity.
Qed.

Lemma day_of_month_bound y m d : valid_calendar_date y m d → d ≤ 31.
Proof.
  intros [Hm Hd].
  assert (m = 1 ∨ m = 2 ∨ m = 3 ∨ m = 4 ∨ m = 5 ∨ m = 6 ∨ m = 7 ∨ m = 8
          ∨ m = 9 ∨ m = 10 ∨ m = 11 ∨ m = 12) as C by lia.
  repeat destruct C as [->|C]; try subst m; simpl in Hd;
    try destruct (leap_year y); lia.
Qed.

Lemma day_bounds y m d :
  0 ≤ y ≤ 9999 → valid_calendar_date y m d →
  -719528 ≤ day_number y m d < 2932897.
Proof.
  intros Hy V.
  destruct (CalendarFacts.fields_of_day_number y m d V) as (Y & _ & _).
  pose proof (CalendarFacts.YearFromDay_spec (day_number y m d)) as S.
  cbv zeta in Y. rewrite Y in S.
  pose proof (CalendarFacts.DayFromYear_le 0 y) as L0.
  pose proof (CalendarFacts.DayFromYear_le (y + 1) 10000) as L1.
  change (DayFromYear 0) with (-719528) in L0.
  change (DayFromYear 10000) with 2932897 in L1. lia.
Qed.

Lemma MakeDay_day_number y m d :
  1 ≤ m ≤ 12 → MakeDay y (m - 1) d = day_number y m d.
Proof.
  intros Hm. rewrite DateFacts.MakeDay_in_year by lia.
  unfold day_number. by rewrite CalendarFacts.monthStart_days_before by lia.
Qed.

(** The string of a date of the calendar is in the standard format, and
    reads as the midnight that starts the day in UTC. *)
Lemma parse_iso_date tza fallback y m d :
  0 ≤ y ≤ 9999 → valid_calendar_date y m d →
  parse tza fallback (iso_date_string y m d) = Some (day_number y m d * msPerDay).
Proof.
  intros Hy V. pose proof V as [Hm Hd].
  pose proof (day_of_month_bound y m d V) as Hd31.
  pose proof (pad_read_4 y ltac:(lia)) as Ry.
  pose proof (pad_read_2 m ltac:(lia)) as Rm.
  pose proof (pad_read_2 d ltac:(lia)) as Rd.
  unfold parse, iso_fields, iso_date_string.
  destruct (pad 4 y) as [|a r] eqn:P; [done|].
  assert (is_digit a = true) as Da.
  { cbn [fixed_digits] in Ry. by destruct (is_digit a). }
  change (String a r +:+ "-" +:+ pad 2 m +:+ "-" +:+ pad 2 d)
    with (String a (r +:+ "-" +:+ pad 2 m +:+ "-" +:+ pad 2 d)).
  rewrite (iso_date_year a _ y (pad 2 m +:+ "-" +:+ pad 2 d) Da).
  2: { change (String a (r +:+ "-" +:+ pad 2 m +:+ "-" +:+ pad 2 d))
         with (String a r +:+ String "-" (pad 2 m +:+ "-" +:+ pad 2 d)).
       by apply fixed_digits_app. }
  rewrite (fixed_digits_app 2 0 (pad 2 m) m ("-" +:+ pad 2 d) Rm).
  change ("-" +:+ pad 2 d) with (String "-" (pad 2 d)). cbv iota beta.
  rewrite Rd.
  assert (iso_legal
            {| iso_year := y; iso_month := m; iso_day := d; iso_hour := 0;
               iso_min := 0; iso_sec := 0; iso_ms := 0; iso_offset := None;
               iso_has_time := false; iso_minus_zero_year := false |} = true) as ->.
  { unfold iso_legal. cbn [iso_minus_zero_year iso_month iso_day iso_hour iso_min
                          iso_sec iso_ms iso_offset].
    repeat (apply andb_true_intro; split); try reflexivity; apply Z.leb_le; lia. }
  unfold iso_time_value.
  cbn [iso_year iso_month iso_day iso_hour iso_min iso_sec iso_ms iso_offset
       iso_has_time].
  rewrite MakeDay_day_number by done.
  unfold MakeDate. change (MakeTime 0 0 0 0) with 0. rewrite Z.add_0_r.
  unfold TimeClip. pose proof (day_bounds y m d Hy V) as B.
  destruct (Z.leb_spec (Z.abs (day_number y m d * msPerDay)) maxTime) as [|L]; [done|].
  unfold msPerDay, maxTime in L. lia.
Qed.

(** The midnight that starts a day in UTC is written as the date of the
    day and a time of zeros. *)
Lemma iso_string_midnight y m d :
  0 ≤ y ≤ 9999 → valid_calendar_date y m d →
  iso_string (day_number y m d * msPerDay)
  = iso_date_string y m d +:+ "T00:00:00.000Z".
Proof.
  intros Hy V. unfold iso_string, YearFromTime, MonthFromTime, DateFromTime,
    HourFromTime, MinFromTime, SecFromTime, msFromTime, Day, TimeWithinDay.
  rewrite Z.div_mul, Z.mod_mul by done.
  destruct (CalendarFacts.fields_of_day_number y m d V) as (-> & -> & ->).
  replace (m - 1 + 1) with m by lia.
  unfold year_string.
  destruct (Z.leb_spec 0 y), (Z.leb_spec y 9999); try lia. cbn [andb].
  unfold iso_date_string. rewrite !TokenizerFacts.append_assoc. reflexivity.
Qed.

End IsoFacts.

(** X15. Dates written as [YYYY-MM-DD]. A date of the calendar, of a year
    from 0 to 9999, written with four digits for the year and two each for
    the month and the day, is read by the engine at commit as the midnight
    that starts that day in UTC, whatever the zone of the host, and is
    written to the table as that same date followed by a time of zeros. The
    validator accepts the string under the format [YYYY-MM-DD] exactly when
    the year is 100 or later and the zone of the host has that day, and
    then as the instant of local midnight of the same day: for these
    strings the day that is validated is the day that is committed. *)
Theorem iso_dates_commit_as_written (h : Host) (y m d : Z) :
  0 ≤ y ≤ 9999 →
  valid_calendar_date y m d →
  let raw := iso_date_string y m d in
  let tza := LocalTZA h in
  JsDate.parse tza (dateFallback h) raw
  = Some (day_number y m d * JsDate.msPerDay)
  ∧ (∀ (t : CsvTransaction) db,
       t !! "date" = Some raw → commits h t db →
       transaction_date db = raw +:+ "T00:00:00.000Z")
  ∧ (zone_offset tza →
     ∀ accepted,
       parseDate tza raw "YYYY-MM-DD" = Some accepted
       ↔ 100 ≤ y
         ∧ zone_has_day tza (day_number y m d)
         ∧ accepted = JsDate.UTC tza (day_number y m d * JsDate.msPerDay)).
Proof.
  intros Hy V raw tza.
  pose proof (IsoFacts.parse_iso_date tza (dateFallback h) y m d Hy V) as P.
  split; [exact P|]. split.
  - intros t db D (_ & _ & _ & _ & _ & T). rewrite D in T. simpl in T.
    fold raw tza in P, T. rewrite P in T. simpl in T. injection T as <-.
    by apply IsoFacts.iso_string_midnight.
  - intros Z accepted. pose proof V as [Hm Hd].
    pose proof (IsoFacts.day_of_month_bound y m d V) as Hd31.
    destruct (IsoFacts.pad_digits 4 y) as (Fy & Vy & Ny);
      [apply IsoFacts.pad_read_4; lia|done|].
    destruct (IsoFacts.pad_digits 2 m) as (Fm & Vm & Nm);
      [apply IsoFacts.pad_read_2; lia|done|].
    destruct (IsoFacts.pad_digits 2 d) as (Fd & Vd & Nd);
      [apply IsoFacts.pad_read_2; lia|done|].
    assert (∀ p, Forall (λ c, JsString.is_digit c = true) (list_ascii_of_string p) →
                 Forall (λ x, is_date_separator x = false) (list_ascii_of_string p))
      as NoSep.
    { intros p F. eapply Forall_impl; [exact F|]. apply IsoFacts.digit_not_separator. }
    assert (∀ p, Forall (λ c, JsString.is_digit c = true) (list_ascii_of_string p) →
                 Forall (λ x, is_date_char x = true) (list_ascii_of_string p))
      as Kept.
    { intros p F. eapply Forall_impl; [exact F|].
      intros c Hc. unfold is_date_char. by rewrite Hc. }
    assert (JsString.split is_date_separator (JsString.keep_chars is_date_char raw)
            = [JsDate.pad 4 y; JsDate.pad 2 m; JsDate.pad 2 d]) as Parts.
    { rewrite IsoFacts.keep_chars_id.
      * subst raw. unfold iso_date_string.
        change ("-" +:+ JsDate.pad 2 m +:+ "-" +:+ JsDate.pad 2 d)
          with (String "-" (JsDate.pad 2 m +:+ "-" +:+ JsDate.pad 2 d)).
        rewrite IsoFacts.split_part by (try apply NoSep; done).
        change ("-" +:+ JsDate.pad 2 d) with (String "-" (JsDate.pad 2 d)).
        rewrite IsoFacts.split_part by (try apply NoSep; done).
        by rewrite IsoFacts.split_last by (by apply NoSep).
      * subst raw. unfold iso_date_string. rewrite !IsoFacts.list_ascii_app.
        repeat (apply Forall_app; split); try (by apply Kept);
          by repeat constructor. }
    rewrite (DateFacts.parseDate_iff tza raw YMD accepted Z). split.
    + intros (p0 & p1 & p2 & S & _ & _ & _ & y' & m' & d' & A & _ & Y100 & T & _ & K).
      rewrite Parts in S. injection S as <- <- <-.
      simpl in A. rewrite Vy, Vm, Vd in A. injection A as <- <- <-. done.
    + intros (Y100 & K & ->).
      exists (JsDate.pad 4 y), (JsDate.pad 2 m), (JsDate.pad 2 d).
      split; [exact Parts|]. split; [done|]. split; [done|]. split; [done|].
      exists y, m, d. simpl. rewrite Vy, Vm, Vd.
      split; [done|]. split; [done|]. split; [done|]. split; [done|].
      split; [|exact K].
      pose proof (IsoFacts.day_bounds y m d Hy V) as B.
      pose proof (Z (day_number y m d * JsDate.msPerDay) false) as O.
      unfold JsDate.UTC. revert B O. generalize (day_number y m d).
      generalize (tza (day_number y m d * JsDate.msPerDay) false).
      clear. unfold JsDate.msPerDay, JsDate.maxTime. lia.
Qed.


(** ** Commit: how an import ends *)

Module ImportFacts.

Lemma to_db_throws h userId selected k (t : CsvTransaction) idx m :
  well_typed t → to_db h userId selected k t idx = Throw m →
  m = "Invalid time value".
Proof.
  intros (_ & [a A] & _). unfold to_db. destruct (negb _ && _); [done|].
  rewrite A. cbn [receiver bind].
  destruct (match t !! "date" with
            | Some raw => JsDate.parse (LocalTZA h) (dateFallback h) raw
            | None => None
            end); cbn [JsDate.toISOString bind]; [done|]. by intros [= <-].
Qed.

Lemma map_to_db_throws h userId selected rows :
  ∀ k idx m,
    Forall well_typed rows → map_to_db h userId selected k rows idx = Throw m →
    m = "Invalid time value".
Proof.
  induction rows as [|t rows IH]; intros k idx m W; [done|].
  inversion_clear W as [|? ? Wt Wr]. cbn [map_to_db].
  destruct (to_db h userId selected k t idx) as [r|m'] eqn:T; cbn [bind].
  - destruct (map_to_db h userId selected _ rows (S idx)) as [rs|m'] eqn:R;
      cbn [bind]; [done|].
    intros [= <-]. by eapply IH.
  - intros [= <-]. by eapply to_db_throws.
Qed.

Lemma build_batch_throws h userId selected rows m :
  Forall well_typed rows → build_batch h userId selected rows = Throw m →
  m = "Invalid time value".
Proof.
  intros W. unfold build_batch.
  destruct (map_to_db h userId selected 0 rows 0) as [mapped|m'] eqn:M; cbn [bind];
    [done|].
  intros [= <-]. by eapply map_to_db_throws.
Qed.

End ImportFacts.

(** X16. How an import ends. Without candidates [importTransactions] does
    nothing. With candidates it reports success exactly when it handed a
    batch to the table and the table raised no error; in every other case
    the session ends in the [error] state, with the message of what failed:
    that no user is signed in (nothing is handed over then), the error of
    the table, or, for candidates whose fields are strings, that a date is
    not a valid time value (nothing is handed over then either, not even
    the rows that could be converted). The candidates and the selection
    are kept in every case. *)
Theorem importTransactions_outcomes (h : Host) (s : Session) :
  let s' := (importTransactions h s).1 in
  let handed := (importTransactions h s).2 in
  (parsedData s = [] → s' = s ∧ handed = None)
  ∧ (parsedData s ≠ [] →
     parsedData s' = parsedData s
     ∧ selectedTransactions s' = selectedTransactions s
     ∧ progress s' = 0
     ∧ (uploadStatus s' = success
        ↔ ∃ batch, handed = Some batch ∧ insertTransactions h batch = None)
     ∧ (uploadStatus s' ≠ success → uploadStatus s' = error)
     ∧ (authUser h = None →
        handed = None ∧ errorMessage s' = "User not authenticated")
     ∧ (∀ batch m, handed = Some batch → insertTransactions h batch = Some m →
          errorMessage s' = m)
     ∧ (is_Some (authUser h) → handed = None → Forall well_typed (parsedData s) →
        errorMessage s' = "Invalid time value")).
Proof.
  intros s' handed. subst s' handed. unfold importTransactions.
  cbn [parsedData selectedTransactions setProgress setUploadStatus].
  destruct (parsedData s) as [|t rows] eqn:P; [by split|].
  split; [done|]. intros _. rewrite ?P.
  assert (∀ m, build_batch h (default EmptyString (authUser h))
                 (selectedTransactions s) (t :: rows) = Throw m →
               Forall well_typed (t :: rows) → m = "Invalid time value") as Thrown.
  { intros m B W. by eapply ImportFacts.build_batch_throws. }
  destruct (authUser h) as [u|] eqn:U; simpl in Thrown.
  - destruct (build_batch h u (selectedTransactions s) (t :: rows)) as [batch|m] eqn:B.
    + destruct (insertTransactions h batch) as [m|] eqn:I; simpl;
        repeat split; try done; intros;
        repeat match goal with
               | H : ∃ _, _ |- _ => destruct H as (? & ? & ?)
               | H : Some _ = Some _ |- _ => injection H as <-
               end; try congruence; eauto.
    + simpl. repeat split; try done; intros;
        repeat match goal with
               | H : ∃ _, _ |- _ => destruct H as (? & ? & ?)
               end; try congruence. by apply Thrown.
  - simpl. repeat split; try done; intros;
      repeat match goal with
             | H : ∃ _, _ |- _ => destruct H as (? & ? & ?)
             | H : is_Some None |- _ => destruct H
             end; congruence.
Qed.


(** ** A required column that is not in the file *)

Module MissingColumnFacts.

Lemma elem_of_concat_imap {A B} (f : nat → A → list B) (l : list A) i x y :
  l !! i = Some x → y ∈ f i x → y ∈ concat (imap f l).
Proof.
  revert f i. induction l as [|a l IH]; intros f i L Hy; [done|].
  simpl. apply elem_of_app. destruct i as [|i]; simpl in L.
  - injection L as ->. by left.
  - right. by apply (IH (f ∘ S) i).
Qed.

Lemma not_extra_key ix headers k : k ∉ headers → k ∉ extra_keys ix headers.
Proof.
  intros N [i [L _]]%MapperFacts.extra_keys_spec.
  apply N. by eapply list_elem_of_lookup_2.
Qed.

(** A required field whose column is not among the headers is the
    empty string, when no header bears the name of the field. *)
Lemma unmapped_field headers mapping row k column :
  (k, column) ∈ [("date", dateColumn mapping); ("amount", amountColumn mapping);
                 ("description", descriptionColumn mapping)] →
  column ∉ headers → k ∉ headers →
  map_row headers mapping row !! k = Some EmptyString.
Proof.
  intros Hk NC NK.
  assert (indexOf headers column = -1) as I.
  { destruct (MapperFacts.indexOf_spec headers column) as [[E _]|(P & _ & L)]; [done|].
    destruct NC. by eapply list_elem_of_lookup_2. }
  assert (k ≠ "__proto__") as Np.
  { intros ->. repeat (apply elem_of_cons in Hk as [Hk|Hk]; [discriminate Hk|]).
    by apply elem_of_nil in Hk. }
  rewrite MapperFacts.map_row_field by (try apply not_extra_key; done).
  cbv zeta. unfold resolve_indices.
  cbn [dateIdx amountIdx descriptionIdx categoryIdx typeIdx].
  repeat (apply elem_of_cons in Hk as [Hk|Hk];
          [injection Hk as -> ->; rewrite I; cbv [last_assignment];
           MapperFacts.string_eqbs; reflexivity|]).
  by apply elem_of_nil in Hk.
Qed.

End MissingColumnFacts.

(** X17. A required column that the file does not have. When the column
    mapped to the date (the amount, the description) is not among the
    headers, and no header is itself named ["date"] (["amount"],
    ["description"]), the field is the empty string in every candidate, and
    the validator reports it row by row: one issue about the date (the
    amount, the description) for each row of the file, and no issue about
    the column. With at least one row the batch is therefore refused. *)
Theorem missing_column_fails_every_row (tza : JsDate.TimeZone)
    (headers : list string)
    (data : list (list string)) (mapping : ColumnMapping) (format : string) :
  rectangular headers data →
  ∃ errors,
    validateTransactions tza (mapCsvToTransactions headers data mapping) format
    = Ok errors
    ∧ (dateColumn mapping ∉ headers → "date" ∉ headers →
       ∀ i, (i < length data)%nat →
         row_label i +:+ "Invalid date format " +:+ quoted EmptyString ∈ errors)
    ∧ (amountColumn mapping ∉ headers → "amount" ∉ headers →
       ∀ i, (i < length data)%nat →
         row_label i +:+ "Invalid amount " +:+ quoted EmptyString ∈ errors)
    ∧ (descriptionColumn mapping ∉ headers → "description" ∉ headers →
       ∀ i, (i < length data)%nat →
         row_label i +:+ "Missing description" ∈ errors).
Proof.
  intros R. eexists. split.
  { apply ValidatorFacts.validateTransactions_issues.
    by apply SessionFacts.mapped_well_typed. }
  assert (∀ i, (i < length data)%nat →
            ∃ row, mapCsvToTransactions headers data mapping !! i
                   = Some (map_row headers mapping row)) as Row.
  { intros i Hi. destruct (lookup_lt_is_Some_2 data i Hi) as [row L].
    exists row. unfold mapCsvToTransactions. by rewrite list_lookup_fmap, L. }
  split; [|split]; intros NC NK i Hi; destruct (Row i Hi) as [row L];
    eapply (MissingColumnFacts.elem_of_concat_imap _ _ _ _ _ L);
    unfold row_issues, date_ok, amount_ok, description_ok, field.
  - rewrite (MissingColumnFacts.unmapped_field headers mapping row "date"
               (dateColumn mapping)) by (try done; set_solver).
    cbn [default from_option Datatypes.id id].
    change (parseDate tza EmptyString format) with (@None Z).
    set_solver.
  - rewrite (MissingColumnFacts.unmapped_field headers mapping row "amount"
               (amountColumn mapping)) by (try done; set_solver).
    cbn [default from_option Datatypes.id id].
    change (JsNumber.isNaN (parse_amount EmptyString)) with true.
    cbn [negb]. set_solver.
  - rewrite (MissingColumnFacts.unmapped_field headers mapping row "description"
               (descriptionColumn mapping)) by (try done; set_solver).
    cbn [default from_option Datatypes.id id].
    change (is_blank EmptyString) with true.
    cbn [negb]. set_solver.
Qed.


(** ** Further edge cases: the selection, the row mapper, the date layouts *)

Module EdgeFacts.

Lemma map_to_db_none h userId selected rows :
  (∀ i, ¬ chosen selected i) →
  ∀ k idx, ∃ mapped,
    map_to_db h userId selected k rows idx = Ok mapped
    ∧ omap (λ r, r) mapped = [].
Proof.
  intros N. induction rows as [|t rows IH]; intros k idx; [by exists []|].
  cbn [map_to_db].
  destruct (CommitFacts.to_db_spec h userId selected k t idx)
    as [[_ ->]|[(C & _)|(C & _)]]; [|by destruct (N idx)..].
  cbn [bind]. destruct (IH k (S idx)) as (mapped & -> & E).
  cbn [bind]. exists (None :: mapped). split; [done|]. exact E.
Qed.

(** [indexOf] gives the first position of a header. *)
Lemma indexOf_first headers x :
  ∀ i, headers !! i = Some x →
       (∀ j, (j < i)%nat → headers !! j ≠ Some x) →
       indexOf headers x = Z.of_nat i.
Proof.
  induction headers as [|h rest IH]; intros i L M; [done|].
  cbn [indexOf]. destruct i as [|i]; simpl in L.
  - injection L as ->. by rewrite String.eqb_refl.
  - destruct (String.eqb_spec h x) as [->|N].
    + by destruct (M 0%nat ltac:(lia)).
    + rewrite (IH i L).
      * destruct (Z.ltb_spec (Z.of_nat i) 0); lia.
      * intros j Hj. apply (M (S j)). lia.
Qed.

Lemma days_in_month_min y m : 1 ≤ m ≤ 12 → 28 ≤ days_in_month y m ≤ 31.
Proof.
  intros Hm.
  assert (m = 1 ∨ m = 2 ∨ m = 3 ∨ m = 4 ∨ m = 5 ∨ m = 6 ∨ m = 7 ∨ m = 8
          ∨ m = 9 ∨ m = 10 ∨ m = 11 ∨ m = 12) as C by lia.
  repeat destruct C as [->|C]; try subst m; simpl;
    try destruct (leap_year y); lia.
Qed.

(** The day number of a date lies in its year. *)
Lemma day_number_in_year y m d :
  valid_calendar_date y m d →
  JsDate.DayFromYear y ≤ day_number y m d < JsDate.DayFromYear (y + 1).
Proof.
  intros V. destruct (CalendarFacts.fields_of_day_number y m d V) as (Y & _ & _).
  pose proof (CalendarFacts.YearFromDay_spec (day_number y m d)) as S.
  cbv zeta in Y. by rewrite Y in S.
Qed.

Lemma day_number_month y m d m' d' :
  valid_calendar_date y m d → valid_calendar_date y m' d' →
  day_number y m d = day_number y m' d' → m = m' ∧ d = d'.
Proof.
  intros V V' E.
  destruct (CalendarFacts.fields_of_day_number y m d V) as (_ & M & D).
  destruct (CalendarFacts.fields_of_day_number y m' d' V') as (_ & M' & D').
  cbv zeta in *. rewrite E in M, D. split; lia.
Qed.

Lemma time_in_range tza y m d :
  zone_offset tza → 100 ≤ y ≤ 275759 → valid_calendar_date y m d →
  Z.abs (JsDate.UTC tza (day_number y m d * JsDate.msPerDay)) ≤ JsDate.maxTime.
Proof.
  intros Z Hy V. pose proof (day_number_in_year y m d V) as B.
  pose proof (CalendarFacts.DayFromYear_le 100 y ltac:(lia)) as L0.
  pose proof (CalendarFacts.DayFromYear_le (y + 1) 275760 ltac:(lia)) as L1.
  change (JsDate.DayFromYear 100) with (-683003) in L0.
  change (JsDate.DayFromYear 275760) with 99999744 in L1.
  pose proof (Z (day_number y m d * JsDate.msPerDay) false) as O.
  unfold JsDate.UTC. revert B L0 L1 O.
  generalize (tza (day_number y m d * JsDate.msPerDay) false).
  generalize (day_number y m d), (JsDate.DayFromYear y), (JsDate.DayFromYear (y + 1)).
  clear. unfold JsDate.msPerDay, JsDate.maxTime. lia.
Qed.

End EdgeFacts.

(** X18. A row switched on and off. On a preview with no row marked, an
    import takes every row. Marking one row and unmarking it again does not
    bring that back: the selection then holds an entry that says "not
    selected", no row is chosen, and an import hands the table an empty
    batch, which the page reports as a success if the table accepts it. *)
Theorem toggling_a_row_on_and_off (h : Host) (s : Session) (i : nat) :
  selectedTransactions s = ∅ →
  parsedData s ≠ [] →
  is_Some (authUser h) →
  let s' := handle h (ToggleRow i false) (handle h (ToggleRow i true) s) in
  chosen_rows (selectedTransactions s) (parsedData s) = parsedData s
  ∧ chosen_rows (selectedTransactions s') (parsedData s') = []
  ∧ (importTransactions h s').2 = Some []
  ∧ (insertTransactions h [] = None →
     uploadStatus (importTransactions h s').1 = success).
Proof.
  intros E NE [u U] s'.
  assert (∀ j, ¬ chosen (selectedTransactions s') j) as N.
  { intros j [C|C]; subst s'; simpl in C.
    - apply (f_equal (λ m : gmap nat bool, m !! i)) in C.
      by rewrite lookup_insert_eq, lookup_empty in C.
    - rewrite E in C. destruct (decide (j = i)) as [->|D].
      + by rewrite lookup_insert_eq in C.
      + by rewrite !lookup_insert_ne, lookup_empty in C. }
  assert (build_batch h u (selectedTransactions s') (parsedData s') = Ok []) as B.
  { unfold build_batch.
    destruct (EdgeFacts.map_to_db_none h u _ (parsedData s') N 0%nat 0%nat)
      as (mapped & -> & O).
    cbn [bind]. by rewrite O. }
  split; [rewrite E; apply CommitFacts.chosen_rows_empty|]. split.
  - destruct (chosen_rows _ _) as [|t ts] eqn:C; [done|].
    assert (t ∈ chosen_rows (selectedTransactions s') (parsedData s')) as Ht
      by (rewrite C; left).
    apply CommitFacts.elem_of_chosen_rows in Ht as (j & _ & Cj). by destruct (N j).
  - assert (parsedData s' ≠ []) as NE' by done.
    unfold importTransactions. destruct (parsedData s') eqn:P; [done|].
    rewrite U. cbn [parsedData selectedTransactions setProgress setUploadStatus].
    rewrite P, B. split; [by destruct (insertTransactions h [])|].
    by intros ->.
Qed.

(** X19. The required fields of a candidate. The date, the amount and the
    description of a candidate are the cells of the row in the first
    column whose header is the mapped column name, as long as no header
    that is left unconsumed bears the name of the field itself. *)
Theorem required_fields_are_mapped_cells (headers : list string)
    (mapping : ColumnMapping) (row : list string) (k column : string) (i : nat) :
  (k, column) ∈ [("date", dateColumn mapping); ("amount", amountColumn mapping);
                 ("description", descriptionColumn mapping)] →
  headers !! i = Some column →
  (∀ j, (j < i)%nat → headers !! j ≠ Some column) →
  k ∉ extra_keys (resolve_indices headers mapping) headers →
  map_row headers mapping row !! k = row !! i.
Proof.
  intros Hk L M NK.
  pose proof (EdgeFacts.indexOf_first headers column i L M) as I.
  assert (k ≠ "__proto__") as Np.
  { intros ->. repeat (apply elem_of_cons in Hk as [Hk|Hk]; [discriminate Hk|]).
    by apply elem_of_nil in Hk. }
  rewrite MapperFacts.map_row_field by done.
  cbv zeta. unfold resolve_indices.
  cbn [dateIdx amountIdx descriptionIdx categoryIdx typeIdx].
  assert ((if 0 <=? Z.of_nat i then cell row (Z.of_nat i) else Some EmptyString)
          = row !! i) as C.
  { destruct (Z.leb_spec 0 (Z.of_nat i)); [|lia]. unfold cell.
    destruct (Z.ltb_spec (Z.of_nat i) 0); [lia|]. by rewrite Nat2Z.id. }
  repeat (apply elem_of_cons in Hk as [Hk|Hk];
          [injection Hk as -> ->; rewrite I; cbv [last_assignment];
           MapperFacts.string_eqbs; exact C|]).
  by apply elem_of_nil in Hk.
Qed.

(** X20. Dates that read both ways. A string that the date parser accepts
    under [MM/DD/YYYY] can be accepted under [DD/MM/YYYY] only when its
    second part, the day, is at most 12, and (for a year up to 275759) is
    accepted whenever it is and the zone of the host has the other day.
    The two readings are then the same instant only when the first two
    parts are equal. So the parser cannot tell a wrong choice of layout
    for such dates. *)
Theorem ambiguous_dates (tza : JsDate.TimeZone) (raw : string) (t1 : Z) :
  zone_offset tza →
  parseDate tza raw "MM/DD/YYYY" = Some t1 →
  ∃ p0 p1 p2,
    JsString.split is_date_separator (JsString.keep_chars is_date_char raw)
    = [p0; p1; p2]
    ∧ let a := numeral_value p0 in
      let b := numeral_value p1 in
      let y := numeral_value p2 in
      valid_calendar_date y a b
      ∧ zone_has_day tza (day_number y a b)
      ∧ t1 = JsDate.UTC tza (day_number y a b * JsDate.msPerDay)
      ∧ (∀ t2, parseDate tza raw "DD/MM/YYYY" = Some t2 →
           b ≤ 12
           ∧ zone_has_day tza (day_number y b a)
           ∧ t2 = JsDate.UTC tza (day_number y b a * JsDate.msPerDay)
           ∧ (t1 = t2 ↔ a = b))
      ∧ (y ≤ 275759 → b ≤ 12 → zone_has_day tza (day_number y b a) →
         ∃ t2, parseDate tza raw "DD/MM/YYYY" = Some t2).
Proof.
  intros Z P. apply (DateFacts.parseDate_iff tza raw MDY) in P; [|exact Z].
  destruct P as (p0 & p1 & p2 & S & N0 & N1 & N2 & y & m & d & A & V & Hy & -> & R & K).
  simpl in A. injection A as <- <- <-.
  exists p0, p1, p2. split; [exact S|]. cbv zeta.
  split; [exact V|]. split; [exact K|]. split; [done|].
  destruct V as [Hm Hd]. split.
  - intros t2 P2. apply (DateFacts.parseDate_iff tza raw DMY) in P2; [|exact Z].
    destruct P2 as (q0 & q1 & q2 & S' & _ & _ & _ & y' & m' & d' & A' & V' & _ & -> & _ & K').
    rewrite S in S'. injection S' as <- <- <-.
    simpl in A'. injection A' as <- <- <-.
    split; [destruct V' as [? _]; lia|]. split; [exact K'|]. split; [done|]. split.
    + intros E. unfold zone_has_day in K, K'. rewrite E, K' in K.
      by destruct (EdgeFacts.day_number_month _ _ _ _ _ V' (conj Hm Hd) K).
    + by intros ->.
  - intros Hy' Hb K'.
    assert (valid_calendar_date (numeral_value p2) (numeral_value p1)
              (numeral_value p0)) as V'.
    { split; [lia|].
      pose proof (EdgeFacts.days_in_month_min (numeral_value p2) (numeral_value p1)
                    ltac:(lia)). lia. }
    eexists. apply (DateFacts.parseDate_iff tza raw DMY); [exact Z|].
    exists p0, p1, p2. split; [exact S|]. split; [done|]. split; [done|].
    split; [done|].
    exists (numeral_value p2), (numeral_value p1), (numeral_value p0).
    split; [done|]. split; [exact V'|]. split; [done|]. split; [reflexivity|].
    split; [by apply EdgeFacts.time_in_range|exact K'].
Qed.


(** ** The further properties at work *)

Lemma parseCsvLine_round_trip_witness :
  parseCsvLine (JsString.join "," [quoted "Coffee, large"; " 12.50 "; "Food"])
  = ["Coffee, large"; "12.50"; "Food"].
Proof.
  apply (parseCsvLine_round_trip ["Coffee, large"; " 12.50 "; "Food"]
           [quoted "Coffee, large"; " 12.50 "; "Food"]).
  - discriminate.
  - repeat constructor.
  - repeat constructor.
Defined.

Lemma parseRawCSV_ignores_carriage_returns_witness :
  parseRawCSV ("date,amount" +:+ CR +:+ LF +:+ "2024-01-05,10" +:+ CR)
  = parseRawCSV ("date,amount" +:+ LF +:+ "2024-01-05,10").
Proof.
  apply (proj2 parseRawCSV_ignores_carriage_returns ["date,amount"; "2024-01-05,10"]).
  repeat constructor.
Defined.

Lemma parse_amount_shape_witness :
  JsNumber.is_negative (parse_amount "$ -1,234.56 CR") = true.
Proof.
  apply (proj2 (parse_amount_shape "$ -1,234.56 CR")). reflexivity.
Defined.

Lemma resetForm_agrees_with_template_witness :
  mapCsvToTransactions sampleHeaders sampleRows
    (resetForm sampleHeaders "generic" formDefaultValues)
  = mapCsvToTransactions sampleHeaders sampleRows
      (templateMapping sampleHeaders genericTemplate).
Proof.
  refine (proj1 (resetForm_agrees_with_template sampleHost (previewSession [] ∅)
                   formDefaultValues genericTemplate _ _)).
  - discriminate.
  - reflexivity.
Defined.

Lemma columnMappingSchema_on_filled_form_witness :
  columnMappingSchema (resetForm sampleHeaders "generic" formDefaultValues) = [].
Proof.
  apply (proj1 (columnMappingSchema_on_filled_form sampleHeaders "generic"
                  formDefaultValues) genericTemplate).
  - discriminate.
  - reflexivity.
  - vm_compute. repeat split; discriminate.
Defined.

Lemma candidates_come_from_staged_file_witness :
  Forall (λ t : CsvTransaction, ∀ k, k ∈ named_fields → is_Some (t !! k))
    (parsedData (processed sampleFile)).
Proof.
  refine (proj1 (proj2 (candidates_come_from_staged_file sampleHost
                          (processed sampleFile) _))).
  unfold processed. repeat constructor.
Defined.

Lemma committed_records_are_well_formed_witness :
  ∃ batch,
    (importTransactions sampleHost (processed sampleFile)).2 = Some batch
    ∧ Forall (λ db, JsNumber.isNaN (amount db) = false
                    ∧ (∃ d, description db = Some d ∧ is_blank d = false)
                    ∧ is_Some (category db) ∧ is_Some (type db))
        batch.
Proof.
  assert (∃ batch, (importTransactions sampleHost (processed sampleFile)).2 = Some batch)
    as [batch B] by (eexists; vm_compute; reflexivity).
  exists batch. split; [exact B|].
  apply (committed_records_are_well_formed sampleHost (processed sampleFile) batch).
  - unfold processed. repeat constructor.
  - exact B.
Defined.

Lemma ui_session_invariant_witness :
  is_Some (findTemplate (selectedTemplate (processed sampleFile)))
  ∧ (uploadStatus (processed sampleFile) ≠ idle → is_Some (file (processed sampleFile))).
Proof.
  destruct (ui_session_invariant sampleHost (processed sampleFile)) as (_ & T & F & _).
  - unfold processed. apply ui_reachable_handle; [|vm_compute; reflexivity].
    apply ui_reachable_handle; [|vm_compute; reflexivity].
    apply ui_reachable_initial.
  - split; [exact T|exact F].
Defined.

Lemma error_and_success_are_final_witness :
  uploadStatus (processed headerOnlyFile) = error
  ∧ only_tabs (processed headerOnlyFile).
Proof.
  split; [vm_compute; reflexivity|].
  refine (proj1 (error_and_success_are_final sampleHost (processed headerOnlyFile)
                   (setUploadMode advanced (processed headerOnlyFile))
                   [SelectMode advanced] _ _)).
  - left. vm_compute. reflexivity.
  - reflexivity.
Defined.

Lemma ragged_file_is_a_dead_end_witness :
  blank_page sampleHost (processed raggedFile).
Proof.
  refine (proj1 (ragged_file_is_a_dead_end sampleHost
                   (handle sampleHost (ChooseFile raggedFile) initial) raggedFile _ _)
            _ _).
  - reflexivity.
  - exists "date,description,amount", "2024-01-05,Coffee", [].
    split; [vm_compute; reflexivity|].
    repeat constructor. vm_compute. discriminate.
  - reflexivity.
  - eexists. reflexivity.
Defined.

Lemma selection_stays_within_table_witness :
  let s' := handle sampleHost (ToggleRow 0 false)
              (handle sampleHost SelectAll (processed sampleFile)) in
  headerCheckbox s' = true ∧ rowCheckbox s' 0 = Some false
  ∧ ¬ chosen (selectedTransactions s') 0.
Proof.
  refine (proj2 (proj2 (selection_stays_within_table sampleHost (processed sampleFile) _))
            0%nat _).
  - unfold processed. apply ui_reachable_handle; [|vm_compute; reflexivity].
    apply ui_reachable_handle; [|vm_compute; reflexivity].
    apply ui_reachable_initial.
  - vm_compute. lia.
Defined.

Lemma clear_selection_imports_everything_witness :
  headerCheckbox (handle sampleHost ClearSelection (previewSession sampleCandidates ∅))
  = false
  ∧ headerCheckbox (handle sampleHost SelectAll (previewSession sampleCandidates ∅))
    = true.
Proof.
  refine (proj2 (proj2 (proj2 (proj2 (proj2
            (clear_selection_imports_everything sampleHost
               (previewSession sampleCandidates ∅)))))) _).
  discriminate.
Defined.

Lemma batch_identifiers_witness :
  ∃ batch,
    (importTransactions sampleHost (previewSession sampleCandidates ∅)).2 = Some batch
    ∧ ∀ k db, batch !! k = Some db →
        id db = "id-" +:+ pretty k ∧ user_id db = "user-1".
Proof.
  assert (∃ batch, (importTransactions sampleHost (previewSession sampleCandidates ∅)).2
                   = Some batch) as [batch B] by (eexists; vm_compute; reflexivity).
  exists batch. split; [exact B|].
  destruct (batch_identifiers sampleHost _ batch B) as (u & U & N & _).
  injection U as <-. intros k db L. destruct (N k db L) as (I & _ & O). by split.
Defined.

Lemma iso_dates_commit_as_written_witness :
  JsDate.parse (LocalTZA summerHost) (dateFallback summerHost)
    (iso_date_string 2024 7 1)
  = Some 1719792000000
  ∧ parseDate (LocalTZA summerHost) (iso_date_string 2024 7 1) "YYYY-MM-DD"
    = Some 1719788400000.
Proof.
  assert (zone_offset (LocalTZA summerHost)) as Z.
  { intros t isUTC. change (LocalTZA summerHost) with summerTimeZone.
    unfold summerTimeZone, JsDate.one_transition.
    destruct isUTC; case_match; vm_compute; reflexivity. }
  assert (zone_has_day (LocalTZA summerHost) (day_number 2024 7 1)) as K
    by (vm_compute; reflexivity).
  destruct (iso_dates_commit_as_written summerHost 2024 7 1) as (P & _ & A).
  - lia.
  - split; [lia|]. change (days_in_month 2024 7) with 31. lia.
  - split; [exact P|]. apply (A Z). split; [lia|]. split; [exact K|].
    vm_compute. reflexivity.
Defined.

Lemma importTransactions_outcomes_witness :
  uploadStatus (importTransactions sampleHost (previewSession sampleCandidates ∅)).1
  = success.
Proof.
  destruct (importTransactions_outcomes sampleHost (previewSession sampleCandidates ∅))
    as [_ O].
  destruct O as (_ & _ & _ & S & _); [discriminate|].
  apply S. eexists. split; [vm_compute; reflexivity|reflexivity].
Defined.

Lemma missing_column_fails_every_row_witness :
  let headers := ["when"; "description"; "amount"] in
  let data := [["2024-01-05"; "Coffee"; "5"]] in
  let mapping :=
    {| dateColumn := EmptyString; amountColumn := "amount";
       descriptionColumn := "description"; categoryColumn := None;
       typeColumn := None; dateFormat := "YYYY-MM-DD";
       defaultCategory := None; defaultType := None |} in
  ∃ errors,
    validateTransactions summerTimeZone (mapCsvToTransactions headers data mapping)
      "YYYY-MM-DD"
    = Ok errors
    ∧ row_label 0 +:+ "Invalid date format " +:+ quoted EmptyString ∈ errors.
Proof.
  intros headers data mapping.
  destruct (missing_column_fails_every_row summerTimeZone headers data mapping
              "YYYY-MM-DD")
    as (errors & E & D & _).
  - repeat constructor.
  - exists errors. split; [exact E|]. apply D.
    + rewrite list_elem_of_In. simpl. intuition discriminate.
    + rewrite list_elem_of_In. simpl. intuition discriminate.
    + simpl. lia.
Defined.

Lemma toggling_a_row_on_and_off_witness :
  (importTransactions sampleHost
     (handle sampleHost (ToggleRow 0 false)
        (handle sampleHost (ToggleRow 0 true) (previewSession sampleCandidates ∅)))).2
  = Some [].
Proof.
  refine (proj1 (proj2 (proj2
            (toggling_a_row_on_and_off sampleHost (previewSession sampleCandidates ∅)
               0%nat _ _ _)))).
  - reflexivity.
  - discriminate.
  - eexists. reflexivity.
Defined.

Lemma required_fields_are_mapped_cells_witness :
  map_row ["Date"; "Memo"; "Amount"]
    {| dateColumn := "Date"; amountColumn := "Amount"; descriptionColumn := "Memo";
       categoryColumn := None; typeColumn := None; dateFormat := "YYYY-MM-DD";
       defaultCategory := None; defaultType := None |}
    ["2024-01-05"; "Coffee"; "-50"] !! "date"
  = Some "2024-01-05".
Proof.
  refine (required_fields_are_mapped_cells ["Date"; "Memo"; "Amount"] _
            ["2024-01-05"; "Coffee"; "-50"] "date" "Date" 0%nat _ _ _ _).
  - left.
  - reflexivity.
  - intros j Hj. lia.
  - rewrite list_elem_of_In. vm_compute. tauto.
Defined.

Lemma ambiguous_dates_witness :
  parseDate summerTimeZone "01/07/2024" "MM/DD/YYYY" = Some 1704585600000
  ∧ ∃ t2, parseDate summerTimeZone "01/07/2024" "DD/MM/YYYY" = Some t2
          ∧ t2 ≠ 1704585600000.
Proof.
  assert (zone_offset summerTimeZone) as Z.
  { intros t isUTC. unfold summerTimeZone, JsDate.one_transition.
    destruct isUTC; case_match; vm_compute; reflexivity. }
  assert (parseDate summerTimeZone "01/07/2024" "MM/DD/YYYY" = Some 1704585600000) as P
    by (vm_compute; reflexivity).
  split; [exact P|].
  destruct (ambiguous_dates summerTimeZone "01/07/2024" _ Z P)
    as (p0 & p1 & p2 & S & _ & _ & _ & Other & A).
  vm_compute in S. injection S as <- <- <-.
  destruct A as [t2 P2].
  - vm_compute. discriminate.
  - vm_compute. discriminate.
  - vm_compute. reflexivity.
  - exists t2. split; [exact P2|].
    destruct (Other t2 P2) as (_ & _ & _ & E). intros ->.
    assert (numeral_value "01" = numeral_value "07") as F by (by apply E).
    vm_compute in F. discriminate F.
Defined.
